(** * Gifts-Buyer: the gift acquisition engine

    A shallow embedding of the decision logic of the bot
    (range matching, eligibility, prioritisation, the purchase
    orchestrator, the error handler and the detection loop) together with
    the properties its specification states about them.

    Python dictionaries holding a gift's attributes are finite maps from
    attribute names to dynamically typed values; the dictionaries whose
    iteration order the code relies on are association lists in insertion
    order; calls to the Telegram client, the history file, the console and
    the notification channel are threaded through a state-and-exception
    monad that records a trace of the observable steps. *)

From Stdlib Require Import ZArith QArith Lia List Ascii String.
From stdpp Require Import base option list sorting gmap strings pretty.

Local Open Scope string_scope.
Local Open Scope list_scope.
Local Open Scope Z_scope.

(** ** Dynamically typed values *)

(** The attribute values of a gift record after its JSON round trip, as far
    as the engine reads them: [None], booleans, integers and strings. *)
Inductive value : Type :=
| VNone
| VBool (b : bool)
| VInt (z : Z)
| VStr (s : string).

(** Python truthiness, as used by [if], [and], [not] and conditional
    expressions. *)
Definition truthy (v : value) : bool :=
  match v with
  | VNone => false
  | VBool b => b
  | VInt z => negb (z =? 0)
  | VStr s => negb (String.eqb s "")
  end.

(** The integer a value stands for in an ordering comparison with an [int];
    [bool] is a subclass of [int], every other type raises [TypeError]. *)
Definition as_int (v : value) : option Z :=
  match v with
  | VInt z => Some z
  | VBool b => Some (if b then 1 else 0)
  | VNone | VStr _ => None
  end.

(** [v == z] for an integer [z]. *)
Definition eq_int (v : value) (z : Z) : bool :=
  match as_int v with
  | Some x => x =? z
  | None => false
  end.

(** [d.get(key, dflt)] *)
Definition dict_get (d : gmap string value) (key : string) (dflt : value) : value :=
  default dflt (d !! key).

(** [key in d] *)
Definition dict_has (d : gmap string value) (key : string) : bool :=
  bool_decide (is_Some (d !! key)).

(** ** Exceptions and results *)

Inductive exn : Type :=
| RPCError (msg : string)              (* pyrogram.errors.RPCError *)
| PyException (name msg : string)      (* any other subclass of Exception *)
| KeyboardInterrupt.                   (* a BaseException outside Exception *)

Definition is_Exception (e : exn) : bool :=
  match e with
  | KeyboardInterrupt => false
  | RPCError _ | PyException _ _ => true
  end.

(** [str(ex)] *)
Definition exn_str (e : exn) : string :=
  match e with
  | RPCError msg => msg
  | PyException _ msg => msg
  | KeyboardInterrupt => ""
  end.

Inductive result (A : Type) : Type :=
| Ok (a : A)
| Raise (e : exn).
Arguments Ok {A} a.
Arguments Raise {A} e.

Definition TypeError : exn := PyException "TypeError" "'<=' not supported".

(** [a <= b] where one side is a configured integer. *)
Definition int_le_value (a : Z) (b : value) : result bool :=
  match as_int b with
  | Some y => Ok (a <=? y)
  | None => Raise TypeError
  end.

Definition value_le_int (a : value) (b : Z) : result bool :=
  match as_int a with
  | Some x => Ok (x <=? b)
  | None => Raise TypeError
  end.

(** ** Configuration (data/config.py) *)

(** A recipient is a numeric chat id or a user name. *)
Inductive recipient : Type :=
| RId (chat_id : Z)
| RName (username : string).

Record range_config : Type := {
  min_price : Z;
  max_price : Z;
  supply_limit : Z;
  quantity : Z;
  recipients : list recipient
}.

Record Config : Type := {
  GIFT_RANGES : list range_config;
  PURCHASE_ONLY_UPGRADABLE_GIFTS : bool;
  PRIORITIZE_LOW_SUPPLY : bool;
  INTERVAL : Q
}.

(** The condition of the list comprehension of [get_matching_range]:
    [min_price <= price <= max_price and total_amount <= supply_limit],
    evaluated left to right with short circuit. *)
Definition range_condition (rc : range_config) (price total_amount : value)
  : result bool :=
  match int_le_value (min_price rc) price with
  | Raise e => Raise e
  | Ok false => Ok false
  | Ok true =>
      match value_le_int price (max_price rc) with
      | Raise e => Raise e
      | Ok false => Ok false
      | Ok true => value_le_int total_amount (supply_limit rc)
      end
  end.

(** The comprehension visits every configured range, in order. *)
Fixpoint matching_ranges (ranges : list range_config) (price total_amount : value)
  : result (list (Z * list recipient)) :=
  match ranges with
  | [] => Ok []
  | rc :: rest =>
      match range_condition rc price total_amount with
      | Raise e => Raise e
      | Ok c =>
          match matching_ranges rest price total_amount with
          | Raise e => Raise e
          | Ok ms => Ok (if c then (quantity rc, recipients rc) :: ms else ms)
          end
      end
  end.

Definition get_matching_range (config : Config) (price total_amount : value)
  : result (bool * Z * list recipient) :=
  match matching_ranges (GIFT_RANGES config) price total_amount with
  | Raise e => Raise e
  | Ok [] => Ok (false, 0, [])
  | Ok ((q, rs) :: _) => Ok (true, q, rs)
  end.

(** ** Eligibility (app/core/callbacks.py) *)

Inductive processing_data : Type :=
| ExclusionReason (failed_rule : string)
| RangeMatch (quantity : Z) (recipients : list recipient)
| RangeError (gift_price total_amount : value).

Definition _evaluate_range_match (config : Config) (gift_price total_amount : value)
  : result (bool * processing_data) :=
  match get_matching_range config gift_price total_amount with
  | Raise e => Raise e
  | Ok (range_matched, quantity, recipients) =>
      if range_matched
      then Ok (true, RangeMatch quantity recipients)
      else Ok (false, RangeError gift_price total_amount)
  end.

(** [next((rule for rule, condition in rules.items() if condition()), None)] *)
Fixpoint first_failed_rule (rules : list (string * bool)) : option string :=
  match rules with
  | [] => None
  | (rule, condition) :: rest =>
      if condition then Some rule else first_failed_rule rest
  end.

Definition exclusion_rules (config : Config) (is_sold_out is_limited : value)
    (is_upgradable : bool) : list (string * bool) :=
  [ ("sold_out", truthy is_sold_out);
    ("non_limited_blocked", negb (truthy is_limited));
    ("non_upgradable_blocked",
      PURCHASE_ONLY_UPGRADABLE_GIFTS config && negb is_upgradable) ].

Definition evaluate_gift (config : Config) (gift_data : gmap string value)
  : result (bool * processing_data) :=
  let gift_price := dict_get gift_data "price" (VInt 0) in
  let is_limited := dict_get gift_data "is_limited" (VBool false) in
  let is_sold_out := dict_get gift_data "is_sold_out" (VBool false) in
  let is_upgradable := dict_has gift_data "upgrade_price" in
  let total_amount :=
    if truthy is_limited then dict_get gift_data "total_amount" (VInt 0)
    else VInt 0 in
  match first_failed_rule
          (exclusion_rules config is_sold_out is_limited is_upgradable) with
  | None => _evaluate_range_match config gift_price total_amount
  | Some failed_rule => Ok (false, ExclusionReason failed_rule)
  end.

(** ** Skip categories (app/utils/detector.py) *)

Record skip_counts : Type := {
  sold_out_count : Z;
  non_limited_count : Z;
  non_upgradable_count : Z
}.

Definition categorize_skipped_gifts (config : Config) (gift_data : gmap string value)
  : skip_counts :=
  {| sold_out_count :=
       if truthy (dict_get gift_data "is_sold_out" (VBool false)) then 1 else 0;
     non_limited_count :=
       if truthy (dict_get gift_data "is_limited" VNone) then 0 else 1;
     non_upgradable_count :=
       if PURCHASE_ONLY_UPGRADABLE_GIFTS config
          && negb (dict_has gift_data "upgrade_price")
       then 1 else 0 |}.

(** ** Prioritisation (app/utils/detector.py) *)

(** A dictionary of gifts keyed by id, in insertion order. *)
Abbreviation gift_dict := (list (Z * gmap string value)).

Definition ValueError : exn := PyException "ValueError" "x is not in list".

(** [gift_ids.index(gift_id)]: the index of the first occurrence. *)
Fixpoint list_index (gift_id : Z) (gift_ids : list Z) : option nat :=
  match gift_ids with
  | [] => None
  | x :: rest =>
      if Z.eqb x gift_id then Some O else S <$> list_index gift_id rest
  end.

(** The first loop of [prioritize_gifts]: every gift record receives
    [position = len(gift_ids) - gift_ids.index(gift_id)]. *)
Fixpoint assign_positions (gifts : gift_dict) (gift_ids : list Z)
  : result gift_dict :=
  match gifts with
  | [] => Ok []
  | (gift_id, gift_data) :: rest =>
      match list_index gift_id gift_ids with
      | None => Raise ValueError
      | Some i =>
          match assign_positions rest gift_ids with
          | Raise e => Raise e
          | Ok rest' =>
              Ok ((gift_id,
                   <["position" := VInt (Z.of_nat (length gift_ids) - Z.of_nat i)]>
                     gift_data) :: rest')
          end
      end
  end.

(** [sorted(items, key=...)]: Python's sort is stable, and a stable sort has
    one possible result, which insertion from the right computes. *)
Fixpoint insert_sorted {A : Type} (le : A -> A -> bool) (x : A) (l : list A)
  : list A :=
  match l with
  | [] => [x]
  | y :: l' => if le x y then x :: y :: l' else y :: insert_sorted le x l'
  end.

Fixpoint sorted {A : Type} (le : A -> A -> bool) (l : list A) : list A :=
  match l with
  | [] => []
  | x :: l' => insert_sorted le x (sorted le l')
  end.

(** [x[1]["position"]]; the loop above has stored an integer there. *)
Definition position_key (x : Z * gmap string value) : Z :=
  default 0 (x.2 !! "position" ≫= as_int).

(** An integer supply or [float('inf')]. *)
Inductive supply : Type :=
| Finite (n : Z)
| Infinite.

Definition supply_leb (a b : supply) : bool :=
  match a, b with
  | Finite x, Finite y => x <=? y
  | _, Infinite => true
  | Infinite, Finite _ => false
  end.

Definition supply_eqb (a b : supply) : bool :=
  match a, b with
  | Finite x, Finite y => x =? y
  | Infinite, Infinite => true
  | _, _ => false
  end.

(** [x[1].get("total_amount", inf) if x[1].get("is_limited", False) else inf];
    [None] when the stored supply is not a number, which Python cannot order
    against one. *)
Definition supply_key (x : Z * gmap string value) : option supply :=
  if truthy (dict_get x.2 "is_limited" (VBool false))
  then match x.2 !! "total_amount" with
       | None => Some Infinite
       | Some v => Finite <$> as_int v
       end
  else Some Infinite.

(** Tuple comparison of [(supply, position)] keys. *)
Definition low_supply_leb (x y : Z * gmap string value) : bool :=
  let a := default Infinite (supply_key x) in
  let b := default Infinite (supply_key y) in
  if supply_eqb a b then position_key x <=? position_key y
  else supply_leb a b.

(** [prioritize_gifts]. The keys of the second sort are ordered as numbers;
    a limited gift whose supply is not a number makes the comparison of two
    keys raise [TypeError], which is reported whenever such a gift is among
    two or more gifts to sort. *)
Definition prioritize_gifts (config : Config) (gifts : gift_dict) (gift_ids : list Z)
  : result gift_dict :=
  match assign_positions gifts gift_ids with
  | Raise e => Raise e
  | Ok gifts' =>
      let position_sorted :=
        sorted (fun x y => position_key x <=? position_key y) gifts' in
      if negb (PRIORITIZE_LOW_SUPPLY config) then Ok position_sorted
      else if forallb (fun x => bool_decide (is_Some (supply_key x))) position_sorted
              || (length position_sorted <=? 1)%nat
      then Ok (sorted low_supply_leb position_sorted)
      else Raise TypeError
  end.

(** The tally of [_process_new_gifts] over the batch. *)
Definition add_skips (a b : skip_counts) : skip_counts :=
  {| sold_out_count := sold_out_count a + sold_out_count b;
     non_limited_count := non_limited_count a + non_limited_count b;
     non_upgradable_count := non_upgradable_count a + non_upgradable_count b |}.

Definition tally_skips (config : Config) (new_gifts : gift_dict) : skip_counts :=
  fold_left
    (fun acc g => add_skips acc (categorize_skipped_gifts config g.2))
    new_gifts
    {| sold_out_count := 0; non_limited_count := 0; non_upgradable_count := 0 |}.

(** ** Observable steps *)

(** The keyword arguments of a [send_notification] call. *)
Inductive notification : Type :=
| NProcessing (processing_data : processing_data)   (* [**processing_data] *)
| NErrorMessage (error_message : string)
| NSuccess (user_id : recipient) (username : string) (current_gift total_gifts : Z)
| NBalanceError (gift_price current_balance : Z)
| NSoldOut
| NPeerIdError
| NPartialPurchase (purchased requested remaining_cost current_balance : Z).

Inductive log_level : Type := INFO | WARNING | ERROR | SUCCESS.

Inductive event : Type :=
| EvSendGift (chat_id : recipient) (gift_id : value) (failure : option exn)
    (* one [app.send_gift] call and how it ended *)
| EvNotify (gift_id : value) (n : notification)
| EvSummary (counts : skip_counts)
| EvStartMessage
| EvSleep (seconds : Q)                (* [await asyncio.sleep] *)
| EvTimeSleep (seconds : Q)            (* [time.sleep] *)
| EvLog (level : log_level) (message : string)
| EvLogSameLine (message : string)
| EvBanner
| EvTraceback (e : exn).

Definition is_send_gift (ev : event) : bool :=
  match ev with EvSendGift _ _ _ => true | _ => false end.

Definition is_notify (ev : event) : bool :=
  match ev with EvNotify _ _ => true | _ => false end.

Definition is_sleep (ev : event) : bool :=
  match ev with EvSleep _ => true | _ => false end.

(** ** The platform client *)

(** A gift as [app.get_available_gifts()] returns it: [id] and [price] are
    integers, [attrs] holds the other attributes that are not [None]. *)
Record Gift : Type := {
  gift_id_of : Z;
  gift_price_of : Z;
  gift_attrs : gmap string value
}.

(** [json.loads(json.dumps(gift, default=types.Object.default))] *)
Definition gift_to_json (gift : Gift) : gmap string value :=
  <["id" := VInt (gift_id_of gift)]>
    (<["price" := VInt (gift_price_of gift)]> (gift_attrs gift)).

(** What [app.get_chat] returns, as far as it is read. *)
Record Chat : Type := { chat_username : option string }.

(** The Telegram client over the state [W] of the platform and of the
    connection; every call may raise. *)
Record Client (W : Type) : Type := {
  get_available_gifts : W -> result (list Gift) * W;
  get_stars_balance : W -> result Z * W;
  get_chat : recipient -> W -> result Chat * W;
  send_gift : recipient -> value -> W -> result unit * W;
  is_connected : W -> bool;
  start : W -> result unit * W;
  stop : W -> result unit * W
}.
Arguments get_available_gifts {W} _ _.
Arguments get_stars_balance {W} _ _.
Arguments get_chat {W} _ _ _.
Arguments send_gift {W} _ _ _ _.
Arguments is_connected {W} _ _.
Arguments start {W} _ _.
Arguments stop {W} _ _.

(** ** A monad for state, exceptions and the trace *)

Record store (W : Type) : Type := {
  world : W;
  history_file : option (list (gmap string value))   (* data/json/history.json *)
}.
Arguments world {W} _.
Arguments history_file {W} _.

Definition M (W A : Type) : Type := store W -> result A * store W * list event.

Definition ret {W A} (a : A) : M W A := fun s => (Ok a, s, []).

Definition bind {W A B} (m : M W A) (k : A -> M W B) : M W B :=
  fun s =>
    match m s with
    | (Ok a, s1, evs1) =>
        match k a s1 with
        | (r, s2, evs2) => (r, s2, evs1 ++ evs2)
        end
    | (Raise e, s1, evs1) => (Raise e, s1, evs1)
    end.

Definition raise {W A} (e : exn) : M W A := fun s => (Raise e, s, []).

Definition emit {W} (ev : event) : M W unit := fun s => (Ok tt, s, [ev]).

(** [try: m / except <handles>: h] *)
Definition try_except {W A} (m : M W A) (handles : exn -> bool)
    (h : exn -> M W A) : M W A :=
  fun s =>
    match m s with
    | (Ok a, s1, evs1) => (Ok a, s1, evs1)
    | (Raise e, s1, evs1) =>
        if handles e then
          match h e s1 with
          | (r, s2, evs2) => (r, s2, evs1 ++ evs2)
          end
        else (Raise e, s1, evs1)
    end.

(** A call of a client method. *)
Definition call {W A} (op : W -> result A * W) : M W A :=
  fun s =>
    match op (world s) with
    | (r, w) => (r, {| world := w; history_file := history_file s |}, [])
    end.

Declare Scope monad_scope.
Delimit Scope monad_scope with monad.
Notation "x <- m ;; k" := (bind m (fun x => k))
  (at level 100, m at next level, right associativity) : monad_scope.
Notation "m ;; k" := (bind m (fun _ => k))
  (at level 100, right associativity) : monad_scope.
Local Open Scope monad_scope.

(** The three outputs of a run. *)
Definition outcome {W A} (x : result A * store W * list event) : result A := x.1.1.
Definition final {W A} (x : result A * store W * list event) : store W := x.1.2.
Definition steps {W A} (x : result A * store W * list event) : list event := x.2.

(** ** Strings *)

(** [str(n)] for an integer. *)
Definition str_of_Z (n : Z) : string := pretty n.

(** [str(chat_id)] *)
Definition str_of_recipient (chat_id : recipient) : string :=
  match chat_id with
  | RId n => str_of_Z n
  | RName s => s
  end.

(** A recipient as a keyword argument of a message. *)
Definition recipient_value (chat_id : recipient) : value :=
  match chat_id with
  | RId n => VInt n
  | RName s => VStr s
  end.

(** White space of the ASCII range, which [str.strip()] removes. *)
Definition is_whitespace (c : ascii) : bool :=
  let n := nat_of_ascii c in
  ((9 <=? n) && (n <=? 13) || (28 <=? n) && (n <=? 32))%nat.

Fixpoint lstrip (s : string) : string :=
  match s with
  | String c s' => if is_whitespace c then lstrip s' else s
  | EmptyString => EmptyString
  end.

Definition strip (s : string) : string :=
  String.rev (lstrip (String.rev (lstrip s))).

Definition is_digit_char (c : ascii) : bool :=
  let n := nat_of_ascii c in ((48 <=? n) && (n <=? 57))%nat.

(** [s.isdigit()] *)
Definition isdigit (s : string) : bool :=
  negb (String.eqb s "") && forallb is_digit_char (list_ascii_of_string s).

(** [needle in haystack] for strings. *)
Fixpoint contains (needle haystack : string) : bool :=
  String.prefix needle haystack ||
  match haystack with
  | String _ rest => contains needle rest
  | EmptyString => false
  end.

(** ["." * n] *)
Definition dots (n : Z) : string :=
  String.concat "" (replicate (Z.to_nat n) ".").

Section Engine.

Context {W : Type}.

(** [t = localization.translate]: the text of a message key under its
    keyword arguments, read from the locale files. *)
Variable t : string -> list (string * value) -> string.

(** The configuration singleton [data.config.config]. *)
Variable config : Config.

Definition info (message : string) : M W unit := emit (EvLog INFO message).
Definition warn (message : string) : M W unit := emit (EvLog WARNING message).
Definition error (message : string) : M W unit := emit (EvLog ERROR message).
Definition success (message : string) : M W unit := emit (EvLog SUCCESS message).
Definition log_same_line (message : string) : M W unit :=
  emit (EvLogSameLine message).

(** Modelled from the spec: [app.notifications.send_notification], the
    notification collaborator, which is not among the sources. One call is one
    notification event carrying the gift id and the keyword arguments. *)
Definition send_notification (app : Client W) (gift_id : value)
    (kwargs : notification) : M W unit :=
  emit (EvNotify gift_id kwargs).

(** Modelled from the spec: [app.notifications.send_summary_message], which
    reports the skip counters of a batch. *)
Definition send_summary_message (app : Client W) (counts : skip_counts)
  : M W unit :=
  emit (EvSummary counts).

(** Modelled from the spec: [app.notifications.send_start_message]. *)
Definition send_start_message (app : Client W) : M W unit :=
  emit EvStartMessage.

(** *** app/utils/helper.py *)

Definition get_user_balance (client : Client W) : M W Z :=
  try_except (call (get_stars_balance client)) is_Exception (fun _ => ret 0).

Definition get_recipient_info (app : Client W) (chat_id : recipient)
  : M W (string * string) :=
  try_except
    (user <- call (get_chat app chat_id);;
     let username := default "" (chat_username user) in
     let recipient_info :=
       if negb (String.eqb username "") then "@" +:+ strip username
       else if match chat_id with
               | RId _ => true
               | RName s => isdigit s
               end
            then str_of_recipient chat_id
            else "@" +:+ str_of_recipient chat_id in
     ret (recipient_info, username))
    is_Exception
    (fun _ => ret (str_of_recipient chat_id, "")).

(** *** app/errors.py *)

Record error_handler : Type := {
  check : exn -> bool;
  log_message : option string;
  notification_key : string
}.

Definition get_error_handlers : list error_handler :=
  [ {| check := fun e => contains "BALANCE_TOO_LOW" (exn_str e);
       log_message := Some "low_balance";
       notification_key := "balance_error" |};
    {| check := fun e => contains "STARGIFT_USAGE_LIMITED" (exn_str e);
       log_message := None;
       notification_key := "sold_out" |};
    {| check := fun e => contains "PEER_ID_INVALID" (exn_str e);
       log_message := Some (t "console.peer_id" []);
       notification_key := "peer_id_error" |} ].

(** [notification_data[key]] where [key in notification_data]. *)
Fixpoint lookup_key {A : Type} (key : string) (d : list (string * A)) : option A :=
  match d with
  | [] => None
  | (k, v) :: rest => if String.eqb k key then Some v else lookup_key key rest
  end.

Definition _process_error (app : Client W) (gift_id : value)
    (handler : error_handler) (notification_data : list (string * notification))
  : M W unit :=
  match log_message handler with
  | Some message =>
      if String.eqb message "" then ret tt
      else if String.eqb message "low_balance"
      then error (t "console.low_balance" [("gift_id", gift_id)])
      else error message
  | None => ret tt
  end;;
  match lookup_key (notification_key handler) notification_data with
  | Some kwargs => send_notification app gift_id kwargs
  | None => ret tt
  end.

(** The loop of [handle_gift_error] over the handlers. *)
Fixpoint run_error_handlers (app : Client W) (ex : exn) (gift_id : value)
    (notification_data : list (string * notification))
    (handlers : list error_handler) : M W unit :=
  match handlers with
  | [] => ret tt
  | handler :: rest =>
      (if check handler ex
       then _process_error app gift_id handler notification_data
       else ret tt);;
      run_error_handlers app ex gift_id notification_data rest
  end.

Definition handle_gift_error (app : Client W) (ex : exn) (gift_id : value)
    (chat_id : recipient) (gift_price current_balance : Z) : M W unit :=
  let error_handlers := get_error_handlers in
  let notification_data :=
    [ ("balance_error", NBalanceError gift_price current_balance);
      ("sold_out", NSoldOut);
      ("peer_id_error", NPeerIdError) ] in
  run_error_handlers app ex gift_id notification_data error_handlers;;
  error (t "console.gift_send_error"
           [("gift_id", gift_id); ("chat_id", recipient_value chat_id)]);;
  error (exn_str ex);;
  send_notification app gift_id
    (NErrorMessage ("<pre>" +:+ exn_str ex +:+ "</pre>")).

(** *** app/purchase.py *)

(** [next((gift.price for gift in gifts if gift.id == gift_id), 0)] *)
Fixpoint price_in (gifts : list Gift) (gift_id : value) : Z :=
  match gifts with
  | [] => 0
  | gift :: rest =>
      if eq_int gift_id (gift_id_of gift) then gift_price_of gift
      else price_in rest gift_id
  end.

Definition _get_gift_price (app : Client W) (gift_id : value) : M W Z :=
  try_except
    (gifts <- call (get_available_gifts app);;
     ret (price_in gifts gift_id))
    is_Exception
    (fun _ => ret 0).

(** One [app.send_gift] call, recorded with the way it ended. *)
Definition app_send_gift (app : Client W) (chat_id : recipient) (gift_id : value)
  : M W unit :=
  fun s =>
    match send_gift app chat_id gift_id (world s) with
    | (r, w) =>
        (r, {| world := w; history_file := history_file s |},
         [EvSendGift chat_id gift_id
            match r with Ok _ => None | Raise e => Some e end])
    end.

Definition is_RPCError (e : exn) : bool :=
  match e with RPCError _ => true | _ => false end.

(** The loop of [_purchase_gifts] over [range(1, quantity + 1)]; the body
    answers whether the loop goes on ([false] after [break]). *)
Fixpoint purchase_units (app : Client W) (chat_id : recipient) (gift_id : value)
    (quantity : Z) (recipient_info username : string) (units : list Z)
  : M W unit :=
  match units with
  | [] => ret tt
  | current_gift :: rest =>
      go_on <-
        try_except
          (app_send_gift app chat_id gift_id;;
           success (t "console.gift_sent"
                      [("current", VInt current_gift); ("total", VInt quantity);
                       ("gift_id", gift_id); ("recipient", VStr recipient_info)]);;
           send_notification app gift_id
             (NSuccess chat_id username current_gift quantity);;
           ret true)
          is_RPCError
          (fun ex =>
             current_balance <- get_user_balance app;;
             gift_price <- _get_gift_price app gift_id;;
             handle_gift_error app ex gift_id chat_id gift_price current_balance;;
             ret false);;
      if go_on
      then purchase_units app chat_id gift_id quantity recipient_info username rest
      else ret tt
  end.

Definition _purchase_gifts (app : Client W) (chat_id : recipient)
    (gift_id : value) (quantity : Z) (recipient_info username : string)
  : M W unit :=
  purchase_units app chat_id gift_id quantity recipient_info username
    (seqZ 1 quantity).

Definition _handle_insufficient_balance (app : Client W) (gift_id : value)
    (gift_price current_balance requested_quantity : Z) : M W unit :=
  warn (t "console.insufficient_balance_for_quantity"
          [("gift_id", gift_id); ("requested", VInt requested_quantity);
           ("price", VInt gift_price); ("balance", VInt current_balance)]);;
  send_notification app gift_id
    (NBalanceError (gift_price * requested_quantity) current_balance).

Definition _notify_partial_purchase (app : Client W) (gift_id : value)
    (requested purchased gift_price remaining_balance : Z) : M W unit :=
  warn (t "console.partial_purchase"
          [("gift_id", gift_id); ("purchased", VInt purchased);
           ("requested", VInt requested);
           ("remaining_needed", VInt ((requested - purchased) * gift_price));
           ("current_balance", VInt remaining_balance)]);;
  send_notification app gift_id
    (NPartialPurchase purchased requested
       ((requested - purchased) * gift_price) remaining_balance).

(** [min(quantity, current_balance // gift_price) if gift_price > 0
     else quantity] *)
Definition max_affordable (quantity current_balance gift_price : Z) : Z :=
  if 0 <? gift_price then Z.min quantity (current_balance / gift_price)
  else quantity.

Definition buy_gift (app : Client W) (chat_id : recipient) (gift_id : value)
    (quantity : Z) : M W unit :=
  ri <- get_recipient_info app chat_id;;
  let recipient_info := ri.1 in
  let username := ri.2 in
  gift_price <- _get_gift_price app gift_id;;
  current_balance <- get_user_balance app;;
  let max_affordable := max_affordable quantity current_balance gift_price in
  if max_affordable =? 0
  then _handle_insufficient_balance app gift_id gift_price current_balance quantity
  else
    _purchase_gifts app chat_id gift_id max_affordable recipient_info username;;
    if max_affordable <? quantity
    then _notify_partial_purchase app gift_id quantity max_affordable
           gift_price current_balance
    else ret tt.

(** *** app/core/callbacks.py *)

Definition half_second : Q := 1 # 2.

(** The [for recipient_id in recipients] loop of [_distribute_gifts]. *)
Fixpoint distribute_loop (app : Client W) (gift_id : value) (quantity : Z)
    (recipients : list recipient) : M W unit :=
  match recipients with
  | [] => ret tt
  | recipient_id :: rest =>
      try_except
        (buy_gift app recipient_id gift_id quantity)
        is_Exception
        (fun ex =>
           warn (t "console.purchase_error"
                   [("gift_id", gift_id);
                    ("chat_id", recipient_value recipient_id)]);;
           send_notification app gift_id (NErrorMessage (exn_str ex)));;
      emit (EvSleep half_second);;
      distribute_loop app gift_id quantity rest
  end.

Definition _distribute_gifts (app : Client W) (gift_id : value) (quantity : Z)
    (recipients : list recipient) : M W unit :=
  info (t "console.processing_gift"
          [("gift_id", gift_id); ("quantity", VInt quantity);
           ("recipients_count", VInt (Z.of_nat (length recipients)))]);;
  distribute_loop app gift_id quantity recipients.

Definition process_new_gift (app : Client W) (gift_data : gmap string value)
  : M W unit :=
  let gift_id := dict_get gift_data "id" VNone in
  match evaluate_gift config gift_data with
  | Raise e => raise e
  | Ok (is_eligible, processing_data) =>
      if negb is_eligible
      then send_notification app gift_id (NProcessing processing_data)
      else
        let quantity :=
          match processing_data with RangeMatch q _ => q | _ => 1 end in
        let recipients :=
          match processing_data with RangeMatch _ rs => rs | _ => [] end in
        _distribute_gifts app gift_id quantity recipients
  end.

Definition new_callback := process_new_gift.

(** *** app/utils/detector.py *)

Definition ANIMATION_FRAMES : Z := 4.
Definition ANIMATION_DELAY : Q := 1 # 5.

Definition KeyError : exn := PyException "KeyError" "'id'".

(** [a == b] on values. *)
Definition value_eqb (a b : value) : bool :=
  match a, b with
  | VNone, VNone => true
  | VStr x, VStr y => String.eqb x y
  | _, _ =>
      match as_int a, as_int b with
      | Some x, Some y => x =? y
      | _, _ => false
      end
  end.

(** [d[k] = v] on a dictionary in insertion order: an existing key keeps its
    place and receives the new value, a new key goes last. *)
Fixpoint dict_insert {K V : Type} (eqb : K -> K -> bool) (k : K) (v : V)
    (d : list (K * V)) : list (K * V) :=
  match d with
  | [] => [(k, v)]
  | (k', v') :: rest =>
      if eqb k' k then (k', v) :: rest
      else (k', v') :: dict_insert eqb k v rest
  end.

(** [k in d] *)
Definition dict_contains {K V : Type} (eqb : K -> K -> bool) (k : K)
    (d : list (K * V)) : bool :=
  existsb (fun kv => eqb kv.1 k) d.

(** [{gift["id"]: gift for gift in gift_history}] *)
Fixpoint history_dict (gift_history : list (gmap string value))
    (acc : list (value * gmap string value))
  : result (list (value * gmap string value)) :=
  match gift_history with
  | [] => Ok acc
  | gift :: rest =>
      match gift !! "id" with
      | None => Raise KeyError
      | Some gift_id => history_dict rest (dict_insert value_eqb gift_id gift acc)
      end
  end.

Definition load_gift_history : M W (list (value * gmap string value)) :=
  fun s =>
    match history_file s with
    | None => (Ok [], s, [])                 (* FileNotFoundError *)
    | Some gift_history => (history_dict gift_history [], s, [])
    end.

Definition save_gift_history (gifts : list (gmap string value)) : M W unit :=
  fun s => (Ok tt, {| world := world s; history_file := Some gifts |}, []).

Definition fetch_current_gifts (app : Client W) : M W (gift_dict * list Z) :=
  gifts <- call (get_available_gifts app);;
  let current_gifts := map (fun gift => (gift_id_of gift, gift_to_json gift)) gifts in
  let gifts_dict :=
    fold_left (fun d g => dict_insert Z.eqb g.1 g.2 d) current_gifts [] in
  let gift_ids := map fst gifts_dict in
  ret (gifts_dict, gift_ids).

(** The loop of [_process_new_gifts] over the prioritised gifts; it answers
    the records as the loop leaves them. *)
Fixpoint callback_loop (app : Client W)
    (callback : Client W -> gmap string value -> M W unit)
    (prioritized_gifts : gift_dict) : M W gift_dict :=
  match prioritized_gifts with
  | [] => ret []
  | (gift_id, gift_data) :: rest =>
      let gift_data := <["id" := VInt gift_id]> gift_data in
      callback app gift_data;;
      rest' <- callback_loop app callback rest;;
      ret ((gift_id, gift_data) :: rest')
  end.

(** [_process_new_gifts]; the gift records are shared with the caller's
    [current_gifts], so the records as mutated here are handed back. *)
Definition _process_new_gifts (app : Client W) (new_gifts : gift_dict)
    (gift_ids : list Z) (callback : Client W -> gmap string value -> M W unit)
  : M W gift_dict :=
  info (t "console.new_gifts" [] +:+ " "
        +:+ str_of_Z (Z.of_nat (length new_gifts)));;
  let skip_counts := tally_skips config new_gifts in
  match prioritize_gifts config new_gifts gift_ids with
  | Raise e => raise e
  | Ok prioritized_gifts =>
      mutated <- callback_loop app callback prioritized_gifts;;
      send_summary_message app skip_counts;;
      (if negb (sold_out_count skip_counts =? 0)
          || negb (non_limited_count skip_counts =? 0)
          || negb (non_upgradable_count skip_counts =? 0)
       then info (t "console.skip_summary"
                    [("sold_out", VInt (sold_out_count skip_counts));
                     ("non_limited", VInt (non_limited_count skip_counts));
                     ("non_upgradable", VInt (non_upgradable_count skip_counts))])
       else ret tt);;
      ret mutated
  end.

(** [app.is_connected] *)
Definition connected (app : Client W) : M W bool :=
  fun s => (Ok (is_connected app (world s)), s, []).

(** The records of [current_gifts] after the shared ones were mutated. *)
Definition with_mutations (current_gifts mutated : gift_dict) : gift_dict :=
  map (fun kv =>
         match find (fun m => m.1 =? kv.1) mutated with
         | Some m => (kv.1, m.2)
         | None => kv
         end)
      current_gifts.

(** One turn of the [while True] loop of [run_detection_loop]. *)
Definition detection_cycle (app : Client W)
    (callback : Client W -> gmap string value -> M W unit)
    (animation_counter : Z) : M W Z :=
  let animation_counter := (animation_counter + 1) mod ANIMATION_FRAMES in
  log_same_line (t "console.gift_checking" [] +:+ dots animation_counter);;
  emit (EvTimeSleep ANIMATION_DELAY);;
  is_up <- connected app;;
  (if negb is_up then call (start app) else ret tt);;
  old_gifts <- load_gift_history;;
  fetched <- fetch_current_gifts app;;
  let current_gifts := fetched.1 in
  let gift_ids := fetched.2 in
  let new_gifts :=
    List.filter (fun kv => negb (dict_contains value_eqb (VInt kv.1) old_gifts))
           current_gifts in
  mutated <-
    match new_gifts with
    | [] => ret []
    | _ :: _ => _process_new_gifts app new_gifts gift_ids callback
    end;;
  save_gift_history (map snd (with_mutations current_gifts mutated));;
  emit (EvSleep (INTERVAL config));;
  ret animation_counter.

(** [run_detection_loop]: the loop has no exit of its own, so a run either
    ends in an exception or is still going after any number of turns;
    [Ok tt] after [turns] turns says that the loop is still going. *)
Fixpoint detection_turns (turns : nat) (app : Client W)
    (callback : Client W -> gmap string value -> M W unit)
    (animation_counter : Z) : M W unit :=
  match turns with
  | O => ret tt
  | S n =>
      animation_counter <- detection_cycle app callback animation_counter;;
      detection_turns n app callback animation_counter
  end.

Definition run_detection_loop (turns : nat) (app : Client W)
    (callback : Client W -> gmap string value -> M W unit) : M W unit :=
  detection_turns turns app callback 0.

Definition detector := run_detection_loop.

(** *** main.py *)

(** [async with Client(...) as client: body]: the client is started on entry
    and stopped on exit, where a [ConnectionError] of [stop] is dropped. *)
Definition with_client {A : Type} (client : Client W) (body : M W A) : M W A :=
  call (start client);;
  fun s =>
    match body s with
    | (r, s1, evs1) =>
        match try_except (call (stop client))
                (fun e => match e with
                          | PyException name _ => String.eqb name "ConnectionError"
                          | _ => false
                          end)
                (fun _ => ret tt) s1 with
        | (Ok _, s2, evs2) => (r, s2, evs1 ++ evs2)
        | (Raise e, s2, evs2) => (Raise e, s2, evs1 ++ evs2)
        end
    end.

Definition run (turns : nat) (client : Client W) : M W unit :=
  emit EvBanner;;
  with_client client
    (send_start_message client;;
     detector turns client new_callback).

Definition main (turns : nat) (client : Client W) : M W unit :=
  try_except (run turns client)
    (fun _ => true)
    (fun e =>
       match e with
       | KeyboardInterrupt => info (t "console.terminated" [])
       | _ =>
           error (t "console.unexpected_error" []);;
           emit (EvTraceback e)
       end).

End Engine.

(** ** Parsing the configuration (data/config.py) *)

(** [s.split(sep)] for a separator of one character. *)
Fixpoint split_char (sep : ascii) (s : string) : list string :=
  match s with
  | EmptyString => [""]
  | String c rest =>
      if Ascii.eqb c sep then "" :: split_char sep rest
      else match split_char sep rest with
           | piece :: pieces => String c piece :: pieces
           | [] => [String c ""]
           end
  end.

(** [s.split(sep, 1)] for a separator of one character: the parts before and
    after its first occurrence, or [None] when [s] has none and the split has
    one part only. *)
Fixpoint split_once (sep : ascii) (s : string) : option (string * string) :=
  match s with
  | EmptyString => None
  | String c rest =>
      if Ascii.eqb c sep then Some ("", rest)
      else match split_once sep rest with
           | Some (before, after) => Some (String c before, after)
           | None => None
           end
  end.

(** [s.split(sep)] for a longer separator: occurrences are found from the
    left and do not overlap; [skip] counts the characters of an occurrence
    still to pass. *)
Fixpoint split_str (sep : string) (skip : nat) (s : string) : list string :=
  match s with
  | EmptyString => [""]
  | String c rest =>
      match skip with
      | S k => split_str sep k rest
      | O =>
          if String.prefix sep s
          then "" :: split_str sep (String.length sep - 1) rest
          else match split_str sep 0 rest with
               | piece :: pieces => String c piece :: pieces
               | [] => [String c ""]
               end
      end
  end.

(** [s[1:]] *)
Definition str_tail (s : string) : string :=
  match s with
  | EmptyString => ""
  | String _ rest => rest
  end.

(** A condition of a processor table: a lambda of one argument, or one that
    takes none. *)
Inductive condition_func : Type :=
| OneArgument (f : string -> bool)
| NoArgument (b : bool).

Record processor (A : Type) : Type := {
  condition : condition_func;
  handler : string -> result (option A)
}.
Arguments condition {A} _.
Arguments handler {A} _ _.

(** Calling a lambda without parameters with one argument. *)
Definition ArityError : exn :=
  PyException "TypeError"
    "<lambda>() takes 0 positional arguments but 1 was given".

Definition IntError : exn :=
  PyException "ValueError" "invalid literal for int() with base 10".

Definition UnpackError : exn :=
  PyException "ValueError" "not enough or too many values to unpack".

Fixpoint _process_with_handlers {A : Type} (value : string)
    (processors : list (processor A)) : result (option A) :=
  match processors with
  | [] => Ok None
  | processor :: rest =>
      match condition processor with
      | NoArgument _ => Raise ArityError
      | OneArgument condition_func =>
          if condition_func value then handler processor value
          else _process_with_handlers value rest
      end
  end.

Section ConfigParsing.

(** [str.strip], [str.isdigit] and [int] of Python; what they do with text
    outside ASCII is not modelled, so they are parameters ([None] of
    [py_int] is its [ValueError]). *)
Variable py_strip : string -> string.
Variable py_isdigit : string -> bool.
Variable py_int : string -> option Z.

Definition int_handler (make : Z -> option recipient) (text : string)
  : result (option recipient) :=
  match py_int text with
  | Some n => Ok (make n)
  | None => Raise IntError
  end.

Definition _parse_single_recipient (recipient_str : string)
  : result (option recipient) :=
  let recipient_processors :=
    [ {| condition := OneArgument (fun uid => String.prefix "@" uid);
         handler := fun uid => Ok (Some (RName (str_tail uid))) |};
      {| condition := OneArgument (fun uid => py_isdigit uid);
         handler := fun uid => int_handler (fun n => Some (RId n)) uid |};
      {| condition := NoArgument true;
         handler := fun uid => Ok (Some (RName uid)) |} ] in
  _process_with_handlers recipient_str recipient_processors.

(** The loop of [_parse_recipients_list] over the pieces of the string. *)
Fixpoint parse_recipient_items (items : list string)
  : result (list (option recipient)) :=
  match items with
  | [] => Ok []
  | recipient_str :: rest =>
      let recipient_str := py_strip recipient_str in
      if String.eqb recipient_str "" then parse_recipient_items rest
      else
        match _parse_single_recipient recipient_str with
        | Raise e => Raise e
        | Ok r =>
            match parse_recipient_items rest with
            | Raise e => Raise e
            | Ok rs => Ok (r :: rs)
            end
        end
  end.

Definition _parse_recipients_list (recipients_str : string)
  : result (list recipient) :=
  match parse_recipient_items (split_char "," recipients_str) with
  | Raise e => Raise e
  | Ok recipients => Ok (omap id recipients)
  end.

(** The [try] block of [_parse_single_range]. *)
Definition parse_range_fields (range_item : string) : result range_config :=
  match split_once ":" range_item with
  | None => Raise UnpackError
  | Some (price_part, rest) =>
      match split_once ":" (py_strip rest) with
      | None => Raise UnpackError
      | Some (supply_qty_part, recipients_part) =>
          match split_str " x " 0 (py_strip supply_qty_part) with
          | [supply_part; quantity_part] =>
              match split_char "-" (py_strip price_part) with
              | [low; high] =>
                  match py_int low, py_int high with
                  | Some min_price, Some max_price =>
                      match py_int (py_strip supply_part),
                            py_int (py_strip quantity_part) with
                      | Some supply_limit, Some quantity =>
                          match _parse_recipients_list
                                  (py_strip recipients_part) with
                          | Raise e => Raise e
                          | Ok recipients =>
                              Ok {| min_price := min_price;
                                    max_price := max_price;
                                    supply_limit := supply_limit;
                                    quantity := quantity;
                                    recipients := recipients |}
                          end
                      | _, _ => Raise IntError
                      end
                  | _, _ => Raise IntError
                  end
              | _ => Raise UnpackError
              end
          | _ => Raise UnpackError
          end
      end
  end.

(** [except (ValueError, IndexError)] *)
Definition is_ValueError_or_IndexError (e : exn) : bool :=
  match e with
  | PyException name _ =>
      String.eqb name "ValueError" || String.eqb name "IndexError"
  | _ => false
  end.

(** [_parse_single_range]: the parsed range, or the empty dictionary ([None])
    after an error line; beside the result, the lines logged. *)
Definition _parse_single_range (range_item : string)
  : result (option range_config) * list event :=
  match parse_range_fields range_item with
  | Ok range_config => (Ok (Some range_config), [])
  | Raise e =>
      if is_ValueError_or_IndexError e
      then (Ok None,
            [EvLog ERROR ("Invalid gift range format: " +:+ range_item)])
      else (Raise e, [])
  end.

(** The loop of [_parse_gift_ranges] over the pieces of the setting. *)
Fixpoint parse_range_items (items : list string)
  : result (list (option range_config)) * list event :=
  match items with
  | [] => (Ok [], [])
  | range_item :: rest =>
      let range_item := py_strip range_item in
      if String.eqb range_item "" then parse_range_items rest
      else
        match _parse_single_range range_item with
        | (Raise e, logs) => (Raise e, logs)
        | (Ok r, logs) =>
            match parse_range_items rest with
            | (Raise e, logs') => (Raise e, logs ++ logs')
            | (Ok rs, logs') => (Ok (r :: rs), logs ++ logs')
            end
        end
  end.

(** [_parse_gift_ranges] on the text of the [GIFT_RANGES] setting. *)
Definition _parse_gift_ranges (ranges_str : string)
  : result (list range_config) * list event :=
  match parse_range_items (split_char "," ranges_str) with
  | (Raise e, logs) => (Raise e, logs)
  | (Ok ranges, logs) => (Ok (omap id ranges), logs)
  end.

(** [_parse_channel_id] on the text of the [CHANNEL_ID] variable ([""] when
    it is not set); a user name is an [RName], a numeric id an [RId]. *)
Definition _parse_channel_id (env_value : string) : result (option recipient) :=
  let channel_value := py_strip env_value in
  let channel_processors :=
    [ {| condition :=
           OneArgument (fun val => String.eqb val "" || String.eqb val "-100");
         handler := fun _ => Ok None |};
      {| condition := OneArgument (fun val => String.prefix "@" val);
         handler := fun _ => Ok (Some (RName channel_value)) |};
      {| condition :=
           OneArgument (fun val => String.prefix "-" val
                                   && py_isdigit (str_tail val));
         handler := fun _ => int_handler (fun n => Some (RId n)) channel_value |};
      {| condition := OneArgument (fun val => py_isdigit val);
         handler := fun _ =>
           int_handler (fun n => if n =? 0 then None else Some (RId n))
             channel_value |};
      {| condition := OneArgument (fun _ => true);
         handler := fun _ => Ok (Some (RName ("@" +:+ channel_value))) |} ] in
  _process_with_handlers channel_value channel_processors.

End ConfigParsing.

(** * Vocabulary of the properties *)

(** A range matches a price and a supply. *)
Definition range_matches (rc : range_config) (price total_amount : Z) : Prop :=
  min_price rc <= price <= max_price rc /\ total_amount <= supply_limit rc.

Definition no_skips : skip_counts :=
  {| sold_out_count := 0; non_limited_count := 0; non_upgradable_count := 0 |}.

(** A gift record after the position loop. *)
Definition with_position (gift_ids : list Z) (kv : Z * gmap string value)
  : Z * gmap string value :=
  (kv.1,
   <["position" := VInt (Z.of_nat (length gift_ids)
                         - Z.of_nat (default O (list_index kv.1 gift_ids)))]> kv.2).

Definition position_leb (x y : Z * gmap string value) : bool :=
  position_key x <=? position_key y.

(** No purchase call follows another one without a sleep in between;
    [pending] says that a purchase call was seen since the last sleep. *)
Fixpoint spaced_from (pending : bool) (evs : list event) : bool :=
  match evs with
  | [] => true
  | EvSendGift _ _ _ :: rest => negb pending && spaced_from true rest
  | EvSleep _ :: rest => spaced_from false rest
  | _ :: rest => spaced_from pending rest
  end.

Definition purchases_spaced (evs : list event) : bool := spaced_from false evs.

(** A step of the block of one recipient: no sleep, and purchase calls for
    that recipient only. *)
Definition block_step (r : recipient) (ev : event) : Prop :=
  match ev with
  | EvSleep _ => False
  | EvSendGift chat_id _ _ => chat_id = r
  | _ => True
  end.

(** The steps of the recipient loop: one block per recipient, in list order,
    each followed by the half-second sleep; an exception outside [Exception]
    may cut the last block short. *)
Inductive recipient_blocks : list recipient -> list event -> Prop :=
| blocks_done : recipient_blocks [] []
| blocks_next r rs block evs :
    Forall (block_step r) block ->
    recipient_blocks rs evs ->
    recipient_blocks (r :: rs) (block ++ EvSleep half_second :: evs)
| blocks_cut r rs block :
    Forall (block_step r) block ->
    recipient_blocks (r :: rs) block.

(** A purchase call that failed is the last purchase call of the run. *)
Fixpoint failure_is_last (evs : list event) : bool :=
  match evs with
  | [] => true
  | EvSendGift _ _ (Some _) :: rest =>
      forallb (fun ev => negb (is_send_gift ev)) rest
  | _ :: rest => failure_is_last rest
  end.

(** A step that is not a purchase call. *)
Definition no_call (ev : event) : Prop := is_send_gift ev = false.

(** The number of purchase calls among the steps. *)
Definition purchase_calls (evs : list event) : nat :=
  length (List.filter is_send_gift evs).

(** A step that is no purchase call, or a purchase call of the gift
    [gift_id] for one of the [recipients]. *)
Definition call_for (gift_id : value) (recipients : list recipient)
    (ev : event) : Prop :=
  match ev with
  | EvSendGift chat_id g _ => chat_id ∈ recipients /\ g = gift_id
  | _ => True
  end.

(** The dictionary that [fetch_current_gifts] builds from the fetched gifts:
    [{gift["id"]: gift for gift in current_gifts}]. *)
Definition catalog_dict (gifts : list Gift) : gift_dict :=
  fold_left (fun d g => dict_insert Z.eqb g.1 g.2 d)
    (map (fun gift => (gift_id_of gift, gift_to_json gift)) gifts) [].

(** [c in s] for a character. *)
Fixpoint has_char (c : ascii) (s : string) : bool :=
  match s with
  | EmptyString => false
  | String a rest => Ascii.eqb a c || has_char c rest
  end.

Section Vocabulary.

Context {W : Type}.
Variable t : string -> list (string * value) -> string.

(** The three look-ups that open [buy_gift]: the recipient, the price as the
    platform lists it now, the balance. *)
Definition purchase_lookups (app : Client W) (chat_id : recipient)
    (gift_id : value) : M W (string * string * Z * Z) :=
  (ri <- get_recipient_info app chat_id;;
   gift_price <- _get_gift_price app gift_id;;
   current_balance <- get_user_balance app;;
   ret (ri, gift_price, current_balance))%monad.

(** What [buy_gift] does once the look-ups are in. *)
Definition purchase_decision (app : Client W) (chat_id : recipient)
    (gift_id : value) (quantity : Z) (found : string * string * Z * Z)
  : M W unit :=
  let recipient_info := found.1.1.1 in
  let username := found.1.1.2 in
  let gift_price := found.1.2 in
  let current_balance := found.2 in
  let affordable := max_affordable quantity current_balance gift_price in
  (if affordable =? 0
   then _handle_insufficient_balance t app gift_id gift_price current_balance
          quantity
   else
     _purchase_gifts t app chat_id gift_id affordable recipient_info username;;
     if affordable <? quantity
     then _notify_partial_purchase t app gift_id quantity affordable
            gift_price current_balance
     else ret tt)%monad.

(** The steps of one recipient's units when every purchase call succeeds. *)
Definition success_steps (chat_id : recipient) (gift_id : value) (quantity : Z)
    (recipient_info username : string) (units : list Z) : list event :=
  flat_map
    (fun current_gift =>
       [ EvSendGift chat_id gift_id None;
         EvLog SUCCESS
           (t "console.gift_sent"
              [("current", VInt current_gift); ("total", VInt quantity);
               ("gift_id", gift_id); ("recipient", VStr recipient_info)]);
         EvNotify gift_id (NSuccess chat_id username current_gift quantity) ])
    units.

Definition insufficient_balance_steps (gift_id : value)
    (gift_price current_balance requested_quantity : Z) : list event :=
  [ EvLog WARNING
      (t "console.insufficient_balance_for_quantity"
         [("gift_id", gift_id); ("requested", VInt requested_quantity);
          ("price", VInt gift_price); ("balance", VInt current_balance)]);
    EvNotify gift_id
      (NBalanceError (gift_price * requested_quantity) current_balance) ].

Definition partial_purchase_steps (gift_id : value)
    (requested purchased gift_price remaining_balance : Z) : list event :=
  [ EvLog WARNING
      (t "console.partial_purchase"
         [("gift_id", gift_id); ("purchased", VInt purchased);
          ("requested", VInt requested);
          ("remaining_needed", VInt ((requested - purchased) * gift_price));
          ("current_balance", VInt remaining_balance)]);
    EvNotify gift_id
      (NPartialPurchase purchased requested
         ((requested - purchased) * gift_price) remaining_balance) ].

(** The number of categories of the handler table that an error matches. *)
Definition classified_count (ex : exn) : nat :=
  length (List.filter (fun handler => check handler ex) (get_error_handlers t)).

(** The notifications that [handle_gift_error] sends for an error. *)
Definition error_notifications (gift_id : value) (ex : exn)
    (gift_price current_balance : Z) : list event :=
  (if contains "BALANCE_TOO_LOW" (exn_str ex)
   then [EvNotify gift_id (NBalanceError gift_price current_balance)] else [])
  ++ (if contains "STARGIFT_USAGE_LIMITED" (exn_str ex)
      then [EvNotify gift_id NSoldOut] else [])
  ++ (if contains "PEER_ID_INVALID" (exn_str ex)
      then [EvNotify gift_id NPeerIdError] else [])
  ++ [EvNotify gift_id (NErrorMessage ("<pre>" +:+ exn_str ex +:+ "</pre>"))].

(** The notifications that the unit loop owes to one purchase call: one for
    a success, the generic one and one per matching category for an
    [RPCError]; any other exception leaves the loop. *)
Definition notifications_for (failure : option exn) : nat :=
  match failure with
  | None => 1
  | Some (RPCError msg) => 1 + classified_count (RPCError msg)
  | Some _ => 0
  end.

Fixpoint expected_notifications (evs : list event) : nat :=
  match evs with
  | [] => 0
  | EvSendGift _ _ failure :: rest =>
      notifications_for failure + expected_notifications rest
  | _ :: rest => expected_notifications rest
  end.

(** The balance and price look-ups of the error path end in a value or in an
    [Exception], which the look-ups absorb. *)
Definition lookups_uninterrupted (app : Client W) : Prop :=
  (forall w e w', get_stars_balance app w = (Raise e, w') -> is_Exception e = true)
  /\ (forall w e w', get_available_gifts app w = (Raise e, w') -> is_Exception e = true).

Definition emits_only {A : Type} (P : event -> Prop) (m : M W A) : Prop :=
  forall s, Forall P (steps (m s)).

(** One turn of the recipient loop up to its sleep. *)
Definition recipient_turn (app : Client W) (gift_id : value) (quantity : Z)
    (recipient_id : recipient) : M W unit :=
  try_except (buy_gift t app recipient_id gift_id quantity) is_Exception
    (fun ex =>
       warn (t "console.purchase_error"
               [("gift_id", gift_id);
                ("chat_id", recipient_value recipient_id)]);;
       send_notification app gift_id (NErrorMessage (exn_str ex)))%monad.

(** The state of the platform when a cycle that starts in [s] reaches the
    catalog fetch: the client is started first when it is not connected. *)
Definition world_at_fetch (app : Client W) (s : store W) : W :=
  if is_connected app (world s) then world s else (start app (world s)).2.

(** The history file can be read: it is missing or every record has an id. *)
Definition history_readable (s : store W) : Prop :=
  match history_file s with
  | None => True
  | Some gift_history => exists old, history_dict gift_history [] = Ok old
  end.

(** The steps of a cycle before the fetch. *)
Definition checking_steps (animation_counter : Z) : list event :=
  [ EvLogSameLine
      (t "console.gift_checking" []
       +:+ dots ((animation_counter + 1) mod ANIMATION_FRAMES));
    EvTimeSleep ANIMATION_DELAY ].

(** The body of the unit loop of [_purchase_gifts] for one unit; it answers
    whether the loop goes on. *)
Definition unit_attempt (app : Client W) (chat_id : recipient) (gift_id : value)
    (quantity : Z) (recipient_info username : string) (current_gift : Z)
  : M W bool :=
  try_except
    (app_send_gift app chat_id gift_id;;
     success (t "console.gift_sent"
                [("current", VInt current_gift); ("total", VInt quantity);
                 ("gift_id", gift_id); ("recipient", VStr recipient_info)]);;
     send_notification app gift_id
       (NSuccess chat_id username current_gift quantity);;
     ret true)%monad
    is_RPCError
    (fun ex =>
       current_balance <- get_user_balance app;;
       gift_price <- _get_gift_price app gift_id;;
       handle_gift_error t app ex gift_id chat_id gift_price current_balance;;
       ret false)%monad.

(** What [load_gift_history] answers in a store. *)
Definition loaded_history (s : store W)
  : result (list (value * gmap string value)) :=
  match history_file s with
  | None => Ok []
  | Some gift_history => history_dict gift_history []
  end.

(** The gifts of the fetched dictionary whose id the history does not know. *)
Definition new_gifts_of (old_gifts : list (value * gmap string value))
    (current_gifts : gift_dict) : gift_dict :=
  List.filter (fun kv => negb (dict_contains value_eqb (VInt kv.1) old_gifts))
    current_gifts.

End Vocabulary.

(** * Concrete inputs *)

(** Two ranges whose bands overlap at price 30 and supply 40. *)
Definition overlapping_config : Config :=
  {| GIFT_RANGES :=
       [ {| min_price := 10; max_price := 50; supply_limit := 100;
            quantity := 2; recipients := [RName "A"] |};
         {| min_price := 30; max_price := 100; supply_limit := 50;
            quantity := 1; recipients := [RName "B"] |} ];
     PURCHASE_ONLY_UPGRADABLE_GIFTS := false;
     PRIORITIZE_LOW_SUPPLY := false;
     INTERVAL := 15 |}.

(** A sold-out gift inside the first band, and a gift that is not limited. *)
Definition sold_out_gift : gmap string value :=
  {[ "price" := VInt 30; "is_limited" := VBool true;
     "is_sold_out" := VBool true; "total_amount" := VInt 40 ]}.

Definition unlimited_gift : gmap string value :=
  {[ "price" := VInt 30; "is_limited" := VBool false;
     "is_sold_out" := VBool false ]}.

(** A sold-out gift that carries no [is_limited] attribute at all. *)
Definition sold_out_plain_gift : gmap string value :=
  {[ "price" := VInt 30; "is_sold_out" := VBool true ]}.

Definition plain_config : Config :=
  {| GIFT_RANGES := [];
     PURCHASE_ONLY_UPGRADABLE_GIFTS := false;
     PRIORITIZE_LOW_SUPPLY := false;
     INTERVAL := 15 |}.

Definition limited_gift (price total_amount : Z) : gmap string value :=
  {[ "price" := VInt price; "is_limited" := VBool true;
     "total_amount" := VInt total_amount ]}.

(** Three gifts discovered together, in the order 1, 2, 3. *)
Definition three_gifts : gift_dict :=
  [ (1, limited_gift 10 100); (2, limited_gift 20 50); (3, limited_gift 30 10) ].

(** Only upgradable gifts are bought; one range up to supply 10. *)
Definition upgradable_only_config : Config :=
  {| GIFT_RANGES :=
       [ {| min_price := 0; max_price := 100; supply_limit := 10;
            quantity := 1; recipients := [RName "A"] |} ];
     PURCHASE_ONLY_UPGRADABLE_GIFTS := true;
     PRIORITIZE_LOW_SUPPLY := true;
     INTERVAL := 15 |}.

(** A limited gift on sale whose record has no [total_amount]. *)
Definition no_supply_gift : gmap string value :=
  {[ "price" := VInt 30; "is_limited" := VBool true;
     "is_sold_out" := VBool false ]}.

Definition no_supply_upgradable_gift : gmap string value :=
  <["upgrade_price" := VInt 5]> no_supply_gift.

(** A locale that prints the key of a message. *)
Definition echo (key : string) (kwargs : list (string * value)) : string := key.

Definition listed_gift : Gift :=
  {| gift_id_of := 7; gift_price_of := 10;
     gift_attrs := {[ "is_limited" := VBool true; "total_amount" := VInt 40 ]} |}.

(** A platform whose state is the star balance: gift 7 is listed at 10 stars
    and every purchase succeeds and takes 10 stars. *)
Definition shop : Client Z :=
  {| get_available_gifts := fun w => (Ok [listed_gift], w);
     get_stars_balance := fun w => (Ok w, w);
     get_chat := fun _ w => (Ok {| chat_username := Some "alice" |}, w);
     send_gift := fun _ _ w => (Ok tt, w - 10);
     is_connected := fun _ => true;
     start := fun w => (Ok tt, w);
     stop := fun w => (Ok tt, w) |}.

Definition store_with {W : Type} (w : W) : store W :=
  {| world := w; history_file := None |}.

(** A platform on which every purchase is refused for lack of stars. *)
Definition broke_shop : Client Z :=
  {| get_available_gifts := fun w => (Ok [listed_gift], w);
     get_stars_balance := fun w => (Ok w, w);
     get_chat := fun _ w => (Ok {| chat_username := Some "alice" |}, w);
     send_gift := fun _ _ w => (Raise (RPCError "[400 BALANCE_TOO_LOW]"), w);
     is_connected := fun _ => true;
     start := fun w => (Ok tt, w);
     stop := fun w => (Ok tt, w) |}.

(** A platform whose state counts the catalog fetches: the first fetch times
    out, every later one would answer. *)
Definition flaky_shop : Client nat :=
  {| get_available_gifts := fun n =>
       match n with
       | O => (Raise (PyException "TimeoutError" "timed out"), S n)
       | S _ => (Ok [listed_gift], S n)
       end;
     get_stars_balance := fun n => (Ok 25, n);
     get_chat := fun _ n => (Ok {| chat_username := Some "alice" |}, n);
     send_gift := fun _ _ n => (Ok tt, n);
     is_connected := fun _ => true;
     start := fun n => (Ok tt, n);
     stop := fun n => (Ok tt, n) |}.

(** Low-supply prioritisation enabled. *)
Definition low_supply_config : Config :=
  {| GIFT_RANGES := [];
     PURCHASE_ONLY_UPGRADABLE_GIFTS := false;
     PRIORITIZE_LOW_SUPPLY := true;
     INTERVAL := 15 |}.

(** Strings of ASCII digits, with or without a minus sign, as [int] reads
    them. *)
Fixpoint digits_value (acc : Z) (s : string) : option Z :=
  match s with
  | EmptyString => Some acc
  | String c rest =>
      if is_digit_char c
      then digits_value (10 * acc + Z.of_nat (nat_of_ascii c - 48)) rest
      else None
  end.

Definition ascii_int (s : string) : option Z :=
  if String.prefix "-" s && isdigit (str_tail s)
  then Z.opp <$> digits_value 0 (str_tail s)
  else if isdigit s then digits_value 0 s else None.

(** * Proof automation *)

(** Case analysis on two or three [(supply, position)] keys. *)
Ltac order_cases :=
  unfold low_supply_leb;
  repeat match goal with
         | |- context [default Infinite ?k] => destruct (default Infinite k)
         end;
  simpl;
  repeat match goal with
         | |- context [Z.eqb ?a ?b] => destruct (Z.eqb_spec a b)
         | |- context [Z.leb ?a ?b] => destruct (Z.leb_spec a b)
         end;
  intros; try reflexivity; try discriminate; try lia.

(** * Properties *)

(** ** The range matcher *)

Lemma range_condition_int rc price total_amount :
  range_condition rc (VInt price) (VInt total_amount)
  = Ok ((min_price rc <=? price) && (price <=? max_price rc)
        && (total_amount <=? supply_limit rc)).
Proof.
  unfold range_condition, int_le_value, value_le_int; simpl.
  destruct (min_price rc <=? price), (price <=? max_price rc); reflexivity.
Qed.

Lemma range_condition_true rc price total_amount :
  range_matches rc price total_amount ->
  range_condition rc (VInt price) (VInt total_amount) = Ok true.
Proof.
  intros [[H1 H2] H3]. rewrite range_condition_int.
  apply Z.leb_le in H1, H2, H3. rewrite H1, H2, H3. reflexivity.
Qed.

Lemma range_condition_false rc price total_amount :
  ~ range_matches rc price total_amount ->
  range_condition rc (VInt price) (VInt total_amount) = Ok false.
Proof.
  intros Hn. rewrite range_condition_int. f_equal.
  apply not_true_is_false. intros H.
  apply andb_prop in H as [H H3]. apply andb_prop in H as [H1 H2].
  apply Hn. unfold range_matches. rewrite !Z.leb_le in *. lia.
Qed.

(** Over integers the comprehension never raises. *)
Lemma matching_ranges_int ranges price total_amount :
  exists ms, matching_ranges ranges (VInt price) (VInt total_amount) = Ok ms.
Proof.
  induction ranges as [|rc rest [ms IH]]; simpl.
  - eauto.
  - rewrite range_condition_int, IH. eauto.
Qed.

Lemma matching_ranges_none ranges price total_amount :
  Forall (fun rc => ~ range_matches rc price total_amount) ranges ->
  matching_ranges ranges (VInt price) (VInt total_amount) = Ok [].
Proof.
  induction 1 as [|rc rest Hrc _ IH]; simpl.
  - reflexivity.
  - rewrite (range_condition_false _ _ _ Hrc), IH. reflexivity.
Qed.

Lemma matching_ranges_first pre rc post price total_amount :
  Forall (fun r => ~ range_matches r price total_amount) pre ->
  range_matches rc price total_amount ->
  exists ms,
    matching_ranges (pre ++ rc :: post) (VInt price) (VInt total_amount)
    = Ok ((quantity rc, recipients rc) :: ms).
Proof.
  intros Hpre Hrc. induction Hpre as [|r pre Hr _ IH]; simpl.
  - rewrite (range_condition_true _ _ _ Hrc).
    destruct (matching_ranges_int post price total_amount) as [ms ->]. eauto.
  - rewrite (range_condition_false _ _ _ Hr).
    destruct IH as [ms ->]. eauto.
Qed.

(** C2. For every integer price and supply and every ordered list of
    configured ranges, [get_matching_range] answers [(True, quantity,
    recipients)] of the first range, in configured order, whose price band
    holds the price and whose supply limit is not below the supply, whatever
    ranges follow it (also further matching ones); and it answers
    [(False, 0, [])] when no configured range matches. *)
Theorem get_matching_range_first_match (config : Config) (price total_amount : Z) :
  (forall pre rc post,
      GIFT_RANGES config = pre ++ rc :: post ->
      Forall (fun r => ~ range_matches r price total_amount) pre ->
      range_matches rc price total_amount ->
      get_matching_range config (VInt price) (VInt total_amount)
      = Ok (true, quantity rc, recipients rc))
  /\ (Forall (fun r => ~ range_matches r price total_amount) (GIFT_RANGES config) ->
      get_matching_range config (VInt price) (VInt total_amount)
      = Ok (false, 0, [])).
Proof.
  split.
  - intros pre rc post Heq Hpre Hrc. unfold get_matching_range. rewrite Heq.
    destruct (matching_ranges_first pre rc post _ _ Hpre Hrc) as [ms ->].
    reflexivity.
  - intros Hnone. unfold get_matching_range.
    rewrite (matching_ranges_none _ _ _ Hnone). reflexivity.
Qed.

Lemma get_matching_range_first_match_witness :
  get_matching_range overlapping_config (VInt 30) (VInt 40)
  = Ok (true, 2, [RName "A"])
  /\ get_matching_range overlapping_config (VInt 5) (VInt 40)
     = Ok (false, 0, []).
Proof.
  split.
  - refine (proj1 (get_matching_range_first_match overlapping_config 30 40)
              [] _ _ eq_refl _ _).
    + constructor.
    + unfold range_matches; simpl; lia.
  - apply (proj2 (get_matching_range_first_match overlapping_config 5 40)).
    repeat constructor; unfold range_matches; simpl; lia.
Defined.

(** ** The eligibility evaluator *)

Lemma evaluate_gift_sold_out config (gift_data : gmap string value) :
  truthy (dict_get gift_data "is_sold_out" (VBool false)) = true ->
  evaluate_gift config gift_data = Ok (false, ExclusionReason "sold_out").
Proof. unfold evaluate_gift, exclusion_rules. intros ->. reflexivity. Qed.

Lemma evaluate_gift_non_limited config (gift_data : gmap string value) :
  truthy (dict_get gift_data "is_sold_out" (VBool false)) = false ->
  truthy (dict_get gift_data "is_limited" (VBool false)) = false ->
  evaluate_gift config gift_data
  = Ok (false, ExclusionReason "non_limited_blocked").
Proof. unfold evaluate_gift, exclusion_rules. intros -> ->. reflexivity. Qed.

(** C1. Whatever the configuration (ranges, upgradable-only flag) and whatever
    the other attributes of the gift: a gift whose [is_sold_out] is true is
    excluded with reason [sold_out]; a gift whose [is_sold_out] and
    [is_limited] are both false is excluded with reason
    [non_limited_blocked]. No range is consulted in either case. *)
Theorem evaluate_gift_exclusion_order (config : Config)
    (gift_data : gmap string value) :
  (truthy (dict_get gift_data "is_sold_out" (VBool false)) = true ->
   evaluate_gift config gift_data = Ok (false, ExclusionReason "sold_out"))
  /\ (truthy (dict_get gift_data "is_sold_out" (VBool false)) = false ->
      truthy (dict_get gift_data "is_limited" (VBool false)) = false ->
      evaluate_gift config gift_data
      = Ok (false, ExclusionReason "non_limited_blocked")).
Proof.
  split.
  - apply evaluate_gift_sold_out.
  - apply evaluate_gift_non_limited.
Qed.

Lemma evaluate_gift_exclusion_order_witness :
  evaluate_gift overlapping_config sold_out_gift
  = Ok (false, ExclusionReason "sold_out")
  /\ evaluate_gift overlapping_config unlimited_gift
     = Ok (false, ExclusionReason "non_limited_blocked").
Proof.
  split.
  - apply (proj1 (evaluate_gift_exclusion_order overlapping_config sold_out_gift)).
    vm_compute. reflexivity.
  - apply (proj2 (evaluate_gift_exclusion_order overlapping_config unlimited_gift));
      vm_compute; reflexivity.
Defined.

(** ** The skip counters *)

Lemma tally_from config new_gifts acc :
  fold_left (fun a g => add_skips a (categorize_skipped_gifts config g.2))
            new_gifts acc
  = add_skips acc (tally_skips config new_gifts).
Proof.
  unfold tally_skips. fold no_skips.
  revert acc. induction new_gifts as [|g rest IH]; intros acc; simpl.
  - destruct acc; unfold add_skips; simpl. f_equal; lia.
  - rewrite IH, (IH (add_skips no_skips _)).
    unfold add_skips; simpl. f_equal; lia.
Qed.

Lemma tally_skips_app config l1 l2 :
  tally_skips config (l1 ++ l2)
  = add_skips (tally_skips config l1) (tally_skips config l2).
Proof.
  unfold tally_skips at 1. rewrite fold_left_app.
  rewrite tally_from. reflexivity.
Qed.

Lemma tally_skips_cons config g rest :
  tally_skips config (g :: rest)
  = add_skips (categorize_skipped_gifts config g.2) (tally_skips config rest).
Proof.
  unfold tally_skips at 1. simpl. rewrite tally_from.
  unfold add_skips; simpl. reflexivity.
Qed.

(** C9. The skip counters are not exclusive. A gift whose [is_sold_out] is
    true and whose [is_limited] is false or absent is counted once as sold
    out and once as not limited by [categorize_skipped_gifts], so in the
    tally of a batch it raises both counters by one, while [evaluate_gift]
    gives the single reason [sold_out] for it. *)
Theorem skip_counters_overlap (config : Config) (gift_id : Z)
    (gift_data : gmap string value) (before after : gift_dict) :
  gift_data !! "is_sold_out" = Some (VBool true) ->
  gift_data !! "is_limited" = Some (VBool false)
  \/ gift_data !! "is_limited" = None ->
  sold_out_count (categorize_skipped_gifts config gift_data) = 1
  /\ non_limited_count (categorize_skipped_gifts config gift_data) = 1
  /\ sold_out_count (tally_skips config (before ++ (gift_id, gift_data) :: after))
     = sold_out_count (tally_skips config (before ++ after)) + 1
  /\ non_limited_count (tally_skips config (before ++ (gift_id, gift_data) :: after))
     = non_limited_count (tally_skips config (before ++ after)) + 1
  /\ evaluate_gift config gift_data = Ok (false, ExclusionReason "sold_out").
Proof.
  intros Hsold Hlim.
  assert (Hs : truthy (dict_get gift_data "is_sold_out" (VBool false)) = true)
    by (unfold dict_get; rewrite Hsold; reflexivity).
  assert (Hl : truthy (dict_get gift_data "is_limited" VNone) = false)
    by (unfold dict_get; destruct Hlim as [-> | ->]; reflexivity).
  assert (H1 : sold_out_count (categorize_skipped_gifts config gift_data) = 1)
    by (simpl; rewrite Hs; reflexivity).
  assert (H2 : non_limited_count (categorize_skipped_gifts config gift_data) = 1)
    by (simpl; rewrite Hl; reflexivity).
  repeat split; try assumption.
  - rewrite !tally_skips_app, tally_skips_cons. simpl in *. rewrite Hs. lia.
  - rewrite !tally_skips_app, tally_skips_cons. simpl in *. rewrite Hl. lia.
  - apply evaluate_gift_sold_out, Hs.
Qed.

Lemma skip_counters_overlap_witness :
  sold_out_count (categorize_skipped_gifts overlapping_config sold_out_plain_gift) = 1
  /\ non_limited_count (categorize_skipped_gifts overlapping_config sold_out_plain_gift) = 1
  /\ sold_out_count (tally_skips overlapping_config ([] ++ [(7, sold_out_plain_gift)]))
     = sold_out_count (tally_skips overlapping_config ([] ++ [])) + 1
  /\ non_limited_count (tally_skips overlapping_config ([] ++ [(7, sold_out_plain_gift)]))
     = non_limited_count (tally_skips overlapping_config ([] ++ [])) + 1
  /\ evaluate_gift overlapping_config sold_out_plain_gift
     = Ok (false, ExclusionReason "sold_out").
Proof.
  apply (skip_counters_overlap overlapping_config 7 sold_out_plain_gift [] []).
  - vm_compute. reflexivity.
  - right. vm_compute. reflexivity.
Defined.

(** ** Sorting *)

Section Sorted.

Context {A : Type} (le : A -> A -> bool).

Lemma insert_sorted_perm x l : insert_sorted le x l ≡ₚ x :: l.
Proof.
  induction l as [|y l IH]; simpl.
  - reflexivity.
  - destruct (le x y).
    + reflexivity.
    + rewrite IH. apply perm_swap.
Qed.

Lemma sorted_perm l : sorted le l ≡ₚ l.
Proof.
  induction l as [|x l IH]; simpl.
  - reflexivity.
  - rewrite insert_sorted_perm, IH. reflexivity.
Qed.

(** An element that is above everything else goes last. *)
Lemma insert_sorted_last x l :
  Forall (fun y => le x y = false) l -> insert_sorted le x l = l ++ [x].
Proof.
  induction 1 as [|y l Hy _ IH]; simpl.
  - reflexivity.
  - rewrite Hy, IH. reflexivity.
Qed.

(** Sorting a list that descends strictly reverses it. *)
Lemma sorted_descending l :
  StronglySorted (fun x y => le x y = false) l -> sorted le l = rev l.
Proof.
  induction 1 as [|x l _ IH Hx]; simpl.
  - reflexivity.
  - rewrite IH. apply insert_sorted_last, Forall_rev, Hx.
Qed.

Hypothesis le_total : forall x y, le x y = false -> le y x = true.
Hypothesis le_trans : forall x y z, le x y = true -> le y z = true -> le x z = true.

Lemma insert_sorted_StronglySorted x l :
  StronglySorted (fun a b => le a b = true) l ->
  StronglySorted (fun a b => le a b = true) (insert_sorted le x l).
Proof.
  induction 1 as [|y l Hl IH Hy]; simpl.
  - repeat constructor.
  - destruct (le x y) eqn:Hxy.
    + constructor; [constructor; assumption|].
      constructor; [assumption|].
      eapply Forall_impl; [exact Hy|]. intros z Hz; simpl in *. eauto.
    + constructor; [assumption|].
      rewrite insert_sorted_perm.
      constructor; [auto | assumption].
Qed.

Lemma sorted_StronglySorted l :
  StronglySorted (fun a b => le a b = true) (sorted le l).
Proof.
  induction l as [|x l IH]; simpl.
  - constructor.
  - apply insert_sorted_StronglySorted, IH.
Qed.

End Sorted.

Lemma StronglySorted_lookup_lt {A : Type} (R : A -> A -> Prop) (l : list A)
    (i j : nat) (x y : A) :
  StronglySorted R l -> l !! i = Some x -> l !! j = Some y -> (i < j)%nat ->
  R x y.
Proof.
  intros Hl. revert i j x y.
  induction Hl as [|a l _ IH Ha]; intros i j x y Hi Hj Hlt.
  - discriminate.
  - destruct j as [|j]; [lia|]. destruct i as [|i]; simpl in *.
    + injection Hi as <-. rewrite Forall_forall in Ha.
      apply Ha. eapply list_elem_of_lookup_2, Hj.
    + apply (IH i j); auto with lia.
Qed.

(** ** The prioritiser *)

Lemma list_index_elem_of (x : Z) (ids : list Z) :
  x ∈ ids -> exists i, list_index x ids = Some i /\ (i < length ids)%nat.
Proof.
  induction ids as [|y ids IH]; intros Hx.
  - inversion Hx.
  - simpl. destruct (Z.eqb_spec y x) as [->|Hne].
    + exists O. split; [reflexivity | lia].
    + apply elem_of_cons in Hx as [->|Hx]; [congruence|].
      destruct (IH Hx) as (i & -> & Hi). exists (S i). split; [reflexivity | lia].
Qed.

Lemma position_key_with_position ids kv :
  position_key (with_position ids kv)
  = Z.of_nat (length ids) - Z.of_nat (default O (list_index kv.1 ids)).
Proof.
  unfold position_key, with_position; simpl.
  rewrite lookup_insert_eq. reflexivity.
Qed.

(** A position is the distance from the end of the list, so it does not
    change when the list grows at the front. *)
Lemma with_position_cons x ids kv :
  x ∉ ids -> kv.1 ∈ ids ->
  with_position (x :: ids) kv = with_position ids kv.
Proof.
  intros Hx Hkv. unfold with_position. simpl.
  destruct (Z.eqb_spec x kv.1) as [->|_]; [contradiction|].
  destruct (list_index_elem_of _ _ Hkv) as (i & -> & _). simpl.
  do 3 f_equal. lia.
Qed.

Lemma position_key_bounds ids kv :
  kv.1 ∈ ids ->
  1 <= position_key (with_position ids kv) <= Z.of_nat (length ids).
Proof.
  intros Hkv. rewrite position_key_with_position.
  destruct (list_index_elem_of _ _ Hkv) as (i & -> & Hi). simpl. lia.
Qed.

Lemma assign_positions_ok (gifts : gift_dict) (gift_ids : list Z) :
  Forall (fun kv => kv.1 ∈ gift_ids) gifts ->
  assign_positions gifts gift_ids = Ok (map (with_position gift_ids) gifts).
Proof.
  induction 1 as [|[gift_id gift_data] rest Hin _ IH]; simpl.
  - reflexivity.
  - destruct (list_index_elem_of _ _ Hin) as (i & Hi & _). simpl in Hi.
    rewrite Hi, IH. unfold with_position at 2; simpl. rewrite Hi. reflexivity.
Qed.

(** A batch that follows the discovery order leaves the position sort
    reversed. *)
Lemma position_sort_reverses (keys gift_ids : list Z) :
  keys `sublist_of` gift_ids -> NoDup gift_ids ->
  forall gifts : gift_dict, map fst gifts = keys ->
    Forall (fun kv => kv.1 ∈ gift_ids) gifts
    /\ sorted position_leb (map (with_position gift_ids) gifts)
       = rev (map (with_position gift_ids) gifts).
Proof.
  induction 1 as [|x keys ids Hsub IH|x keys ids Hsub IH]; intros Hnd gifts Hk.
  - destruct gifts; [|discriminate]. split; [constructor | reflexivity].
  - destruct gifts as [|kv gifts]; [discriminate|].
    simpl in Hk. injection Hk as Hx Hk.
    apply NoDup_cons in Hnd as [Hx_notin Hnd].
    destruct (IH Hnd gifts Hk) as [Hall Hsorted].
    assert (Hsame : map (with_position (x :: ids)) gifts
                    = map (with_position ids) gifts).
    { apply map_ext_Forall. eapply Forall_impl; [exact Hall|].
      intros g Hg. apply with_position_cons; assumption. }
    split.
    + constructor; [simpl; rewrite Hx; left|].
      eapply Forall_impl; [exact Hall|]. intros g Hg. right. exact Hg.
    + simpl. rewrite Hsame, Hsorted. apply insert_sorted_last, Forall_rev.
      apply Forall_map. eapply Forall_impl; [exact Hall|]. intros g Hg.
      unfold position_leb. apply Z.leb_gt.
      pose proof (position_key_bounds ids g Hg) as Hb.
      rewrite (position_key_with_position (x :: ids) kv). rewrite Hx. simpl.
      rewrite Z.eqb_refl. simpl. lia.
  - apply NoDup_cons in Hnd as [Hx_notin Hnd].
    destruct (IH Hnd gifts Hk) as [Hall Hsorted].
    assert (Hsame : map (with_position (x :: ids)) gifts
                    = map (with_position ids) gifts).
    { apply map_ext_Forall. eapply Forall_impl; [exact Hall|].
      intros g Hg. apply with_position_cons; assumption. }
    split.
    + eapply Forall_impl; [exact Hall|]. intros g Hg. right. exact Hg.
    + rewrite Hsame. exact Hsorted.
Qed.

(** The batches that the detection loop hands to [prioritize_gifts] meet the
    two conditions above: the ids of the fetched dictionary are distinct, and
    the new gifts are picked from it in order. *)
Lemma dict_insert_keys {V : Type} (k : Z) (v : V) (d : list (Z * V)) (x : Z) :
  x ∈ map fst (dict_insert Z.eqb k v d) -> x = k \/ x ∈ map fst d.
Proof.
  induction d as [|[k' v'] d IH]; simpl.
  - intros Hx. apply list_elem_of_singleton in Hx. left. exact Hx.
  - destruct (Z.eqb_spec k' k) as [->|Hne]; simpl.
    + intros Hx. right. exact Hx.
    + intros Hx. apply elem_of_cons in Hx as [->|Hx].
      * right. left.
      * destruct (IH Hx) as [->|Hin]; [left; reflexivity | right; right; exact Hin].
Qed.

Lemma dict_insert_NoDup {V : Type} (k : Z) (v : V) (d : list (Z * V)) :
  NoDup (map fst d) -> NoDup (map fst (dict_insert Z.eqb k v d)).
Proof.
  induction d as [|[k' v'] d IH]; simpl; intros Hnd.
  - apply NoDup_singleton.
  - destruct (Z.eqb_spec k' k) as [->|Hne]; simpl.
    + exact Hnd.
    + apply NoDup_cons in Hnd as [Hk' Hnd]. apply NoDup_cons. split.
      * intros Hin. destruct (dict_insert_keys _ _ _ _ Hin) as [->|Hin'];
          [congruence | contradiction].
      * apply IH, Hnd.
Qed.

Lemma fetched_ids_NoDup (current_gifts acc : gift_dict) :
  NoDup (map fst acc) ->
  NoDup (map fst (fold_left (fun d g => dict_insert Z.eqb g.1 g.2 d)
                            current_gifts acc)).
Proof.
  revert acc. induction current_gifts as [|g rest IH]; intros acc Hacc; simpl.
  - exact Hacc.
  - apply IH, dict_insert_NoDup, Hacc.
Qed.

Lemma new_gifts_in_order (keep : Z * gmap string value -> bool)
    (current_gifts : gift_dict) :
  map fst (List.filter keep current_gifts) `sublist_of` map fst current_gifts.
Proof.
  induction current_gifts as [|g rest IH]; simpl.
  - constructor.
  - destruct (keep g); simpl; [apply sublist_skip | apply sublist_cons]; exact IH.
Qed.

(** C3 (as the code has it). With low-supply prioritisation disabled, for a
    batch of newly discovered gifts that follows a duplicate-free discovery
    order, [prioritize_gifts] gives every gift the position
    [len(gift_ids) - gift_ids.index(gift_id)] and answers the batch in the
    reverse of the discovery order: the gift discovered last comes first. *)
Theorem prioritize_gifts_reverses_discovery_order (config : Config)
    (gifts : gift_dict) (gift_ids : list Z) :
  PRIORITIZE_LOW_SUPPLY config = false ->
  NoDup gift_ids ->
  map fst gifts `sublist_of` gift_ids ->
  exists out,
    prioritize_gifts config gifts gift_ids = Ok out
    /\ out = rev (map (with_position gift_ids) gifts)
    /\ map fst out = rev (map fst gifts).
Proof.
  intros Hflag Hnd Hsub.
  destruct (position_sort_reverses _ _ Hsub Hnd gifts eq_refl) as [Hall Hsorted].
  exists (rev (map (with_position gift_ids) gifts)). split; [|split].
  - unfold prioritize_gifts. rewrite (assign_positions_ok _ _ Hall), Hflag.
    simpl. f_equal. exact Hsorted.
  - reflexivity.
  - rewrite map_rev, map_map. reflexivity.
Qed.

Lemma prioritize_gifts_reverses_discovery_order_witness :
  exists out,
    prioritize_gifts plain_config three_gifts [1; 2; 3] = Ok out
    /\ out = rev (map (with_position [1; 2; 3]) three_gifts)
    /\ map fst out = rev (map fst three_gifts).
Proof.
  apply (prioritize_gifts_reverses_discovery_order plain_config three_gifts [1; 2; 3]).
  - reflexivity.
  - apply (bool_decide_unpack _). vm_compute. exact I.
  - simpl. repeat apply sublist_skip. apply sublist_nil.
Defined.

(** Against C3 as the specification words it (the output keeps the discovery
    order): on the batch of three gifts the output is 3, 2, 1. *)
Lemma prioritize_gifts_discovery_order_counterexample :
  ~ (forall (config : Config) (gifts : gift_dict) (gift_ids : list Z),
        PRIORITIZE_LOW_SUPPLY config = false ->
        NoDup gift_ids ->
        map fst gifts `sublist_of` gift_ids ->
        exists out,
          prioritize_gifts config gifts gift_ids = Ok out
          /\ map fst out = map fst gifts).
Proof.
  intros H.
  destruct (H plain_config three_gifts [1; 2; 3]) as (out & Hout & Hids).
  - reflexivity.
  - apply (bool_decide_unpack _). vm_compute. exact I.
  - simpl. repeat apply sublist_skip. apply sublist_nil.
  - vm_compute in Hout. injection Hout as <-. vm_compute in Hids. discriminate.
Qed.

Lemma low_supply_leb_total x y :
  low_supply_leb x y = false -> low_supply_leb y x = true.
Proof. order_cases. Qed.

Lemma low_supply_leb_trans x y z :
  low_supply_leb x y = true -> low_supply_leb y z = true ->
  low_supply_leb x z = true.
Proof. order_cases. Qed.

Lemma prioritize_gifts_low_supply_sorted config gifts gift_ids out :
  PRIORITIZE_LOW_SUPPLY config = true ->
  prioritize_gifts config gifts gift_ids = Ok out ->
  StronglySorted (fun a b => low_supply_leb a b = true) out.
Proof.
  unfold prioritize_gifts. intros ->.
  destruct (assign_positions gifts gift_ids) as [gifts'|e]; [|discriminate].
  simpl. destruct (_ || _); [|discriminate].
  intros [= <-]. apply sorted_StronglySorted.
  - apply low_supply_leb_total.
  - apply low_supply_leb_trans.
Qed.

Lemma supply_key_missing (x : Z * gmap string value) :
  x.2 !! "total_amount" = None -> supply_key x = Some Infinite.
Proof.
  unfold supply_key. intros ->. destruct (truthy _); reflexivity.
Qed.

Lemma evaluate_gift_delegates config (gift_data : gmap string value) :
  truthy (dict_get gift_data "is_sold_out" (VBool false)) = false ->
  truthy (dict_get gift_data "is_limited" (VBool false)) = true ->
  PURCHASE_ONLY_UPGRADABLE_GIFTS config && negb (dict_has gift_data "upgrade_price")
  = false ->
  evaluate_gift config gift_data
  = _evaluate_range_match config
      (dict_get gift_data "price" (VInt 0))
      (dict_get gift_data "total_amount" (VInt 0)).
Proof.
  unfold evaluate_gift, exclusion_rules. intros -> -> ->. reflexivity.
Qed.

(** C10 (as the code has it). A limited gift that is not sold out, that the
    upgradable-only rule does not exclude and whose record has no
    [total_amount] is handed to the range matcher with supply 0, which
    satisfies every supply limit that is not negative; [prioritize_gifts]
    orders the same missing attribute as [float('inf')]: with low-supply
    prioritisation enabled, a gift without [total_amount] comes after every
    gift with a numeric supply. *)
Theorem missing_total_amount_is_zero_then_infinite (config : Config)
    (gift_id : Z) (gift_data : gmap string value) :
  truthy (dict_get gift_data "is_limited" (VBool false)) = true ->
  truthy (dict_get gift_data "is_sold_out" (VBool false)) = false ->
  gift_data !! "total_amount" = None ->
  PURCHASE_ONLY_UPGRADABLE_GIFTS config = false
  \/ is_Some (gift_data !! "upgrade_price") ->
  evaluate_gift config gift_data
  = _evaluate_range_match config (dict_get gift_data "price" (VInt 0)) (VInt 0)
  /\ (forall rc price,
        0 <= supply_limit rc ->
        range_condition rc (VInt price) (VInt 0)
        = Ok ((min_price rc <=? price) && (price <=? max_price rc)))
  /\ supply_key (gift_id, gift_data) = Some Infinite
  /\ (forall cfg gifts gift_ids out i j x y n,
        PRIORITIZE_LOW_SUPPLY cfg = true ->
        prioritize_gifts cfg gifts gift_ids = Ok out ->
        out !! i = Some x -> supply_key x = Some (Finite n) ->
        out !! j = Some y -> y.2 !! "total_amount" = None ->
        (i < j)%nat).
Proof.
  intros Hlim Hsold Hmiss Hup. repeat split.
  - rewrite evaluate_gift_delegates; try assumption.
    + unfold dict_get at 2. rewrite Hmiss. reflexivity.
    + destruct Hup as [-> | Hup]; [reflexivity|].
      unfold dict_has. rewrite (bool_decide_eq_true_2 _ Hup).
      apply andb_false_r.
  - intros rc price Hsup. rewrite range_condition_int.
    apply Z.leb_le in Hsup. rewrite Hsup, andb_true_r. reflexivity.
  - apply supply_key_missing, Hmiss.
  - intros cfg gifts gift_ids out i j x y n Hflag Hout Hx Hkx Hy Hky.
    pose proof (prioritize_gifts_low_supply_sorted _ _ _ _ Hflag Hout) as Hs.
    apply supply_key_missing in Hky.
    destruct (Nat.lt_trichotomy i j) as [Hlt | [-> | Hgt]].
    + exact Hlt.
    + rewrite Hx in Hy. injection Hy as ->. congruence.
    + pose proof (StronglySorted_lookup_lt _ _ _ _ _ _ Hs Hy Hx Hgt) as Hle.
      unfold low_supply_leb in Hle. rewrite Hkx, Hky in Hle. discriminate.
Qed.

Lemma missing_total_amount_is_zero_then_infinite_witness :
  evaluate_gift upgradable_only_config no_supply_upgradable_gift
  = _evaluate_range_match upgradable_only_config
      (dict_get no_supply_upgradable_gift "price" (VInt 0)) (VInt 0)
  /\ (forall rc price,
        0 <= supply_limit rc ->
        range_condition rc (VInt price) (VInt 0)
        = Ok ((min_price rc <=? price) && (price <=? max_price rc)))
  /\ supply_key (7, no_supply_upgradable_gift) = Some Infinite
  /\ (forall cfg gifts gift_ids out i j x y n,
        PRIORITIZE_LOW_SUPPLY cfg = true ->
        prioritize_gifts cfg gifts gift_ids = Ok out ->
        out !! i = Some x -> supply_key x = Some (Finite n) ->
        out !! j = Some y -> y.2 !! "total_amount" = None ->
        (i < j)%nat).
Proof.
  apply (missing_total_amount_is_zero_then_infinite
           upgradable_only_config 7 no_supply_upgradable_gift).
  - vm_compute. reflexivity.
  - vm_compute. reflexivity.
  - vm_compute. reflexivity.
  - right. vm_compute. eexists. reflexivity.
Defined.

(** Against C10 as the specification words it (every limited gift on sale
    without [total_amount] reaches the range matcher): under the
    upgradable-only rule a gift without [upgrade_price] is excluded and no
    range is consulted. *)
Lemma missing_total_amount_counterexample :
  truthy (dict_get no_supply_gift "is_limited" (VBool false)) = true
  /\ truthy (dict_get no_supply_gift "is_sold_out" (VBool false)) = false
  /\ no_supply_gift !! "total_amount" = None
  /\ evaluate_gift upgradable_only_config no_supply_gift
     = Ok (false, ExclusionReason "non_upgradable_blocked")
  /\ _evaluate_range_match upgradable_only_config
       (dict_get no_supply_gift "price" (VInt 0)) (VInt 0)
     = Ok (true, RangeMatch 1 [RName "A"])
  /\ evaluate_gift upgradable_only_config no_supply_gift
     <> _evaluate_range_match upgradable_only_config
          (dict_get no_supply_gift "price" (VInt 0)) (VInt 0).
Proof.
  repeat split; try (vm_compute; reflexivity).
  vm_compute. discriminate.
Qed.

(** ** The purchase orchestrator *)

Section Purchase.

Context {W : Type}.
Variable t : string -> list (string * value) -> string.

Lemma call_steps {A} (op : W -> result A * W) (s : store W) :
  steps (call op s) = [].
Proof. unfold call. destruct (op (world s)). reflexivity. Qed.

Lemma get_user_balance_steps (app : Client W) s : steps (get_user_balance app s) = [].
Proof.
  unfold get_user_balance, try_except, call, ret.
  destruct (get_stars_balance app (world s)) as [[b|e] w]; [reflexivity|].
  destruct (is_Exception e); reflexivity.
Qed.

Lemma _get_gift_price_steps (app : Client W) gift_id s :
  steps (_get_gift_price app gift_id s) = [].
Proof.
  unfold _get_gift_price, try_except, bind, call, ret.
  destruct (get_available_gifts app (world s)) as [[gifts|e] w]; [reflexivity|].
  destruct (is_Exception e); reflexivity.
Qed.

Lemma get_recipient_info_steps (app : Client W) chat_id s :
  steps (get_recipient_info app chat_id s) = [].
Proof.
  unfold get_recipient_info, try_except, bind, call, ret.
  destruct (get_chat app chat_id (world s)) as [[user|e] w]; [reflexivity|].
  destruct (is_Exception e); reflexivity.
Qed.

Lemma purchase_lookups_steps (app : Client W) chat_id gift_id s :
  steps (purchase_lookups app chat_id gift_id s) = [].
Proof.
  unfold purchase_lookups, bind.
  pose proof (get_recipient_info_steps app chat_id s) as H1.
  destruct (get_recipient_info app chat_id s) as [[[ri|e] s1] evs1];
    simpl in H1; subst; [|reflexivity].
  pose proof (_get_gift_price_steps app gift_id s1) as H2.
  destruct (_get_gift_price app gift_id s1) as [[[p|e] s2] evs2];
    simpl in H2; subst; [|reflexivity].
  pose proof (get_user_balance_steps app s2) as H3.
  destruct (get_user_balance app s2) as [[[b|e] s3] evs3];
    simpl in H3; subst; reflexivity.
Qed.

Lemma buy_gift_lookups (app : Client W) chat_id gift_id quantity s :
  buy_gift t app chat_id gift_id quantity s
  = bind (purchase_lookups app chat_id gift_id)
         (purchase_decision t app chat_id gift_id quantity) s.
Proof.
  unfold buy_gift, purchase_lookups, purchase_decision, bind.
  destruct (get_recipient_info app chat_id s) as [[[ri|e] s1] evs1];
    [|reflexivity].
  destruct (_get_gift_price app gift_id s1) as [[[p|e] s2] evs2];
    [|reflexivity].
  destruct (get_user_balance app s2) as [[[b|e] s3] evs3]; [|reflexivity].
  simpl. rewrite !app_nil_r.
  match goal with |- context [if ?c then _ else _] => destruct c end.
  - destruct (_handle_insufficient_balance _ _ _ _ _ _ _) as [[r s4] evs4].
    rewrite !app_assoc. reflexivity.
  - match goal with
    | |- context [_purchase_gifts ?x1 ?x2 ?x3 ?x4 ?x5 ?x6 ?x7 ?x8] =>
        destruct (_purchase_gifts x1 x2 x3 x4 x5 x6 x7 x8)
          as [[[[]|e] s4] evs4]
    end.
    + match goal with |- context [if ?c then _ else _] => destruct c end.
      * destruct (_notify_partial_purchase _ _ _ _ _ _ _ _) as [[r s5] evs5].
        rewrite !app_assoc. reflexivity.
      * simpl. rewrite !app_assoc. reflexivity.
    + rewrite !app_assoc. reflexivity.
Qed.

Lemma success_steps_calls chat_id gift_id quantity recipient_info username units :
  length (List.filter is_send_gift
            (success_steps t chat_id gift_id quantity recipient_info username units))
  = length units.
Proof.
  induction units as [|u units IH]; simpl; [reflexivity|].
  rewrite IH. reflexivity.
Qed.

Lemma purchase_units_all_succeed (app : Client W) chat_id gift_id quantity
    recipient_info username :
  (forall c g w, (send_gift app c g w).1 = Ok tt) ->
  forall units s, exists s',
    purchase_units t app chat_id gift_id quantity recipient_info username units s
    = (Ok tt, s',
       success_steps t chat_id gift_id quantity recipient_info username units).
Proof.
  intros Hok. induction units as [|u units IH]; intros s.
  - exists s. reflexivity.
  - simpl. unfold bind at 1, try_except, bind, app_send_gift, success,
      send_notification, emit, ret.
    pose proof (Hok chat_id gift_id (world s)) as Hs.
    destruct (send_gift app chat_id gift_id (world s)) as [r w].
    simpl in Hs. subst r. simpl.
    destruct (IH {| world := w; history_file := history_file s |}) as [s' ->].
    exists s'. reflexivity.
Qed.

Lemma purchase_decision_insufficient (app : Client W) chat_id gift_id quantity
    found s :
  max_affordable quantity found.2 found.1.2 = 0 ->
  purchase_decision t app chat_id gift_id quantity found s
  = (Ok tt, s, insufficient_balance_steps t gift_id found.1.2 found.2 quantity).
Proof.
  intros H0. unfold purchase_decision. rewrite H0. reflexivity.
Qed.

Lemma purchase_decision_all_succeed (app : Client W) chat_id gift_id quantity
    found s :
  (forall c g w, (send_gift app c g w).1 = Ok tt) ->
  max_affordable quantity found.2 found.1.2 <> 0 ->
  exists s',
    purchase_decision t app chat_id gift_id quantity found s
    = (Ok tt, s',
       success_steps t chat_id gift_id
         (max_affordable quantity found.2 found.1.2) found.1.1.1 found.1.1.2
         (seqZ 1 (max_affordable quantity found.2 found.1.2))
       ++ if max_affordable quantity found.2 found.1.2 <? quantity
          then partial_purchase_steps t gift_id quantity
                 (max_affordable quantity found.2 found.1.2) found.1.2 found.2
          else []).
Proof.
  intros Hok Hne. unfold purchase_decision.
  apply Z.eqb_neq in Hne. rewrite Hne.
  unfold bind, _purchase_gifts.
  destruct (purchase_units_all_succeed app chat_id gift_id
              (max_affordable quantity found.2 found.1.2)
              found.1.1.1 found.1.1.2 Hok
              (seqZ 1 (max_affordable quantity found.2 found.1.2)) s)
    as [s' ->].
  exists s'. destruct (_ <? quantity); reflexivity.
Qed.

Lemma buy_gift_after_lookups (app : Client W) chat_id gift_id quantity s found s1 :
  purchase_lookups app chat_id gift_id s = (Ok found, s1, []) ->
  buy_gift t app chat_id gift_id quantity s
  = purchase_decision t app chat_id gift_id quantity found s1.
Proof.
  intros Hl. rewrite buy_gift_lookups. unfold bind. rewrite Hl.
  destruct (purchase_decision t _ _ _ _ _ _) as [[r s2] evs2]. reflexivity.
Qed.

Lemma _get_gift_price_unknown (app : Client W) gift_id s e w :
  get_available_gifts app (world s) = (Raise e, w) ->
  is_Exception e = true ->
  outcome (_get_gift_price app gift_id s) = Ok 0.
Proof.
  intros Hg He. unfold _get_gift_price, try_except, bind, call, ret.
  rewrite Hg, He. reflexivity.
Qed.

Lemma _get_gift_price_unlisted (app : Client W) gift_id s gifts w :
  get_available_gifts app (world s) = (Ok gifts, w) ->
  Forall (fun gift => eq_int gift_id (gift_id_of gift) = false) gifts ->
  outcome (_get_gift_price app gift_id s) = Ok 0.
Proof.
  intros Hg Hall. unfold _get_gift_price, try_except, bind, call, ret.
  rewrite Hg. unfold outcome; simpl. f_equal. clear Hg.
  induction Hall as [|gift gifts Hgift _ IH]; simpl.
  - reflexivity.
  - rewrite Hgift. exact IH.
Qed.

(** C5. When the affordable quantity of a purchase computes to 0, [buy_gift]
    issues no purchase call at all: it logs the requested quantity, the price
    and the balance, sends one balance-error notification carrying the cost
    of the request ([gift_price * requested_quantity]) and the balance, and
    returns. *)
Theorem buy_gift_insufficient_balance (app : Client W) (chat_id : recipient)
    (gift_id : value) (quantity : Z) (s s1 : store W)
    (recipient_info username : string) (gift_price current_balance : Z) :
  purchase_lookups app chat_id gift_id s
  = (Ok (recipient_info, username, gift_price, current_balance), s1, []) ->
  max_affordable quantity current_balance gift_price = 0 ->
  buy_gift t app chat_id gift_id quantity s
  = (Ok tt, s1,
     insufficient_balance_steps t gift_id gift_price current_balance quantity)
  /\ List.filter is_send_gift (steps (buy_gift t app chat_id gift_id quantity s))
     = [].
Proof.
  intros Hl H0.
  rewrite (buy_gift_after_lookups _ _ _ _ _ _ _ Hl).
  rewrite purchase_decision_insufficient by exact H0.
  split; reflexivity.
Qed.

(** C4. The number of units [buy_gift] goes for is
    [min(quantity, balance // price)] when the price just fetched is
    positive, and the requested quantity when the price is 0, which is also
    what the price look-up yields when it fails or does not find the gift. When every purchase call succeeds,
    exactly that many calls are issued, and when it is below the request
    (and not 0) the run ends with the partial-purchase report whose remaining
    cost is [(requested - purchased) * price]. *)
Theorem buy_gift_affordable_quantity (app : Client W) (chat_id : recipient)
    (gift_id : value) (quantity : Z) (s s1 : store W)
    (recipient_info username : string) (gift_price current_balance : Z) :
  (forall c g w, (send_gift app c g w).1 = Ok tt) ->
  purchase_lookups app chat_id gift_id s
  = (Ok (recipient_info, username, gift_price, current_balance), s1, []) ->
  (0 < gift_price ->
   max_affordable quantity current_balance gift_price
   = Z.min quantity (current_balance / gift_price))
  /\ (gift_price <= 0 ->
      max_affordable quantity current_balance gift_price = quantity)
  /\ (forall s' e w,
        get_available_gifts app (world s') = (Raise e, w) ->
        is_Exception e = true ->
        outcome (_get_gift_price app gift_id s') = Ok 0)
  /\ (forall s' gifts w,
        get_available_gifts app (world s') = (Ok gifts, w) ->
        Forall (fun gift => eq_int gift_id (gift_id_of gift) = false) gifts ->
        outcome (_get_gift_price app gift_id s') = Ok 0)
  /\ length (List.filter is_send_gift
               (steps (buy_gift t app chat_id gift_id quantity s)))
     = Z.to_nat (max_affordable quantity current_balance gift_price)
  /\ (max_affordable quantity current_balance gift_price <> 0 ->
      max_affordable quantity current_balance gift_price < quantity ->
      steps (buy_gift t app chat_id gift_id quantity s)
      = success_steps t chat_id gift_id
          (max_affordable quantity current_balance gift_price)
          recipient_info username
          (seqZ 1 (max_affordable quantity current_balance gift_price))
        ++ partial_purchase_steps t gift_id quantity
             (max_affordable quantity current_balance gift_price)
             gift_price current_balance).
Proof.
  intros Hok Hl.
  rewrite (buy_gift_after_lookups _ _ _ _ _ _ _ Hl).
  split; [|split; [|split; [|split; [|split]]]].
  - intros Hp. unfold max_affordable. apply Z.ltb_lt in Hp. rewrite Hp.
    reflexivity.
  - intros Hp. unfold max_affordable.
    destruct (Z.ltb_spec 0 gift_price); [lia | reflexivity].
  - intros s' e w. apply _get_gift_price_unknown.
  - intros s' gifts w. apply _get_gift_price_unlisted.
  - destruct (Z.eq_dec (max_affordable quantity current_balance gift_price) 0)
      as [H0 | Hne].
    + rewrite purchase_decision_insufficient by exact H0.
      simpl. rewrite H0. reflexivity.
    + destruct (purchase_decision_all_succeed app chat_id gift_id quantity
                  (recipient_info, username, gift_price, current_balance) s1
                  Hok Hne) as [s' ->].
      unfold steps; simpl. rewrite List.filter_app, length_app, success_steps_calls.
      rewrite length_seqZ.
      destruct (_ <? quantity); simpl; lia.
  - intros Hne Hlt.
    destruct (purchase_decision_all_succeed app chat_id gift_id quantity
                (recipient_info, username, gift_price, current_balance) s1
                Hok Hne) as [s' ->].
    unfold steps; simpl. apply Z.ltb_lt in Hlt. rewrite Hlt. reflexivity.
Qed.

End Purchase.

Lemma buy_gift_affordable_quantity_witness :
  max_affordable 5 25 10 = 2
  /\ length (List.filter is_send_gift
               (steps (buy_gift echo shop (RId 1001) (VInt 7) 5 (store_with 25))))
     = 2%nat
  /\ last (steps (buy_gift echo shop (RId 1001) (VInt 7) 5 (store_with 25)))
     = Some (EvNotify (VInt 7) (NPartialPurchase 2 5 30 25)).
Proof.
  destruct (buy_gift_affordable_quantity echo shop (RId 1001) (VInt 7) 5
              (store_with 25) (store_with 25) "@alice" "alice" 10 25)
    as (Hmin & _ & _ & _ & Hcount & Hsteps).
  - intros c g w. reflexivity.
  - vm_compute. reflexivity.
  - split; [|split].
    + exact (Hmin eq_refl).
    + exact Hcount.
    + rewrite Hsteps.
      * vm_compute. reflexivity.
      * vm_compute. discriminate.
      * vm_compute. reflexivity.
Defined.

Lemma buy_gift_insufficient_balance_witness :
  buy_gift echo shop (RId 1001) (VInt 7) 3 (store_with 5)
  = (Ok tt, store_with 5, insufficient_balance_steps echo (VInt 7) 10 5 3)
  /\ List.filter is_send_gift
       (steps (buy_gift echo shop (RId 1001) (VInt 7) 3 (store_with 5)))
     = [].
Proof.
  apply (buy_gift_insufficient_balance echo shop (RId 1001) (VInt 7) 3
           (store_with 5) (store_with 5) "@alice" "alice" 10 5).
  - vm_compute. reflexivity.
  - vm_compute. reflexivity.
Defined.

(** ** Notifications of purchase attempts *)

Section Notifications.

Context {W : Type}.
Variable t : string -> list (string * value) -> string.

Lemma handle_gift_error_run (app : Client W) ex gift_id chat_id gift_price
    current_balance (s : store W) :
  exists evs,
    handle_gift_error t app ex gift_id chat_id gift_price current_balance s
    = (Ok tt, s, evs)
    /\ List.filter is_notify evs
       = error_notifications gift_id ex gift_price current_balance
    /\ length (List.filter is_notify evs) = S (classified_count t ex)
    /\ expected_notifications t evs = O.
Proof.
  unfold handle_gift_error, error_notifications, classified_count,
    get_error_handlers.
  cbn [run_error_handlers check List.filter].
  destruct (contains "BALANCE_TOO_LOW" (exn_str ex));
    destruct (contains "STARGIFT_USAGE_LIMITED" (exn_str ex));
    destruct (contains "PEER_ID_INVALID" (exn_str ex));
    unfold _process_error; cbn [log_message notification_key lookup_key];
    simpl String.eqb;
    destruct (String.eqb (t "console.peer_id" []) "");
    destruct (String.eqb (t "console.peer_id" []) "low_balance");
    eexists; (split; [reflexivity | split; [reflexivity | split; reflexivity]]).
Qed.

Lemma get_user_balance_uninterrupted (app : Client W) (s : store W) :
  lookups_uninterrupted app ->
  exists b s', get_user_balance app s = (Ok b, s', []).
Proof.
  intros [Hb _]. unfold get_user_balance, try_except, call, ret.
  destruct (get_stars_balance app (world s)) as [[b|e] w] eqn:E.
  - eauto.
  - rewrite (Hb _ _ _ E). eauto.
Qed.

Lemma _get_gift_price_uninterrupted (app : Client W) gift_id (s : store W) :
  lookups_uninterrupted app ->
  exists p s', _get_gift_price app gift_id s = (Ok p, s', []).
Proof.
  intros [_ Hg]. unfold _get_gift_price, try_except, bind, call, ret.
  destruct (get_available_gifts app (world s)) as [[gifts|e] w] eqn:E.
  - eauto.
  - rewrite (Hg _ _ _ E). eauto.
Qed.

Lemma purchase_units_notifications (app : Client W) chat_id gift_id quantity
    recipient_info username :
  lookups_uninterrupted app ->
  forall units (s : store W),
    length (List.filter is_notify
              (steps (purchase_units t app chat_id gift_id quantity
                        recipient_info username units s)))
    = expected_notifications t
        (steps (purchase_units t app chat_id gift_id quantity
                  recipient_info username units s)).
Proof.
  intros Hun. induction units as [|u units IH]; intros s.
  - reflexivity.
  - simpl. unfold bind, try_except, app_send_gift.
    destruct (send_gift app chat_id gift_id (world s)) as [[[]|e] w].
    + unfold success, send_notification, emit, ret. simpl.
      specialize (IH {| world := w; history_file := history_file s |}).
      destruct (purchase_units _ _ _ _ _ _ _ _ _) as [[r s'] evs].
      unfold steps in *. simpl in *. rewrite IH. reflexivity.
    + destruct e as [msg| |]; simpl; try reflexivity.
      destruct (get_user_balance_uninterrupted app
                  {| world := w; history_file := history_file s |} Hun)
        as (b & s1 & ->).
      destruct (_get_gift_price_uninterrupted app gift_id s1 Hun)
        as (p & s2 & ->).
      destruct (handle_gift_error_run app (RPCError msg) gift_id chat_id p b s2)
        as (evs & -> & _ & Hlen & Hexp).
      unfold ret, steps. simpl. rewrite !app_nil_r. simpl.
      rewrite Hlen, Hexp. lia.
Qed.

(** C8 (as the code has it). In the unit loop of [_purchase_gifts] every
    purchase call that succeeds is followed by exactly one notification, the
    success message. A purchase call that fails with an [RPCError] is
    followed by the generic notification that embeds the raw error text and,
    before it, by one notification for each of the categories
    [BALANCE_TOO_LOW], [STARGIFT_USAGE_LIMITED], [PEER_ID_INVALID] whose code
    occurs in the error text: one notification for an unclassified error,
    two or more for a classified one. *)
Theorem purchase_notifications_per_attempt (app : Client W)
    (chat_id : recipient) (gift_id : value) (quantity : Z)
    (recipient_info username : string) (s : store W) :
  lookups_uninterrupted app ->
  length (List.filter is_notify
            (steps (_purchase_gifts t app chat_id gift_id quantity
                      recipient_info username s)))
  = expected_notifications t
      (steps (_purchase_gifts t app chat_id gift_id quantity
                recipient_info username s))
  /\ (forall ex gift_price current_balance (s' : store W),
        List.filter is_notify
          (steps (handle_gift_error t app ex gift_id chat_id gift_price
                    current_balance s'))
        = error_notifications gift_id ex gift_price current_balance
        /\ length (error_notifications gift_id ex gift_price current_balance)
           = S (classified_count t ex)).
Proof.
  intros Hun. split.
  - apply purchase_units_notifications, Hun.
  - intros ex gift_price current_balance s'.
    destruct (handle_gift_error_run app ex gift_id chat_id gift_price
                current_balance s') as (evs & -> & Hn & Hlen & _).
    unfold steps; simpl. rewrite <- Hn. split; [reflexivity | exact Hlen].
Qed.

End Notifications.

Lemma broke_shop_uninterrupted : lookups_uninterrupted broke_shop.
Proof. split; intros w e w' H; discriminate H. Qed.

Lemma purchase_notifications_per_attempt_witness :
  length (List.filter is_notify
            (steps (_purchase_gifts echo broke_shop (RId 1001) (VInt 7) 1
                      "@alice" "alice" (store_with 5))))
  = expected_notifications echo
      (steps (_purchase_gifts echo broke_shop (RId 1001) (VInt 7) 1
                "@alice" "alice" (store_with 5)))
  /\ (forall ex gift_price current_balance (s' : store Z),
        List.filter is_notify
          (steps (handle_gift_error echo broke_shop ex (VInt 7) (RId 1001)
                    gift_price current_balance s'))
        = error_notifications (VInt 7) ex gift_price current_balance
        /\ length (error_notifications (VInt 7) ex gift_price current_balance)
           = S (classified_count echo ex)).
Proof.
  apply (purchase_notifications_per_attempt echo broke_shop (RId 1001) (VInt 7) 1
           "@alice" "alice" (store_with 5)).
  split; intros w e w' H; discriminate H.
Defined.

(** Against C8 as the specification words it (one notification per failed
    attempt): the single purchase call below fails with [BALANCE_TOO_LOW]
    and is followed by two notifications, the balance error and the generic
    one. *)
Lemma one_notification_per_failure_counterexample :
  List.filter is_send_gift
    (steps (_purchase_gifts echo broke_shop (RId 1001) (VInt 7) 1
              "@alice" "alice" (store_with 5)))
  = [EvSendGift (RId 1001) (VInt 7) (Some (RPCError "[400 BALANCE_TOO_LOW]"))]
  /\ List.filter is_notify
       (steps (_purchase_gifts echo broke_shop (RId 1001) (VInt 7) 1
                 "@alice" "alice" (store_with 5)))
     = [ EvNotify (VInt 7) (NBalanceError 10 5);
         EvNotify (VInt 7)
           (NErrorMessage "<pre>[400 BALANCE_TOO_LOW]</pre>") ].
Proof. split; vm_compute; reflexivity. Qed.

(** ** Spacing of purchase calls *)

Section Spacing.

Context {W : Type}.
Variable t : string -> list (string * value) -> string.

Lemma emits_ret {A} P (a : A) : emits_only (W := W) P (ret a).
Proof. intros s. constructor. Qed.

Lemma emits_emit P ev : P ev -> emits_only (W := W) P (emit ev).
Proof. intros H s. repeat constructor. exact H. Qed.

Lemma emits_silent {A} P (m : M W A) :
  (forall s, steps (m s) = []) -> emits_only P m.
Proof. intros H s. rewrite H. constructor. Qed.

Lemma emits_bind {A B} P (m : M W A) (k : A -> M W B) :
  emits_only P m -> (forall a, emits_only P (k a)) -> emits_only P (bind m k).
Proof.
  intros Hm Hk s. unfold bind. specialize (Hm s).
  destruct (m s) as [[[a|e] s1] evs1]; unfold steps in *; simpl in *.
  - specialize (Hk a s1). destruct (k a s1) as [[r s2] evs2].
    unfold steps in *; simpl in *. apply Forall_app. split; assumption.
  - assumption.
Qed.

Lemma emits_try_except {A} P (m : M W A) handles (h : exn -> M W A) :
  emits_only P m -> (forall e, emits_only P (h e)) ->
  emits_only P (try_except m handles h).
Proof.
  intros Hm Hh s. unfold try_except. specialize (Hm s).
  destruct (m s) as [[[a|e] s1] evs1]; unfold steps in *; simpl in *.
  - assumption.
  - destruct (handles e); [|assumption].
    specialize (Hh e s1). destruct (h e s1) as [[r s2] evs2].
    unfold steps in *; simpl in *. apply Forall_app. split; assumption.
Qed.

Lemma emits_handle_gift_error (app : Client W) r ex gift_id chat_id p b :
  emits_only (block_step r) (handle_gift_error t app ex gift_id chat_id p b).
Proof.
  unfold handle_gift_error, get_error_handlers.
  cbn [run_error_handlers check].
  repeat (apply emits_bind; [|intros _]);
    repeat match goal with
           | |- emits_only _ (if ?c then _ else _) => destruct c
           | |- emits_only _ (_process_error _ _ _ _ _) =>
               unfold _process_error;
               cbn [log_message notification_key lookup_key]; simpl String.eqb;
               apply emits_bind; [|intros _]
           | |- emits_only _ (ret _) => apply emits_ret
           | |- emits_only _ (error _) => apply emits_emit; exact I
           | |- emits_only _ (send_notification _ _ _) => apply emits_emit; exact I
           end.
Qed.

Lemma emits_purchase_units (app : Client W) chat_id gift_id quantity
    recipient_info username units :
  emits_only (block_step chat_id)
    (purchase_units t app chat_id gift_id quantity recipient_info username units).
Proof.
  induction units as [|u units IH]; simpl.
  - apply emits_ret.
  - apply emits_bind.
    + apply emits_try_except.
      * apply emits_bind.
        { intros s. unfold app_send_gift.
          destruct (send_gift app chat_id gift_id (world s)) as [r w].
          repeat constructor. }
        intros _. apply emits_bind; [apply emits_emit; exact I|].
        intros _. apply emits_bind; [apply emits_emit; exact I|].
        intros _. apply emits_ret.
      * intros ex. apply emits_bind.
        { apply emits_silent, get_user_balance_steps. }
        intros b. apply emits_bind.
        { apply emits_silent, _get_gift_price_steps. }
        intros p. apply emits_bind; [apply emits_handle_gift_error|].
        intros _. apply emits_ret.
    + intros [|]; [exact IH | apply emits_ret].
Qed.

Lemma emits_buy_gift (app : Client W) chat_id gift_id quantity :
  emits_only (block_step chat_id) (buy_gift t app chat_id gift_id quantity).
Proof.
  unfold buy_gift.
  apply emits_bind; [apply emits_silent, get_recipient_info_steps|].
  intros ri. apply emits_bind; [apply emits_silent, _get_gift_price_steps|].
  intros p. apply emits_bind; [apply emits_silent, get_user_balance_steps|].
  intros b. destruct (_ =? 0).
  - unfold _handle_insufficient_balance.
    apply emits_bind; [apply emits_emit; exact I|].
    intros _. apply emits_emit. exact I.
  - apply emits_bind; [apply emits_purchase_units|].
    intros _. destruct (_ <? quantity); [|apply emits_ret].
    unfold _notify_partial_purchase.
    apply emits_bind; [apply emits_emit; exact I|].
    intros _. apply emits_emit. exact I.
Qed.

Lemma emits_recipient_turn (app : Client W) gift_id quantity recipient_id :
  emits_only (block_step recipient_id)
    (recipient_turn t app gift_id quantity recipient_id).
Proof.
  apply emits_try_except; [apply emits_buy_gift|].
  intros ex. apply emits_bind; [apply emits_emit; exact I|].
  intros _. apply emits_emit. exact I.
Qed.

Lemma recipient_turn_raises (app : Client W) gift_id quantity recipient_id
    (s : store W) e :
  outcome (recipient_turn t app gift_id quantity recipient_id s) = Raise e ->
  is_Exception e = false.
Proof.
  unfold recipient_turn, try_except.
  destruct (buy_gift t app recipient_id gift_id quantity s)
    as [[[[]|e0] s0] evs0]; [discriminate|].
  destruct (is_Exception e0) eqn:He0.
  - discriminate.
  - unfold outcome; simpl. intros [= <-]. exact He0.
Qed.

Lemma block_step_no_sleep r block :
  Forall (block_step r) block -> List.filter is_sleep block = [].
Proof.
  induction 1 as [|ev block Hev _ IH]; simpl; [reflexivity|].
  destruct ev; simpl in *; try assumption. contradiction.
Qed.

Lemma distribute_loop_blocks (app : Client W) gift_id quantity recipients :
  forall s : store W,
    recipient_blocks recipients
      (steps (distribute_loop t app gift_id quantity recipients s))
    /\ (outcome (distribute_loop t app gift_id quantity recipients s) = Ok tt ->
        length (List.filter is_sleep
                  (steps (distribute_loop t app gift_id quantity recipients s)))
        = length recipients)
    /\ (forall e,
          outcome (distribute_loop t app gift_id quantity recipients s) = Raise e ->
          is_Exception e = false).
Proof.
  induction recipients as [|r rs IH]; intros s.
  - split; [constructor | split; [reflexivity | discriminate]].
  - change (distribute_loop t app gift_id quantity (r :: rs) s)
      with (bind (recipient_turn t app gift_id quantity r)
              (fun _ => bind (emit (EvSleep half_second))
                          (fun _ => distribute_loop t app gift_id quantity rs))
              s).
    pose proof (emits_recipient_turn app gift_id quantity r s) as Hblock.
    pose proof (recipient_turn_raises app gift_id quantity r s) as Hraise.
    unfold bind, emit.
    destruct (recipient_turn t app gift_id quantity r s) as [[[[]|e] s1] block];
      unfold steps, outcome in *; simpl in *.
    + specialize (IH s1).
      destruct (distribute_loop t app gift_id quantity rs s1) as [[res s2] evs].
      unfold steps, outcome in *; simpl in *.
      destruct IH as (Hb & Hlen & Hexn). split; [|split].
      * apply blocks_next; assumption.
      * intros Hres. rewrite List.filter_app, length_app.
        rewrite (block_step_no_sleep _ _ Hblock). simpl.
        rewrite (Hlen Hres). reflexivity.
      * exact Hexn.
    + split; [|split].
      * apply blocks_cut. exact Hblock.
      * discriminate.
      * intros e' [= <-]. apply Hraise. reflexivity.
Qed.

(** C6 (as the code has it). [_distribute_gifts] sleeps half a second after
    the purchases of every recipient, whether they succeeded or failed: its
    steps are the opening log line and then, recipient by recipient in list
    order, a block of steps that holds no sleep and purchase calls for that
    recipient only, followed by the sleep. A run that returns has slept once
    per recipient, and only an exception outside [Exception] ends a run
    early. *)
Theorem distribute_gifts_sleeps_between_recipients (app : Client W)
    (gift_id : value) (quantity : Z) (recipients : list recipient)
    (s : store W) :
  exists evs,
    steps (_distribute_gifts t app gift_id quantity recipients s)
    = EvLog INFO
        (t "console.processing_gift"
           [("gift_id", gift_id); ("quantity", VInt quantity);
            ("recipients_count", VInt (Z.of_nat (length recipients)))]) :: evs
    /\ recipient_blocks recipients evs
    /\ (outcome (_distribute_gifts t app gift_id quantity recipients s) = Ok tt ->
        length (List.filter is_sleep evs) = length recipients)
    /\ (forall e,
          outcome (_distribute_gifts t app gift_id quantity recipients s) = Raise e ->
          is_Exception e = false).
Proof.
  unfold _distribute_gifts, bind, info, emit.
  destruct (distribute_loop_blocks app gift_id quantity recipients s)
    as (Hb & Hlen & Hexn).
  destruct (distribute_loop t app gift_id quantity recipients s)
    as [[res s1] evs].
  unfold steps, outcome in *; simpl in *.
  exists evs. repeat split; assumption.
Qed.

End Spacing.

Lemma distribute_gifts_sleeps_between_recipients_witness :
  exists evs,
    steps (_distribute_gifts echo shop (VInt 7) 2 [RId 1001; RId 1002]
             (store_with 25))
    = EvLog INFO
        (echo "console.processing_gift"
           [("gift_id", VInt 7); ("quantity", VInt 2);
            ("recipients_count", VInt 2)]) :: evs
    /\ recipient_blocks [RId 1001; RId 1002] evs
    /\ (outcome (_distribute_gifts echo shop (VInt 7) 2 [RId 1001; RId 1002]
                   (store_with 25)) = Ok tt ->
        length (List.filter is_sleep evs) = 2%nat)
    /\ (forall e,
          outcome (_distribute_gifts echo shop (VInt 7) 2 [RId 1001; RId 1002]
                     (store_with 25)) = Raise e ->
          is_Exception e = false).
Proof.
  exact (distribute_gifts_sleeps_between_recipients echo shop (VInt 7) 2
           [RId 1001; RId 1002] (store_with 25)).
Defined.

(** Against C6 as the specification words it (a sleep between any two
    successive purchase calls): the two units bought for the one recipient
    below follow each other with no sleep in between. *)
Lemma purchases_spaced_counterexample :
  purchases_spaced
    (steps (_distribute_gifts echo shop (VInt 7) 2 [RId 1001] (store_with 25)))
  = false
  /\ steps (_distribute_gifts echo shop (VInt 7) 2 [RId 1001] (store_with 25))
     = [ EvLog INFO "console.processing_gift";
         EvSendGift (RId 1001) (VInt 7) None;
         EvLog SUCCESS "console.gift_sent";
         EvNotify (VInt 7) (NSuccess (RId 1001) "alice" 1 2);
         EvSendGift (RId 1001) (VInt 7) None;
         EvLog SUCCESS "console.gift_sent";
         EvNotify (VInt 7) (NSuccess (RId 1001) "alice" 2 2);
         EvSleep half_second ].
Proof. split; vm_compute; reflexivity. Qed.

(** ** The detection loop *)

Section Detection.

Context {W : Type}.
Variable t : string -> list (string * value) -> string.
Variable config : Config.

Lemma detection_cycle_fetch_failure (app : Client W) callback animation_counter
    (s : store W) e w :
  is_connected app (world s) = true \/ (start app (world s)).1 = Ok tt ->
  history_readable s ->
  get_available_gifts app (world_at_fetch app s) = (Raise e, w) ->
  detection_cycle t config app callback animation_counter s
  = (Raise e, {| world := w; history_file := history_file s |},
     checking_steps t animation_counter).
Proof.
  intros Hconn Hhist Hfetch.
  unfold detection_cycle, bind, log_same_line, emit, connected, call,
    load_gift_history, fetch_current_gifts, bind, call, world_at_fetch in *.
  simpl.
  destruct (is_connected app (world s)) eqn:Hup; simpl.
  - unfold ret. simpl. unfold history_readable in Hhist.
    destruct (history_file s) as [gift_history|] eqn:Hfile; simpl.
    + destruct Hhist as [old ->]. simpl. rewrite Hfetch. simpl.
      rewrite <- Hfile. reflexivity.
    + rewrite Hfetch. simpl. rewrite <- Hfile. reflexivity.
  - destruct Hconn as [Hconn | Hstart]; [discriminate|].
    destruct (start app (world s)) as [r w1]. simpl in *. subst r. simpl.
    unfold history_readable in Hhist.
    destruct (history_file s) as [gift_history|] eqn:Hfile; simpl.
    + destruct Hhist as [old ->]. simpl. rewrite Hfetch. simpl.
      reflexivity.
    + rewrite Hfetch. simpl. reflexivity.
Qed.

(** C7 (as the code has it). The detection loop has no exception handler of
    its own. When the catalog fetch of a cycle raises, the cycle stops at the
    fetch and so does the loop, whatever number of turns was still to come:
    the exception leaves [run_detection_loop], the snapshot is not written,
    the interval sleep is not reached and no later tick fetches again. In
    [main] the exception is caught, the unexpected-error line and the
    traceback are printed, and [main] returns. *)
Theorem fetch_failure_ends_detection_loop (app : Client W)
    (callback : Client W -> gmap string value -> M W unit)
    (animation_counter : Z) (turns : nat) (s : store W) (e : exn) (w : W) :
  is_connected app (world s) = true \/ (start app (world s)).1 = Ok tt ->
  history_readable s ->
  get_available_gifts app (world_at_fetch app s) = (Raise e, w) ->
  detection_turns t config (S turns) app callback animation_counter s
  = (Raise e, {| world := w; history_file := history_file s |},
     checking_steps t animation_counter)
  /\ List.filter is_sleep
       (steps (detection_turns t config (S turns) app callback
                 animation_counter s)) = []
  /\ (forall (s0 : store W) (w2 : W),
        start app (world s0) = (Ok tt, world s) ->
        history_file s0 = history_file s ->
        stop app w = (Ok tt, w2) ->
        is_Exception e = true ->
        animation_counter = 0 ->
        main t config (S turns) app s0
        = (Ok tt, {| world := w2; history_file := history_file s |},
           [EvBanner; EvStartMessage] ++ checking_steps t 0
           ++ [EvLog ERROR (t "console.unexpected_error" []); EvTraceback e])).
Proof.
  intros Hconn Hhist Hfetch.
  assert (Hloop :
    detection_turns t config (S turns) app callback animation_counter s
    = (Raise e, {| world := w; history_file := history_file s |},
       checking_steps t animation_counter)).
  { simpl. unfold bind.
    rewrite (detection_cycle_fetch_failure _ _ _ _ _ _ Hconn Hhist Hfetch).
    reflexivity. }
  split; [exact Hloop | split].
  - rewrite Hloop. reflexivity.
  - intros s0 w2 Hstart Hfile Hstop He Hc. subst animation_counter.
    pose proof (detection_cycle_fetch_failure app (new_callback t config) 0
                  s e w Hconn Hhist Hfetch) as Hcycle.
    destruct s as [ws hs], s0 as [ws0 hs0]. simpl in Hstart, Hfile, Hcycle.
    subst hs0.
    cbv [main run with_client detector run_detection_loop send_start_message
         try_except bind emit call ret world history_file].
    rewrite Hstart. cbn [detection_turns]. cbv [bind].
    rewrite Hcycle. cbv beta iota. rewrite Hstop.
    destruct e; try discriminate; reflexivity.
Qed.

End Detection.

Lemma fetch_failure_ends_detection_loop_witness :
  detection_turns echo overlapping_config 3 flaky_shop
    (new_callback echo overlapping_config) 0 (store_with O)
  = (Raise (PyException "TimeoutError" "timed out"), store_with 1%nat,
     checking_steps echo 0)
  /\ List.filter is_sleep
       (steps (detection_turns echo overlapping_config 3 flaky_shop
                 (new_callback echo overlapping_config) 0 (store_with O))) = []
  /\ (forall (s0 : store nat) (w2 : nat),
        start flaky_shop (world s0) = (Ok tt, world (store_with O)) ->
        history_file s0 = history_file (store_with O) ->
        stop flaky_shop 1%nat = (Ok tt, w2) ->
        is_Exception (PyException "TimeoutError" "timed out") = true ->
        0 = 0 ->
        main echo overlapping_config 3 flaky_shop s0
        = (Ok tt, {| world := w2; history_file := history_file (store_with O) |},
           [EvBanner; EvStartMessage] ++ checking_steps echo 0
           ++ [EvLog ERROR (echo "console.unexpected_error" []);
               EvTraceback (PyException "TimeoutError" "timed out")])).
Proof.
  apply (fetch_failure_ends_detection_loop echo overlapping_config flaky_shop
           (new_callback echo overlapping_config) 0 2 (store_with O)
           (PyException "TimeoutError" "timed out") 1%nat).
  - left. reflexivity.
  - exact I.
  - reflexivity.
Defined.

(** Against C7 as the specification words it (after a failed fetch the loop
    sleeps and fetches again on the next tick): with three turns to go, the
    loop below is over after the first fetch; one fetch was made, nothing was
    slept, no snapshot was written, and [main] has returned. *)
Lemma fetch_failure_counterexample :
  outcome (run_detection_loop echo overlapping_config 3 flaky_shop
             (new_callback echo overlapping_config) (store_with O))
  = Raise (PyException "TimeoutError" "timed out")
  /\ world (final (run_detection_loop echo overlapping_config 3 flaky_shop
                     (new_callback echo overlapping_config) (store_with O)))
     = 1%nat
  /\ history_file
       (final (run_detection_loop echo overlapping_config 3 flaky_shop
                 (new_callback echo overlapping_config) (store_with O)))
     = None
  /\ List.filter is_sleep
       (steps (run_detection_loop echo overlapping_config 3 flaky_shop
                 (new_callback echo overlapping_config) (store_with O)))
     = []
  /\ outcome (main echo overlapping_config 3 flaky_shop (store_with O)) = Ok tt
  /\ world (final (main echo overlapping_config 3 flaky_shop (store_with O)))
     = 1%nat.
Proof. repeat split; vm_compute; reflexivity. Qed.

(** * Further properties of the engine *)

(** ** Range matching and eligibility *)

Lemma matching_ranges_head ranges price total_amount q rs ms :
  matching_ranges ranges price total_amount = Ok ((q, rs) :: ms) ->
  exists rc,
    rc ∈ ranges /\ q = quantity rc /\ rs = recipients rc
    /\ range_condition rc price total_amount = Ok true.
Proof.
  revert ms. induction ranges as [|rc rest IH]; intros ms; simpl.
  - discriminate.
  - destruct (range_condition rc price total_amount) as [c|e] eqn:Hc;
      [|discriminate].
    destruct (matching_ranges rest price total_amount) as [ms'|e];
      [|discriminate].
    destruct c.
    + intros [= <- <- _]. exists rc. repeat split; [left | exact Hc].
    + intros [= ->]. destruct (IH ms eq_refl) as (rc' & Hin & Hrest).
      exists rc'. split; [right; exact Hin | exact Hrest].
Qed.

Lemma evaluate_gift_eligible_inv (config : Config)
    (gift_data : gmap string value) (data : processing_data) :
  evaluate_gift config gift_data = Ok (true, data) ->
  truthy (dict_get gift_data "is_sold_out" (VBool false)) = false
  /\ truthy (dict_get gift_data "is_limited" (VBool false)) = true
  /\ (PURCHASE_ONLY_UPGRADABLE_GIFTS config = true ->
      dict_has gift_data "upgrade_price" = true)
  /\ exists rc,
       rc ∈ GIFT_RANGES config
       /\ data = RangeMatch (quantity rc) (recipients rc)
       /\ range_condition rc (dict_get gift_data "price" (VInt 0))
            (dict_get gift_data "total_amount" (VInt 0)) = Ok true.
Proof.
  unfold evaluate_gift, exclusion_rules. simpl.
  destruct (truthy (dict_get gift_data "is_sold_out" (VBool false)));
    [discriminate|].
  destruct (truthy (dict_get gift_data "is_limited" (VBool false)));
    [|discriminate].
  simpl.
  destruct (PURCHASE_ONLY_UPGRADABLE_GIFTS config && negb (dict_has gift_data "upgrade_price"))
    eqn:Hup; [discriminate|].
  unfold _evaluate_range_match, get_matching_range.
  destruct (matching_ranges _ _ _) as [[|[q rs] ms]|e] eqn:Hm; try discriminate.
  intros [= <-]. repeat split.
  - intros Hflag. rewrite Hflag in Hup. simpl in Hup.
    apply negb_false_iff in Hup. exact Hup.
  - destruct (matching_ranges_head _ _ _ _ _ _ Hm) as (rc & Hin & -> & -> & Hc).
    exists rc. repeat split; assumption.
Qed.

(** X1. A verdict of [evaluate_gift] is eligible only for a gift that is not
    sold out, is limited, passes the upgradable-only rule, and whose price
    and supply satisfy the condition of a configured range; the quantity and
    the recipients of the verdict are those of that range. *)
Theorem evaluate_gift_eligible_sound (config : Config)
    (gift_data : gmap string value) (data : processing_data) :
  evaluate_gift config gift_data = Ok (true, data) ->
  truthy (dict_get gift_data "is_sold_out" (VBool false)) = false
  /\ truthy (dict_get gift_data "is_limited" (VBool false)) = true
  /\ (PURCHASE_ONLY_UPGRADABLE_GIFTS config = true ->
      dict_has gift_data "upgrade_price" = true)
  /\ exists rc,
       rc ∈ GIFT_RANGES config
       /\ data = RangeMatch (quantity rc) (recipients rc)
       /\ range_condition rc (dict_get gift_data "price" (VInt 0))
            (dict_get gift_data "total_amount" (VInt 0)) = Ok true.
Proof. apply evaluate_gift_eligible_inv. Qed.

Lemma evaluate_gift_eligible_sound_witness :
  truthy (dict_get (limited_gift 30 40) "is_sold_out" (VBool false)) = false
  /\ truthy (dict_get (limited_gift 30 40) "is_limited" (VBool false)) = true
  /\ (PURCHASE_ONLY_UPGRADABLE_GIFTS overlapping_config = true ->
      dict_has (limited_gift 30 40) "upgrade_price" = true)
  /\ exists rc,
       rc ∈ GIFT_RANGES overlapping_config
       /\ RangeMatch 2 [RName "A"] = RangeMatch (quantity rc) (recipients rc)
       /\ range_condition rc (dict_get (limited_gift 30 40) "price" (VInt 0))
            (dict_get (limited_gift 30 40) "total_amount" (VInt 0)) = Ok true.
Proof.
  apply (evaluate_gift_eligible_sound overlapping_config (limited_gift 30 40)
           (RangeMatch 2 [RName "A"])).
  vm_compute. reflexivity.
Defined.

(** X2. The exclusion reasons of [evaluate_gift] and the skip counters of
    [categorize_skipped_gifts] agree: a gift excluded for a reason is counted
    in the category of that reason, and a gift counted in no category is
    never excluded but handed to the range matcher. *)
Theorem exclusion_reason_is_counted (config : Config)
    (gift_data : gmap string value) :
  (forall failed_rule,
      evaluate_gift config gift_data = Ok (false, ExclusionReason failed_rule) ->
      (failed_rule = "sold_out"
       /\ sold_out_count (categorize_skipped_gifts config gift_data) = 1)
      \/ (failed_rule = "non_limited_blocked"
          /\ non_limited_count (categorize_skipped_gifts config gift_data) = 1)
      \/ (failed_rule = "non_upgradable_blocked"
          /\ non_upgradable_count (categorize_skipped_gifts config gift_data) = 1))
  /\ (categorize_skipped_gifts config gift_data = no_skips ->
      evaluate_gift config gift_data
      = _evaluate_range_match config (dict_get gift_data "price" (VInt 0))
          (dict_get gift_data "total_amount" (VInt 0))).
Proof.
  assert (Hlim : truthy (dict_get gift_data "is_limited" VNone)
                 = truthy (dict_get gift_data "is_limited" (VBool false))).
  { unfold dict_get. destruct (gift_data !! "is_limited"); reflexivity. }
  unfold evaluate_gift, exclusion_rules, categorize_skipped_gifts, no_skips.
  simpl. rewrite Hlim.
  destruct (truthy (dict_get gift_data "is_sold_out" (VBool false)));
    destruct (truthy (dict_get gift_data "is_limited" (VBool false)));
    destruct (PURCHASE_ONLY_UPGRADABLE_GIFTS config
              && negb (dict_has gift_data "upgrade_price"));
    simpl; split;
    try (intros failed_rule [= <-]; auto);
    try discriminate; try reflexivity.
  all: intros failed_rule; unfold _evaluate_range_match;
    destruct (get_matching_range _ _ _) as [[[[] q] rs]|e]; discriminate.
Qed.

Lemma exclusion_reason_is_counted_witness :
  (forall failed_rule,
      evaluate_gift upgradable_only_config no_supply_gift
      = Ok (false, ExclusionReason failed_rule) ->
      (failed_rule = "sold_out"
       /\ sold_out_count
            (categorize_skipped_gifts upgradable_only_config no_supply_gift) = 1)
      \/ (failed_rule = "non_limited_blocked"
          /\ non_limited_count
               (categorize_skipped_gifts upgradable_only_config no_supply_gift) = 1)
      \/ (failed_rule = "non_upgradable_blocked"
          /\ non_upgradable_count
               (categorize_skipped_gifts upgradable_only_config no_supply_gift) = 1))
  /\ (categorize_skipped_gifts upgradable_only_config no_supply_gift = no_skips ->
      evaluate_gift upgradable_only_config no_supply_gift
      = _evaluate_range_match upgradable_only_config
          (dict_get no_supply_gift "price" (VInt 0))
          (dict_get no_supply_gift "total_amount" (VInt 0))).
Proof.
  exact (exclusion_reason_is_counted upgradable_only_config no_supply_gift).
Defined.

(** X3. A price that is not a number ([None], a string) makes
    [get_matching_range] raise [TypeError] as soon as one range is
    configured, because the first comparison of the first range fails; with
    no range configured nothing is compared and the answer is
    [(False, 0, [])]. *)
Theorem get_matching_range_price_not_a_number (config : Config)
    (price total_amount : value) :
  as_int price = None ->
  (GIFT_RANGES config = [] ->
   get_matching_range config price total_amount = Ok (false, 0, []))
  /\ (GIFT_RANGES config <> [] ->
      get_matching_range config price total_amount = Raise TypeError).
Proof.
  intros Hp. unfold get_matching_range. split.
  - intros ->. reflexivity.
  - destruct (GIFT_RANGES config) as [|rc rest]; [congruence|]. intros _.
    simpl. unfold range_condition, int_le_value. rewrite Hp. reflexivity.
Qed.

Lemma get_matching_range_price_not_a_number_witness :
  (GIFT_RANGES overlapping_config = [] ->
   get_matching_range overlapping_config VNone (VInt 40) = Ok (false, 0, []))
  /\ (GIFT_RANGES overlapping_config <> [] ->
      get_matching_range overlapping_config VNone (VInt 40) = Raise TypeError).
Proof.
  apply (get_matching_range_price_not_a_number overlapping_config VNone (VInt 40)).
  reflexivity.
Defined.

(** ** The prioritiser *)

Lemma list_index_not_elem_of (x : Z) (ids : list Z) :
  x ∉ ids -> list_index x ids = None.
Proof.
  induction ids as [|y ids IH]; intros Hx; simpl.
  - reflexivity.
  - destruct (Z.eqb_spec y x) as [->|Hne].
    + exfalso. apply Hx. left.
    + rewrite IH; [reflexivity|]. intros Hin. apply Hx. right. exact Hin.
Qed.

Lemma assign_positions_inv (gifts gifts' : gift_dict) (gift_ids : list Z) :
  assign_positions gifts gift_ids = Ok gifts' ->
  gifts' = map (with_position gift_ids) gifts.
Proof.
  revert gifts'. induction gifts as [|[gift_id gift_data] rest IH];
    intros gifts'; simpl.
  - intros [= <-]. reflexivity.
  - destruct (list_index gift_id gift_ids) as [i|] eqn:Hi; [|discriminate].
    destruct (assign_positions rest gift_ids) as [rest'|e]; [|discriminate].
    intros [= <-]. rewrite (IH rest' eq_refl).
    unfold with_position at 2; simpl. rewrite Hi. reflexivity.
Qed.

Lemma assign_positions_error (gifts : gift_dict) (gift_ids : list Z) e :
  assign_positions gifts gift_ids = Raise e -> e = ValueError.
Proof.
  induction gifts as [|[gift_id gift_data] rest IH]; simpl.
  - discriminate.
  - destruct (list_index gift_id gift_ids); [|intros [= <-]; reflexivity].
    destruct (assign_positions rest gift_ids) as [rest'|e']; [discriminate|].
    intros [= <-]. apply IH. reflexivity.
Qed.

(** X4. In both modes [prioritize_gifts] only reorders: its output holds
    exactly the gifts of the batch, each once, each with its position
    [len(gift_ids) - gift_ids.index(gift_id)] stored in the record. *)
Theorem prioritize_gifts_permutation (config : Config) (gifts out : gift_dict)
    (gift_ids : list Z) :
  prioritize_gifts config gifts gift_ids = Ok out ->
  out ≡ₚ map (with_position gift_ids) gifts.
Proof.
  unfold prioritize_gifts.
  destruct (assign_positions gifts gift_ids) as [gifts'|e] eqn:Ha;
    [|discriminate].
  apply assign_positions_inv in Ha. subst gifts'.
  destruct (negb (PRIORITIZE_LOW_SUPPLY config)).
  - intros [= <-]. apply sorted_perm.
  - destruct (_ || _); [|discriminate].
    intros [= <-]. rewrite !sorted_perm. reflexivity.
Qed.

Lemma prioritize_gifts_permutation_witness :
  rev (map (with_position [1; 2; 3]) three_gifts)
  ≡ₚ map (with_position [1; 2; 3]) three_gifts.
Proof.
  apply (prioritize_gifts_permutation plain_config three_gifts
           (rev (map (with_position [1; 2; 3]) three_gifts)) [1; 2; 3]).
  vm_compute. reflexivity.
Defined.

(** X5. With low-supply prioritisation enabled, of two gifts with numeric
    supplies the one with the lower supply comes first, whatever their
    places in the catalog; gifts with the same supply come in ascending
    position, that is the one listed later in the catalog first. *)
Theorem prioritize_gifts_low_supply_first (config : Config)
    (gifts out : gift_dict) (gift_ids : list Z) (i j : nat)
    (x y : Z * gmap string value) (n m : Z) :
  PRIORITIZE_LOW_SUPPLY config = true ->
  prioritize_gifts config gifts gift_ids = Ok out ->
  out !! i = Some x -> supply_key x = Some (Finite n) ->
  out !! j = Some y -> supply_key y = Some (Finite m) ->
  n < m \/ (n = m /\ position_key x < position_key y) ->
  (i < j)%nat.
Proof.
  intros Hflag Hout Hx Hkx Hy Hky Hlt.
  pose proof (prioritize_gifts_low_supply_sorted _ _ _ _ Hflag Hout) as Hs.
  destruct (Nat.lt_trichotomy i j) as [Hij | [-> | Hji]].
  - exact Hij.
  - rewrite Hx in Hy. injection Hy as ->. rewrite Hkx in Hky.
    injection Hky as ->. lia.
  - pose proof (StronglySorted_lookup_lt _ _ _ _ _ _ Hs Hy Hx Hji) as Hle.
    unfold low_supply_leb in Hle. rewrite Hkx, Hky in Hle. simpl in Hle.
    destruct (Z.eqb_spec m n) as [->|Hne].
    + apply Z.leb_le in Hle. lia.
    + apply Z.leb_le in Hle. lia.
Qed.

Lemma prioritize_gifts_low_supply_first_witness : (0 < 2)%nat.
Proof.
  apply (prioritize_gifts_low_supply_first low_supply_config three_gifts
           (map (with_position [1; 2; 3])
              [ (3, limited_gift 30 10); (2, limited_gift 20 50);
                (1, limited_gift 10 100) ])
           [1; 2; 3] 0 2
           (with_position [1; 2; 3] (3, limited_gift 30 10))
           (with_position [1; 2; 3] (1, limited_gift 10 100)) 10 100).
  - reflexivity.
  - vm_compute. reflexivity.
  - reflexivity.
  - vm_compute. reflexivity.
  - reflexivity.
  - vm_compute. reflexivity.
  - left. lia.
Defined.

(** X6. A gift of the batch whose id does not occur in [gift_ids] makes
    [prioritize_gifts] raise [ValueError] ([list.index]); no other error
    arises while positions are assigned. *)
Theorem prioritize_gifts_unknown_id (config : Config) (gifts : gift_dict)
    (gift_ids : list Z) :
  Exists (fun kv => kv.1 ∉ gift_ids) gifts ->
  prioritize_gifts config gifts gift_ids = Raise ValueError.
Proof.
  intros Hex. unfold prioritize_gifts.
  assert (Ha : assign_positions gifts gift_ids = Raise ValueError).
  { induction Hex as [[gift_id gift_data] rest Hnot
                     | [gift_id gift_data] rest _ IH]; simpl in *.
    - rewrite (list_index_not_elem_of _ _ Hnot). reflexivity.
    - destruct (list_index gift_id gift_ids); [|reflexivity].
      rewrite IH. reflexivity. }
  rewrite Ha. reflexivity.
Qed.

Lemma prioritize_gifts_unknown_id_witness :
  prioritize_gifts plain_config three_gifts [1; 2] = Raise ValueError.
Proof.
  apply (prioritize_gifts_unknown_id plain_config three_gifts [1; 2]).
  unfold three_gifts. apply Exists_cons_tl, Exists_cons_tl, Exists_cons_hd.
  simpl. intros H. apply (bool_decide_pack _) in H. vm_compute in H. exact H.
Defined.

(** ** Bounds on the purchase calls *)

Section PurchaseBounds.

Context {W : Type}.
Variable t : string -> list (string * value) -> string.

Lemma emits_no_call_handle_gift_error (app : Client W) ex gift_id chat_id p b :
  emits_only no_call (handle_gift_error t app ex gift_id chat_id p b).
Proof.
  unfold handle_gift_error, get_error_handlers.
  cbn [run_error_handlers check].
  repeat (apply emits_bind; [|intros _]);
    repeat match goal with
           | |- emits_only _ (if ?c then _ else _) => destruct c
           | |- emits_only _ (_process_error _ _ _ _ _) =>
               unfold _process_error;
               cbn [log_message notification_key lookup_key]; simpl String.eqb;
               apply emits_bind; [|intros _]
           | |- emits_only _ (ret _) => apply emits_ret
           | |- emits_only _ (error _) => apply emits_emit; reflexivity
           | |- emits_only _ (send_notification _ _ _) =>
               apply emits_emit; reflexivity
           end.
Qed.

Lemma purchase_calls_app evs1 evs2 :
  purchase_calls (evs1 ++ evs2) = (purchase_calls evs1 + purchase_calls evs2)%nat.
Proof. unfold purchase_calls. rewrite List.filter_app, length_app. reflexivity. Qed.

Lemma purchase_calls_no_call evs : Forall no_call evs -> purchase_calls evs = O.
Proof.
  unfold purchase_calls, no_call.
  induction 1 as [|ev evs Hev _ IH]; simpl; [reflexivity|].
  rewrite Hev. exact IH.
Qed.

Lemma failure_is_last_no_call evs rest :
  Forall no_call evs -> failure_is_last (evs ++ rest) = failure_is_last rest.
Proof.
  unfold no_call. induction 1 as [|ev evs Hev _ IH]; simpl; [reflexivity|].
  destruct ev; try exact IH. discriminate.
Qed.

Lemma forallb_no_call evs :
  Forall no_call evs -> forallb (fun ev => negb (is_send_gift ev)) evs = true.
Proof.
  unfold no_call. induction 1 as [|ev evs Hev _ IH]; simpl; [reflexivity|].
  rewrite Hev, IH. reflexivity.
Qed.

(** One unit: one purchase call, then steps without a purchase call; the
    loop goes on exactly when the call succeeded. *)
Lemma unit_attempt_cases (app : Client W) chat_id gift_id quantity
    recipient_info username current_gift (s : store W) :
  (exists s' tail,
      unit_attempt t app chat_id gift_id quantity recipient_info username
        current_gift s
      = (Ok true, s', EvSendGift chat_id gift_id None :: tail)
      /\ Forall no_call tail)
  \/ (exists r s' e tail,
        unit_attempt t app chat_id gift_id quantity recipient_info username
          current_gift s
        = (r, s', EvSendGift chat_id gift_id (Some e) :: tail)
        /\ r <> Ok true /\ Forall no_call tail).
Proof.
  remember (unit_attempt t app chat_id gift_id quantity recipient_info username
              current_gift s) as run eqn:Hrun.
  unfold unit_attempt, try_except, bind at 1, app_send_gift in Hrun.
  destruct (send_gift app chat_id gift_id (world s)) as [[[]|e] w].
  - left. unfold bind, success, send_notification, emit, ret in Hrun.
    simpl in Hrun. subst run.
    eexists _, _. split; [reflexivity|]. repeat constructor.
  - right. destruct e as [msg| |]; simpl in Hrun.
    + assert (He : emits_only (W := W) no_call
                (current_balance <- get_user_balance app;;
                 gift_price <- _get_gift_price app gift_id;;
                 handle_gift_error t app (RPCError msg) gift_id chat_id
                   gift_price current_balance;;
                 ret false)%monad).
      { apply emits_bind.
        - apply emits_silent, get_user_balance_steps.
        - intros b. apply emits_bind.
          + apply emits_silent, _get_gift_price_steps.
          + intros p. apply emits_bind.
            * apply emits_no_call_handle_gift_error.
            * intros _. apply emits_ret. }
      specialize (He {| world := w; history_file := history_file s |}).
      assert (Hr : outcome
                     ((current_balance <- get_user_balance app;;
                       gift_price <- _get_gift_price app gift_id;;
                       handle_gift_error t app (RPCError msg) gift_id chat_id
                         gift_price current_balance;;
                       ret false)%monad
                        {| world := w; history_file := history_file s |})
                   <> Ok true).
      { unfold bind, ret, outcome.
        destruct (get_user_balance app _) as [[[b|e] s1] evs1]; [|discriminate].
        destruct (_get_gift_price app gift_id s1) as [[[p|e] s2] evs2];
          [|discriminate].
        destruct (handle_gift_error t app (RPCError msg) gift_id chat_id p b s2)
          as [[[[]|e] s3] evs3]; discriminate. }
      match type of He with
      | Forall _ (steps ?handled) => destruct handled as [[r s'] evs]
      end.
      unfold steps, outcome in *. simpl in *. subst run.
      exists r, s', (RPCError msg), evs. repeat split; assumption.
    + subst run. eexists _, _, _, []. repeat split; [discriminate | constructor].
    + subst run. eexists _, _, _, []. repeat split; [discriminate | constructor].
Qed.

Lemma purchase_units_cons (app : Client W) chat_id gift_id quantity
    recipient_info username current_gift units (s : store W) :
  purchase_units t app chat_id gift_id quantity recipient_info username
    (current_gift :: units) s
  = bind (unit_attempt t app chat_id gift_id quantity recipient_info username
            current_gift)
      (fun go_on : bool =>
         if go_on
         then purchase_units t app chat_id gift_id quantity recipient_info
                username units
         else ret tt) s.
Proof. reflexivity. Qed.

Lemma purchase_units_bounds (app : Client W) chat_id gift_id quantity
    recipient_info username units :
  forall s : store W,
    (purchase_calls
       (steps (purchase_units t app chat_id gift_id quantity recipient_info
                 username units s)) <= length units)%nat
    /\ failure_is_last
         (steps (purchase_units t app chat_id gift_id quantity recipient_info
                   username units s)) = true.
Proof.
  induction units as [|u units IH]; intros s.
  - split; [unfold purchase_calls; simpl; lia | reflexivity].
  - rewrite purchase_units_cons. unfold bind.
    destruct (unit_attempt_cases app chat_id gift_id quantity recipient_info
                username u s)
      as [(s1 & tail & -> & Htail) | (r & s1 & e & tail & -> & Hr & Htail)].
    + specialize (IH s1).
      destruct (purchase_units _ _ _ _ _ _ _ _ _) as [[r s2] evs2].
      unfold steps in *. simpl in *. destruct IH as [IHn IHl]. split.
      * change (EvSendGift chat_id gift_id None :: tail ++ evs2)
          with ([EvSendGift chat_id gift_id None] ++ tail ++ evs2).
        rewrite !purchase_calls_app, (purchase_calls_no_call _ Htail).
        unfold purchase_calls at 1. simpl. lia.
      * rewrite failure_is_last_no_call by exact Htail. exact IHl.
    + assert (Hsteps :
        steps (match r with
               | Ok a =>
                   let (p, evs2) :=
                     (if a
                      then purchase_units t app chat_id gift_id quantity
                             recipient_info username units
                      else ret tt) s1 in
                   let (r0, s2) := p in
                   (r0, s2, (EvSendGift chat_id gift_id (Some e) :: tail) ++ evs2)
               | Raise e0 =>
                   (Raise e0, s1, EvSendGift chat_id gift_id (Some e) :: tail)
               end)
        = EvSendGift chat_id gift_id (Some e) :: tail).
      { destruct r as [[|]|e0]; [congruence| |reflexivity].
        unfold ret, steps. simpl. rewrite app_nil_r. reflexivity. }
      rewrite Hsteps. split.
      * change (EvSendGift chat_id gift_id (Some e) :: tail)
          with ([EvSendGift chat_id gift_id (Some e)] ++ tail).
        rewrite purchase_calls_app, (purchase_calls_no_call _ Htail).
        unfold purchase_calls. simpl. lia.
      * simpl. apply forallb_no_call, Htail.
Qed.

Lemma purchase_decision_calls (app : Client W) chat_id gift_id quantity found
    (s : store W) :
  (purchase_calls (steps (purchase_decision t app chat_id gift_id quantity found s))
   <= Z.to_nat (max_affordable quantity found.2 found.1.2))%nat.
Proof.
  unfold purchase_decision.
  destruct (max_affordable quantity found.2 found.1.2 =? 0) eqn:H0.
  - unfold purchase_calls. simpl. lia.
  - unfold bind, _purchase_gifts.
    destruct (purchase_units_bounds app chat_id gift_id
                (max_affordable quantity found.2 found.1.2)
                found.1.1.1 found.1.1.2
                (seqZ 1 (max_affordable quantity found.2 found.1.2)) s)
      as [Hn _].
    rewrite length_seqZ in Hn.
    destruct (purchase_units _ _ _ _ _ _ _ _ _) as [[[[]|e] s1] evs1];
      unfold steps in *; simpl in *; [|exact Hn].
    destruct (_ <? quantity).
    + unfold _notify_partial_purchase, bind, warn, send_notification, emit.
      simpl. rewrite purchase_calls_app. unfold purchase_calls at 2. simpl. lia.
    + unfold ret. simpl. rewrite app_nil_r. exact Hn.
Qed.

(** X7. Whatever the platform answers, [buy_gift] issues at most the
    affordable number of purchase calls: never more than were requested, and
    for a positive price and a balance that is not negative never more than
    the balance read before the purchases pays for. *)
Theorem buy_gift_within_budget (app : Client W) (chat_id : recipient)
    (gift_id : value) (quantity : Z) (s s1 : store W)
    (recipient_info username : string) (gift_price current_balance : Z) :
  purchase_lookups app chat_id gift_id s
  = (Ok (recipient_info, username, gift_price, current_balance), s1, []) ->
  (purchase_calls (steps (buy_gift t app chat_id gift_id quantity s))
   <= Z.to_nat (max_affordable quantity current_balance gift_price))%nat
  /\ (0 <= quantity ->
      Z.of_nat (purchase_calls (steps (buy_gift t app chat_id gift_id quantity s)))
      <= quantity)
  /\ (0 < gift_price -> 0 <= current_balance ->
      Z.of_nat (purchase_calls (steps (buy_gift t app chat_id gift_id quantity s)))
      * gift_price <= current_balance).
Proof.
  intros Hl. rewrite (buy_gift_after_lookups t _ _ _ _ _ _ _ Hl).
  pose proof (purchase_decision_calls app chat_id gift_id quantity
                (recipient_info, username, gift_price, current_balance) s1)
    as Hn. simpl in Hn.
  split; [exact Hn | split].
  - intros Hq. unfold max_affordable in Hn.
    destruct (0 <? gift_price); lia.
  - intros Hp Hb. unfold max_affordable in Hn.
    apply Z.ltb_lt in Hp as Hp'. rewrite Hp' in Hn.
    pose proof (Z.mul_div_le current_balance gift_price Hp) as Hdiv.
    pose proof (Z.div_pos current_balance gift_price Hb Hp) as Hpos.
    nia.
Qed.

(** X8. The unit loop of [_purchase_gifts] stops at the first purchase call
    that fails, whatever the failure: no purchase call follows a failed one,
    and the calls never outnumber the units asked for. *)
Theorem purchase_gifts_stops_at_failure (app : Client W) (chat_id : recipient)
    (gift_id : value) (quantity : Z) (recipient_info username : string)
    (s : store W) :
  failure_is_last
    (steps (_purchase_gifts t app chat_id gift_id quantity recipient_info
              username s)) = true
  /\ (purchase_calls
        (steps (_purchase_gifts t app chat_id gift_id quantity recipient_info
                  username s)) <= Z.to_nat quantity)%nat.
Proof.
  unfold _purchase_gifts.
  destruct (purchase_units_bounds app chat_id gift_id quantity recipient_info
              username (seqZ 1 quantity) s) as [Hn Hl].
  rewrite length_seqZ in Hn. split; assumption.
Qed.

End PurchaseBounds.

Lemma buy_gift_within_budget_witness :
  (purchase_calls (steps (buy_gift echo broke_shop (RId 1001) (VInt 7) 5
                            (store_with 25%Z)))
   <= Z.to_nat (max_affordable 5 25 10))%nat
  /\ (0 <= 5 ->
      Z.of_nat (purchase_calls (steps (buy_gift echo broke_shop (RId 1001)
                                         (VInt 7) 5 (store_with 25))))
      <= 5)
  /\ (0 < 10 -> 0 <= 25 ->
      Z.of_nat (purchase_calls (steps (buy_gift echo broke_shop (RId 1001)
                                         (VInt 7) 5 (store_with 25))))
      * 10 <= 25).
Proof.
  apply (buy_gift_within_budget echo broke_shop (RId 1001) (VInt 7) 5
           (store_with 25) (store_with 25) "@alice" "alice" 10 25).
  vm_compute. reflexivity.
Defined.

(** ** Look-ups and dispatch *)

Section Dispatch.

Context {W : Type}.
Variable t : string -> list (string * value) -> string.
Variable config : Config.

Lemma purchase_lookups_raises (app : Client W) chat_id gift_id (s : store W) e :
  outcome (purchase_lookups app chat_id gift_id s) = Raise e ->
  is_Exception e = false.
Proof.
  unfold purchase_lookups, bind, get_recipient_info, _get_gift_price,
    get_user_balance, try_except, bind, call, ret, outcome.
  destruct (get_chat app chat_id (world s)) as [[user|e1] w1]; simpl.
  - destruct (get_available_gifts app w1) as [[gifts|e2] w2]; simpl.
    + destruct (get_stars_balance app w2) as [[b|e3] w3]; simpl.
      * discriminate.
      * destruct (is_Exception e3) eqn:H3; simpl; [discriminate|].
        intros [= <-]. exact H3.
    + destruct (is_Exception e2) eqn:H2; simpl.
      * destruct (get_stars_balance app w2) as [[b|e3] w3]; simpl.
        -- discriminate.
        -- destruct (is_Exception e3) eqn:H3; simpl; [discriminate|].
           intros [= <-]. exact H3.
      * intros [= <-]. exact H2.
  - destruct (is_Exception e1) eqn:H1; simpl.
    + destruct (get_available_gifts app w1) as [[gifts|e2] w2]; simpl.
      * destruct (get_stars_balance app w2) as [[b|e3] w3]; simpl.
        -- discriminate.
        -- destruct (is_Exception e3) eqn:H3; simpl; [discriminate|].
           intros [= <-]. exact H3.
      * destruct (is_Exception e2) eqn:H2; simpl.
        -- destruct (get_stars_balance app w2) as [[b|e3] w3]; simpl.
           ++ discriminate.
           ++ destruct (is_Exception e3) eqn:H3; simpl; [discriminate|].
              intros [= <-]. exact H3.
        -- intros [= <-]. exact H2.
    + intros [= <-]. exact H1.
Qed.

(** X9. The look-ups that open [buy_gift] absorb every [Exception] of the
    platform: none leaves them, a failed recipient look-up falls back to the
    raw id with an empty user name, and a failed balance look-up to a balance
    of 0. *)
Theorem purchase_lookups_absorb_exceptions (app : Client W)
    (chat_id : recipient) (gift_id : value) (s : store W) :
  (forall e,
      outcome (purchase_lookups app chat_id gift_id s) = Raise e ->
      is_Exception e = false)
  /\ (forall e w,
        get_chat app chat_id (world s) = (Raise e, w) ->
        is_Exception e = true ->
        get_recipient_info app chat_id s
        = (Ok (str_of_recipient chat_id, ""),
           {| world := w; history_file := history_file s |}, []))
  /\ (forall e w,
        get_stars_balance app (world s) = (Raise e, w) ->
        is_Exception e = true ->
        get_user_balance app s
        = (Ok 0, {| world := w; history_file := history_file s |}, [])).
Proof.
  split; [|split].
  - intros e. apply purchase_lookups_raises.
  - intros e w Hc He.
    unfold get_recipient_info, try_except, bind, call, ret.
    rewrite Hc, He. reflexivity.
  - intros e w Hb He. unfold get_user_balance, try_except, call, ret.
    rewrite Hb, He. reflexivity.
Qed.

(** [process_new_gift] acts on the verdict alone. *)
Lemma process_new_gift_dispatch (app : Client W)
    (gift_data : gmap string value) (s : store W) :
  (forall data,
      evaluate_gift config gift_data = Ok (false, data) ->
      process_new_gift t config app gift_data s
      = (Ok tt, s,
         [EvNotify (dict_get gift_data "id" VNone) (NProcessing data)]))
  /\ (forall quantity recipients,
        evaluate_gift config gift_data
        = Ok (true, RangeMatch quantity recipients) ->
        process_new_gift t config app gift_data s
        = _distribute_gifts t app (dict_get gift_data "id" VNone) quantity
            recipients s)
  /\ (forall e,
        evaluate_gift config gift_data = Raise e ->
        process_new_gift t config app gift_data s = (Raise e, s, [])).
Proof.
  unfold process_new_gift. split; [|split].
  - intros data ->. reflexivity.
  - intros quantity recipients ->. reflexivity.
  - intros e ->. reflexivity.
Qed.

End Dispatch.

(** ** Where purchase calls go *)

Section Destinations.

Context {W : Type}.
Variable t : string -> list (string * value) -> string.
Variable config : Config.

Lemma emits_only_impl {A} (P Q : event -> Prop) (m : M W A) :
  (forall ev, P ev -> Q ev) -> emits_only P m -> emits_only Q m.
Proof. intros HPQ Hm s. eapply Forall_impl; [apply Hm | exact HPQ]. Qed.

Lemma emits_call_for_handle_gift_error (app : Client W) gift rs ex gift_id
    chat_id p b :
  emits_only (call_for gift rs) (handle_gift_error t app ex gift_id chat_id p b).
Proof.
  apply (emits_only_impl no_call).
  - intros ev. unfold no_call. destruct ev; simpl; try discriminate; auto.
  - apply emits_no_call_handle_gift_error.
Qed.

Lemma emits_call_for_buy_gift (app : Client W) chat_id gift_id quantity :
  emits_only (call_for gift_id [chat_id]) (buy_gift t app chat_id gift_id quantity).
Proof.
  unfold buy_gift.
  apply emits_bind; [apply emits_silent, get_recipient_info_steps|].
  intros ri. apply emits_bind; [apply emits_silent, _get_gift_price_steps|].
  intros p. apply emits_bind; [apply emits_silent, get_user_balance_steps|].
  intros b. destruct (_ =? 0).
  - unfold _handle_insufficient_balance.
    apply emits_bind; [apply emits_emit; exact I|].
    intros _. apply emits_emit. exact I.
  - apply emits_bind.
    + unfold _purchase_gifts. generalize (seqZ 1 (max_affordable quantity b p)).
      intros units. induction units as [|u units IH]; simpl.
      * apply emits_ret.
      * apply emits_bind.
        -- apply emits_try_except.
           ++ apply emits_bind.
              { intros s. unfold app_send_gift.
                destruct (send_gift app chat_id gift_id (world s)) as [r w].
                repeat constructor. }
              intros _. apply emits_bind; [apply emits_emit; exact I|].
              intros _. apply emits_bind; [apply emits_emit; exact I|].
              intros _. apply emits_ret.
           ++ intros ex. apply emits_bind.
              { apply emits_silent, get_user_balance_steps. }
              intros b'. apply emits_bind.
              { apply emits_silent, _get_gift_price_steps. }
              intros p'. apply emits_bind;
                [apply emits_call_for_handle_gift_error|].
              intros _. apply emits_ret.
        -- intros [|]; [exact IH | apply emits_ret].
    + intros _. destruct (_ <? quantity); [|apply emits_ret].
      unfold _notify_partial_purchase.
      apply emits_bind; [apply emits_emit; exact I|].
      intros _. apply emits_emit. exact I.
Qed.

Lemma emits_call_for_distribute_loop (app : Client W) gift_id quantity all rs :
  rs ⊆ all ->
  emits_only (call_for gift_id all) (distribute_loop t app gift_id quantity rs).
Proof.
  induction rs as [|r rs IH]; intros Hsub; simpl.
  - apply emits_ret.
  - apply emits_bind.
    + apply emits_try_except.
      * apply (emits_only_impl (call_for gift_id [r])).
        -- intros ev. destruct ev; simpl; auto.
           intros [Hin ->]. split; [|reflexivity].
           apply list_elem_of_singleton in Hin. subst. apply Hsub. left.
        -- apply emits_call_for_buy_gift.
      * intros ex. apply emits_bind; [apply emits_emit; exact I|].
        intros _. apply emits_emit. exact I.
    + intros _. apply emits_bind; [apply emits_emit; exact I|].
      intros _. apply IH. intros x Hx. apply Hsub. right. exact Hx.
Qed.

(** X10. Every purchase call that [process_new_gift] issues is for the id of
    the gift at hand and goes to a recipient of a configured range whose
    condition the gift satisfies; the gift is then limited, not sold out and
    not barred by the upgradable-only rule. A gift that is not eligible
    leads to no purchase call. *)
Theorem process_new_gift_purchases_are_configured (app : Client W)
    (gift_data : gmap string value) (s : store W)
    (chat_id : recipient) (g : value) (failure : option exn) :
  EvSendGift chat_id g failure
    ∈ steps (process_new_gift t config app gift_data s) ->
  g = dict_get gift_data "id" VNone
  /\ truthy (dict_get gift_data "is_sold_out" (VBool false)) = false
  /\ truthy (dict_get gift_data "is_limited" (VBool false)) = true
  /\ (PURCHASE_ONLY_UPGRADABLE_GIFTS config = true ->
      dict_has gift_data "upgrade_price" = true)
  /\ exists rc,
       rc ∈ GIFT_RANGES config
       /\ chat_id ∈ recipients rc
       /\ range_condition rc (dict_get gift_data "price" (VInt 0))
            (dict_get gift_data "total_amount" (VInt 0)) = Ok true.
Proof.
  destruct (process_new_gift_dispatch t config app gift_data s)
    as (Hno & Hyes & Herr).
  destruct (evaluate_gift config gift_data) as [[[|] data]|e] eqn:Hev.
  - destruct (evaluate_gift_eligible_inv _ _ _ Hev)
      as (Hsold & Hlim & Hup & rc & Hin & -> & Hc).
    rewrite (Hyes _ _ eq_refl). unfold _distribute_gifts, bind, info, emit.
    pose proof (emits_call_for_distribute_loop app
                  (dict_get gift_data "id" VNone) (quantity rc)
                  (recipients rc) (recipients rc) (fun x Hx => Hx) s) as Hall.
    destruct (distribute_loop _ _ _ _ _ _) as [[r s1] evs].
    unfold steps in *. simpl in *. intros Hmem.
    apply elem_of_cons in Hmem as [Hmem | Hmem]; [discriminate|].
    rewrite Forall_forall in Hall. specialize (Hall _ Hmem). simpl in Hall.
    destruct Hall as [Hr ->]. repeat split; try assumption.
    exists rc. repeat split; assumption.
  - rewrite (Hno _ eq_refl). unfold steps. simpl. intros Hmem.
    apply list_elem_of_singleton in Hmem. discriminate.
  - rewrite (Herr _ eq_refl). unfold steps. simpl. intros Hmem.
    inversion Hmem.
Qed.

End Destinations.

Lemma process_new_gift_purchases_are_configured_witness :
  VInt 7 = dict_get (<["id" := VInt 7]> (limited_gift 30 40)) "id" VNone
  /\ truthy (dict_get (<["id" := VInt 7]> (limited_gift 30 40))
               "is_sold_out" (VBool false)) = false
  /\ truthy (dict_get (<["id" := VInt 7]> (limited_gift 30 40))
               "is_limited" (VBool false)) = true
  /\ (PURCHASE_ONLY_UPGRADABLE_GIFTS overlapping_config = true ->
      dict_has (<["id" := VInt 7]> (limited_gift 30 40)) "upgrade_price" = true)
  /\ exists rc,
       rc ∈ GIFT_RANGES overlapping_config
       /\ RName "A" ∈ recipients rc
       /\ range_condition rc
            (dict_get (<["id" := VInt 7]> (limited_gift 30 40)) "price" (VInt 0))
            (dict_get (<["id" := VInt 7]> (limited_gift 30 40)) "total_amount"
               (VInt 0)) = Ok true.
Proof.
  apply (process_new_gift_purchases_are_configured echo overlapping_config shop
           (<["id" := VInt 7]> (limited_gift 30 40)) (store_with 25)
           (RName "A") (VInt 7) None).
  vm_compute. right. left.
Defined.

(** ** The snapshot and the catalog *)

Lemma value_eqb_refl v : value_eqb v v = true.
Proof.
  destruct v as [|b|z|str]; simpl.
  - reflexivity.
  - destruct b; reflexivity.
  - apply Z.eqb_refl.
  - apply String.eqb_refl.
Qed.

Lemma dict_contains_insert_same {K V : Type} (eqb : K -> K -> bool) k (v : V) d :
  eqb k k = true -> dict_contains eqb k (dict_insert eqb k v d) = true.
Proof.
  intros Hrefl. unfold dict_contains.
  induction d as [|[k' v'] d IH]; simpl.
  - rewrite Hrefl. reflexivity.
  - destruct (eqb k' k) eqn:Hk; simpl.
    + rewrite Hk. reflexivity.
    + rewrite Hk, IH. reflexivity.
Qed.

Lemma dict_contains_insert_other {K V : Type} (eqb : K -> K -> bool) x k (v : V) d :
  dict_contains eqb x d = true ->
  dict_contains eqb x (dict_insert eqb k v d) = true.
Proof.
  unfold dict_contains. induction d as [|[k' v'] d IH]; simpl.
  - discriminate.
  - destruct (eqb k' k); simpl.
    + auto.
    + destruct (eqb k' x); simpl; auto.
Qed.

Lemma history_dict_contains gift_history :
  forall acc old,
    history_dict gift_history acc = Ok old ->
    (forall x, dict_contains value_eqb x acc = true ->
               dict_contains value_eqb x old = true)
    /\ Forall (fun gift => exists gift_id,
                  gift !! "id" = Some gift_id
                  /\ dict_contains value_eqb gift_id old = true)
              gift_history.
Proof.
  induction gift_history as [|gift rest IH]; intros acc old; simpl.
  - intros [= <-]. split; [auto | constructor].
  - destruct (gift !! "id") as [gift_id|] eqn:Hid; [|discriminate].
    intros Hrest. destruct (IH _ _ Hrest) as [Hacc Hall]. split.
    + intros x Hx. apply Hacc, dict_contains_insert_other, Hx.
    + constructor; [|exact Hall].
      exists gift_id. split; [exact Hid|].
      apply Hacc, dict_contains_insert_same, value_eqb_refl.
Qed.

Lemma history_dict_ok gift_history :
  Forall (fun gift => is_Some (gift !! "id")) gift_history ->
  forall acc, exists old, history_dict gift_history acc = Ok old.
Proof.
  induction 1 as [|gift rest [gift_id Hid] _ IH]; intros acc; simpl.
  - eauto.
  - rewrite Hid. apply IH.
Qed.

Lemma history_dict_key_error gift_history :
  Exists (fun gift => gift !! "id" = None) gift_history ->
  forall acc, history_dict gift_history acc = Raise KeyError.
Proof.
  induction 1 as [gift rest Hid | gift rest _ IH]; intros acc; simpl.
  - rewrite Hid. reflexivity.
  - destruct (gift !! "id"); [apply IH | reflexivity].
Qed.

Section Snapshot.

Context {W : Type}.

(** X11. Writing the snapshot and reading it back. After
    [save_gift_history], [load_gift_history] knows the id of every saved
    record, provided every record has an ["id"]; one record without it makes
    the load raise [KeyError]; and a missing file is read as the empty
    dictionary. *)
Theorem snapshot_round_trip (gifts : list (gmap string value)) (s : store W) :
  (Forall (fun gift => is_Some (gift !! "id")) gifts ->
   exists old,
     bind (save_gift_history gifts) (fun _ => load_gift_history) s
     = (Ok old, {| world := world s; history_file := Some gifts |}, [])
     /\ Forall (fun gift => exists gift_id,
                   gift !! "id" = Some gift_id
                   /\ dict_contains value_eqb gift_id old = true) gifts)
  /\ (Exists (fun gift => gift !! "id" = None) gifts ->
      outcome (bind (save_gift_history gifts) (fun _ => load_gift_history) s)
      = Raise KeyError)
  /\ (history_file s = None -> load_gift_history s = (Ok [], s, [])).
Proof.
  unfold bind, save_gift_history, load_gift_history. simpl. split; [|split].
  - intros Hall. destruct (history_dict_ok _ Hall []) as [old Hold].
    exists old. rewrite Hold. split; [reflexivity|].
    apply (history_dict_contains _ _ _ Hold).
  - intros Hex. rewrite (history_dict_key_error _ Hex). reflexivity.
  - intros ->. reflexivity.
Qed.

End Snapshot.

Lemma snapshot_round_trip_witness :
  (Forall (fun gift => is_Some (gift !! "id")) [gift_to_json listed_gift] ->
   exists old,
     bind (save_gift_history [gift_to_json listed_gift])
       (fun _ => load_gift_history) (store_with 25)
     = (Ok old,
        {| world := world (store_with 25);
           history_file := Some [gift_to_json listed_gift] |}, [])
     /\ Forall (fun gift => exists gift_id,
                   gift !! "id" = Some gift_id
                   /\ dict_contains value_eqb gift_id old = true)
          [gift_to_json listed_gift])
  /\ (Exists (fun gift => gift !! "id" = None) [gift_to_json listed_gift] ->
      outcome (bind (save_gift_history [gift_to_json listed_gift])
                 (fun _ => load_gift_history) (store_with 25))
      = Raise KeyError)
  /\ (history_file (store_with 25) = None ->
      load_gift_history (store_with 25) = (Ok [], store_with 25, [])).
Proof.
  exact (snapshot_round_trip [gift_to_json listed_gift] (store_with 25)).
Defined.

(** *** The fetched dictionary *)

Lemma dict_insert_entries {V : Type} (k : Z) (v : V) (d : list (Z * V)) kv :
  kv ∈ dict_insert Z.eqb k v d -> kv = (k, v) \/ kv ∈ d.
Proof.
  induction d as [|[k' v'] d IH]; simpl.
  - intros H. apply list_elem_of_singleton in H. left. exact H.
  - destruct (Z.eqb_spec k' k) as [->|Hne].
    + intros H. apply elem_of_cons in H as [->|H]; [left; reflexivity|].
      right. right. exact H.
    + intros H. apply elem_of_cons in H as [->|H]; [right; left|].
      destruct (IH H) as [->|Hin]; [left; reflexivity | right; right; exact Hin].
Qed.

Lemma dict_insert_key_in {V : Type} (k : Z) (v : V) (d : list (Z * V)) :
  k ∈ map fst (dict_insert Z.eqb k v d).
Proof.
  induction d as [|[k' v'] d IH]; simpl.
  - left.
  - destruct (Z.eqb_spec k' k) as [->|Hne]; simpl; [left | right; exact IH].
Qed.

Lemma dict_insert_keys_mono {V : Type} (k : Z) (v : V) (d : list (Z * V)) x :
  x ∈ map fst d -> x ∈ map fst (dict_insert Z.eqb k v d).
Proof.
  induction d as [|[k' v'] d IH]; simpl.
  - intros H. inversion H.
  - destruct (Z.eqb_spec k' k) as [->|Hne]; simpl.
    + auto.
    + intros H. apply elem_of_cons in H as [->|H]; [left | right; auto].
Qed.

Lemma fold_insert_entries (l acc : gift_dict) kv :
  kv ∈ fold_left (fun d g => dict_insert Z.eqb g.1 g.2 d) l acc ->
  kv ∈ l \/ kv ∈ acc.
Proof.
  revert acc. induction l as [|[k v] l IH]; intros acc; simpl.
  - auto.
  - intros H. destruct (IH _ H) as [Hl | Hacc]; [left; right; exact Hl|].
    destruct (dict_insert_entries _ _ _ _ Hacc) as [->|Hin];
      [left; left | right; exact Hin].
Qed.

Lemma fold_insert_keys (l acc : gift_dict) x :
  x ∈ map fst l \/ x ∈ map fst acc ->
  x ∈ map fst (fold_left (fun d g => dict_insert Z.eqb g.1 g.2 d) l acc).
Proof.
  revert acc. induction l as [|[k v] l IH]; intros acc; simpl.
  - intros [H|H]; [inversion H | exact H].
  - intros [H|H]; apply IH.
    + apply elem_of_cons in H as [->|H]; [right; apply dict_insert_key_in | left; exact H].
    + right. apply dict_insert_keys_mono, H.
Qed.

Lemma catalog_dict_entries (gifts : list Gift) kv :
  kv ∈ catalog_dict gifts ->
  exists gift, gift ∈ gifts /\ kv = (gift_id_of gift, gift_to_json gift).
Proof.
  unfold catalog_dict. intros H.
  destruct (fold_insert_entries _ _ _ H) as [Hin | Hin]; [|inversion Hin].
  apply list_elem_of_fmap in Hin as (gift & -> & Hgift). eauto.
Qed.

Lemma gift_to_json_id (gift : Gift) :
  gift_to_json gift !! "id" = Some (VInt (gift_id_of gift)).
Proof. unfold gift_to_json. apply lookup_insert_eq. Qed.

(** The ids and the entries of the fetched dictionary. *)
Lemma catalog_dict_ids (gifts : list Gift) :
  NoDup (map fst (catalog_dict gifts))
  /\ (forall gift_id,
        gift_id ∈ map fst (catalog_dict gifts)
        <-> gift_id ∈ map gift_id_of gifts)
  /\ Forall (fun kv => kv.2 !! "id" = Some (VInt kv.1)
                       /\ exists gift, gift ∈ gifts /\ kv.2 = gift_to_json gift)
            (catalog_dict gifts).
Proof.
  split; [|split].
  - unfold catalog_dict. apply fetched_ids_NoDup. constructor.
  - intros gift_id. split.
    + intros H. apply list_elem_of_fmap in H as ([k r] & -> & Hkv).
      destruct (catalog_dict_entries _ _ Hkv) as (gift & Hgift & [= -> ->]).
      apply list_elem_of_fmap. eauto.
    + intros H. unfold catalog_dict. apply fold_insert_keys. left.
      rewrite map_map. simpl. exact H.
  - apply Forall_forall. intros [k r] Hkv.
    destruct (catalog_dict_entries _ _ Hkv) as (gift & Hgift & [= -> ->]).
    simpl. split; [apply gift_to_json_id | eauto].
Qed.

Section Fetch.

Context {W : Type}.

Lemma fetch_current_gifts_ok (app : Client W) (s : store W) gifts w :
  get_available_gifts app (world s) = (Ok gifts, w) ->
  fetch_current_gifts app s
  = (Ok (catalog_dict gifts, map fst (catalog_dict gifts)),
     {| world := w; history_file := history_file s |}, []).
Proof.
  intros Hg. unfold fetch_current_gifts, bind, call, ret. rewrite Hg.
  reflexivity.
Qed.

(** X12. When the platform answers a list of gifts, [fetch_current_gifts]
    returns a dictionary with one entry per distinct id of the list and the
    ids of that dictionary as [gift_ids]: the ids are without duplicates and
    are exactly the fetched ids, and every entry is the record of a fetched
    gift filed under that gift's own id. *)
Theorem fetch_current_gifts_ids (app : Client W) (s : store W)
    (gifts : list Gift) (w : W) :
  get_available_gifts app (world s) = (Ok gifts, w) ->
  exists gifts_dict,
    fetch_current_gifts app s
    = (Ok (gifts_dict, map fst gifts_dict),
       {| world := w; history_file := history_file s |}, [])
    /\ NoDup (map fst gifts_dict)
    /\ (forall gift_id,
          gift_id ∈ map fst gifts_dict <-> gift_id ∈ map gift_id_of gifts)
    /\ Forall (fun kv => kv.2 !! "id" = Some (VInt kv.1)
                         /\ exists gift, gift ∈ gifts /\ kv.2 = gift_to_json gift)
              gifts_dict.
Proof.
  intros Hg. exists (catalog_dict gifts).
  split; [apply fetch_current_gifts_ok, Hg | apply catalog_dict_ids].
Qed.

End Fetch.

Lemma fetch_current_gifts_ids_witness :
  exists gifts_dict,
    fetch_current_gifts shop (store_with 25)
    = (Ok (gifts_dict, map fst gifts_dict),
       {| world := 25; history_file := history_file (store_with 25) |}, [])
    /\ NoDup (map fst gifts_dict)
    /\ (forall gift_id,
          gift_id ∈ map fst gifts_dict <-> gift_id ∈ map gift_id_of [listed_gift])
    /\ Forall (fun kv => kv.2 !! "id" = Some (VInt kv.1)
                         /\ exists gift, gift ∈ [listed_gift]
                                         /\ kv.2 = gift_to_json gift)
              gifts_dict.
Proof.
  apply (fetch_current_gifts_ids shop (store_with 25) [listed_gift] 25).
  reflexivity.
Defined.

(** ** Cycles of the detection loop *)

Section Cycles.

Context {W : Type}.
Variable t : string -> list (string * value) -> string.
Variable config : Config.

(** A cycle from the fetch on: the new gifts are processed, the snapshot is
    written, the loop sleeps. *)
Lemma detection_cycle_after_fetch (app : Client W) callback animation_counter
    (s : store W) old gifts w :
  is_connected app (world s) = true \/ (start app (world s)).1 = Ok tt ->
  loaded_history s = Ok old ->
  get_available_gifts app (world_at_fetch app s) = (Ok gifts, w) ->
  detection_cycle t config app callback animation_counter s
  = match
      match new_gifts_of old (catalog_dict gifts) with
      | [] => ret []
      | _ :: _ =>
          _process_new_gifts t config app
            (new_gifts_of old (catalog_dict gifts))
            (map fst (catalog_dict gifts)) callback
      end {| world := w; history_file := history_file s |}
    with
    | (Ok mutated, s3, evs) =>
        (Ok ((animation_counter + 1) mod ANIMATION_FRAMES),
         {| world := world s3;
            history_file :=
              Some (map snd (with_mutations (catalog_dict gifts) mutated)) |},
         checking_steps t animation_counter
         ++ evs ++ [EvSleep (INTERVAL config)])
    | (Raise e, s3, evs) =>
        (Raise e, s3, checking_steps t animation_counter ++ evs)
    end.
Proof.
  intros Hconn Hload Hfetch.
  assert (Hl : forall s' : store W,
             history_file s' = history_file s ->
             load_gift_history s' = (Ok old, s', [])).
  { intros s' Hs'. unfold load_gift_history, loaded_history in *.
    rewrite Hs'. destruct (history_file s); [rewrite Hload|injection Hload as <-];
      reflexivity. }
  unfold detection_cycle, bind, log_same_line, emit, connected, call,
    fetch_current_gifts, bind, call, ret, save_gift_history, world_at_fetch,
    new_gifts_of, catalog_dict, checking_steps in *.
  simpl.
  destruct (is_connected app (world s)) eqn:Hup; simpl.
  - rewrite (Hl s eq_refl). simpl. rewrite Hfetch. simpl.
    destruct (List.filter _ _) as [|kv rest]; [reflexivity|].
    destruct (_process_new_gifts _ _ _ _ _ _ _) as [[[mutated|e] s3] evs];
      reflexivity.
  - destruct Hconn as [Hconn | Hstart]; [discriminate|].
    destruct (start app (world s)) as [r w1]. simpl in *. subst r. simpl.
    rewrite (Hl {| world := w1; history_file := history_file s |} eq_refl).
    simpl. rewrite Hfetch. simpl.
    destruct (List.filter _ _) as [|kv rest]; [reflexivity|].
    destruct (_process_new_gifts _ _ _ _ _ _ _) as [[[mutated|e] s3] evs];
      reflexivity.
Qed.

Lemma detection_cycle_inv (app : Client W) callback animation_counter
    (s s1 : store W) c1 evs1 :
  detection_cycle t config app callback animation_counter s = (Ok c1, s1, evs1) ->
  (is_connected app (world s) = true \/ (start app (world s)).1 = Ok tt)
  /\ exists old gifts w,
       loaded_history s = Ok old
       /\ get_available_gifts app (world_at_fetch app s) = (Ok gifts, w).
Proof.
  unfold detection_cycle, bind, log_same_line, emit, connected, call,
    load_gift_history, fetch_current_gifts, bind, call, ret,
    world_at_fetch, loaded_history.
  simpl.
  destruct (is_connected app (world s)) eqn:Hup; simpl.
  - destruct (history_file s) as [gift_history|]; simpl.
    + destruct (history_dict gift_history []) as [old|e]; simpl; [|discriminate].
      destruct (get_available_gifts app (world s)) as [[gifts|e] w]; simpl;
        [|discriminate].
      intros _. split; [left; reflexivity | eauto].
    + destruct (get_available_gifts app (world s)) as [[gifts|e] w]; simpl;
        [|discriminate].
      intros _. split; [left; reflexivity | eauto].
  - destruct (start app (world s)) as [[[]|e] w1]; simpl; [|discriminate].
    destruct (history_file s) as [gift_history|]; simpl.
    + destruct (history_dict gift_history []) as [old|e]; simpl; [|discriminate].
      destruct (get_available_gifts app w1) as [[gifts|e] w]; simpl;
        [|discriminate].
      intros _. split; [right; reflexivity | eauto].
    + destruct (get_available_gifts app w1) as [[gifts|e] w]; simpl;
        [|discriminate].
      intros _. split; [right; reflexivity | eauto].
Qed.

Lemma new_gifts_of_known old (gifts : list Gift) :
  Forall (fun gift => dict_contains value_eqb (VInt (gift_id_of gift)) old = true)
         gifts ->
  new_gifts_of old (catalog_dict gifts) = [].
Proof.
  intros Hknown. unfold new_gifts_of.
  assert (Hall : Forall (fun kv : Z * gmap string value =>
                           negb (dict_contains value_eqb (VInt kv.1) old) = false)
                        (catalog_dict gifts)).
  { apply Forall_forall. intros kv Hkv.
    destruct (catalog_dict_entries _ _ Hkv) as (gift & Hgift & ->). simpl.
    rewrite Forall_forall in Hknown. rewrite (Hknown _ Hgift). reflexivity. }
  induction Hall as [|kv rest Hkv _ IH]; simpl; [reflexivity|].
  rewrite Hkv. exact IH.
Qed.

Lemma with_mutations_nil (current_gifts : gift_dict) :
  with_mutations current_gifts [] = current_gifts.
Proof.
  unfold with_mutations. simpl. apply map_id.
Qed.

(** A cycle in which the history knows every fetched id. *)
Lemma detection_cycle_no_new (app : Client W) callback animation_counter
    (s : store W) old gifts w :
  is_connected app (world s) = true \/ (start app (world s)).1 = Ok tt ->
  loaded_history s = Ok old ->
  get_available_gifts app (world_at_fetch app s) = (Ok gifts, w) ->
  Forall (fun gift => dict_contains value_eqb (VInt (gift_id_of gift)) old = true)
         gifts ->
  detection_cycle t config app callback animation_counter s
  = (Ok ((animation_counter + 1) mod ANIMATION_FRAMES),
     {| world := w; history_file := Some (map snd (catalog_dict gifts)) |},
     checking_steps t animation_counter ++ [EvSleep (INTERVAL config)]).
Proof.
  intros Hconn Hload Hfetch Hknown.
  rewrite (detection_cycle_after_fetch _ _ _ _ _ _ _ Hconn Hload Hfetch).
  rewrite (new_gifts_of_known _ _ Hknown). unfold ret. simpl.
  rewrite with_mutations_nil. reflexivity.
Qed.

(** X13. New gifts are told by id alone. In a cycle where the history read
    at its start knows the id of every fetched gift, no gift is new whatever
    else changed in the records: the callback is not invoked and no summary
    is sent, the fetched catalog is written as the new snapshot, and the
    cycle sleeps the configured interval. *)
Theorem detection_cycle_known_ids (app : Client W)
    (callback : Client W -> gmap string value -> M W unit)
    (animation_counter : Z) (s : store W)
    (old : list (value * gmap string value)) (gifts : list Gift) (w : W) :
  is_connected app (world s) = true \/ (start app (world s)).1 = Ok tt ->
  loaded_history s = Ok old ->
  get_available_gifts app (world_at_fetch app s) = (Ok gifts, w) ->
  Forall (fun gift => dict_contains value_eqb (VInt (gift_id_of gift)) old = true)
         gifts ->
  detection_cycle t config app callback animation_counter s
  = (Ok ((animation_counter + 1) mod ANIMATION_FRAMES),
     {| world := w; history_file := Some (map snd (catalog_dict gifts)) |},
     checking_steps t animation_counter ++ [EvSleep (INTERVAL config)]).
Proof. apply detection_cycle_no_new. Qed.

(** The records that [_process_new_gifts] hands back carry their id. *)
Lemma callback_loop_ids (app : Client W) callback prioritized_gifts :
  forall (s s' : store W) mutated evs,
    callback_loop app callback prioritized_gifts s = (Ok mutated, s', evs) ->
    Forall (fun kv : Z * gmap string value => kv.2 !! "id" = Some (VInt kv.1))
           mutated.
Proof.
  induction prioritized_gifts as [|[gift_id gift_data] rest IH];
    intros s s' mutated evs; simpl.
  - unfold ret. intros [= <- _ _]. constructor.
  - unfold bind, ret.
    destruct (callback app _ s) as [[[[]|e] s1] evs1]; [|discriminate].
    specialize (IH s1).
    destruct (callback_loop app callback rest s1) as [[[rest'|e] s2] evs2];
      [|discriminate].
    intros [= <- _ _]. constructor.
    + simpl. apply lookup_insert_eq.
    + eapply IH. reflexivity.
Qed.

Lemma _process_new_gifts_ids (app : Client W) new_gifts gift_ids callback
    (s s' : store W) mutated evs :
  _process_new_gifts t config app new_gifts gift_ids callback s
  = (Ok mutated, s', evs) ->
  Forall (fun kv : Z * gmap string value => kv.2 !! "id" = Some (VInt kv.1))
         mutated.
Proof.
  unfold _process_new_gifts, bind at 1, info, emit.
  destruct (prioritize_gifts config new_gifts gift_ids) as [prioritized|e];
    [|discriminate].
  unfold bind at 1.
  destruct (callback_loop app callback prioritized s) as [[[m|e] s1] evs1] eqn:Hloop;
    [|discriminate].
  apply callback_loop_ids in Hloop.
  unfold bind, send_summary_message, emit, ret.
  destruct (_ || _); simpl; intros [= <- _ _]; exact Hloop.
Qed.

Lemma with_mutations_ids (current_gifts mutated : gift_dict) :
  Forall (fun kv : Z * gmap string value => kv.2 !! "id" = Some (VInt kv.1))
         current_gifts ->
  Forall (fun kv : Z * gmap string value => kv.2 !! "id" = Some (VInt kv.1))
         mutated ->
  Forall (fun kv : Z * gmap string value => kv.2 !! "id" = Some (VInt kv.1))
         (with_mutations current_gifts mutated)
  /\ map fst (with_mutations current_gifts mutated) = map fst current_gifts.
Proof.
  intros Hcur Hmut. unfold with_mutations. split.
  - apply Forall_map. eapply Forall_impl; [exact Hcur|].
    intros kv Hkv. simpl.
    destruct (find (fun m : Z * gmap string value => m.1 =? kv.1) mutated)
      as [m|] eqn:Hfind; [|exact Hkv].
    apply find_some in Hfind as [Hin Heq]. apply Z.eqb_eq in Heq.
    simpl. rewrite <- Heq.
    rewrite Forall_forall in Hmut. apply Hmut. apply list_elem_of_In. exact Hin.
  - rewrite map_map. apply map_ext. intros kv.
    destruct (find _ mutated); reflexivity.
Qed.

(** After a completed cycle the snapshot can be read and knows every id that
    the cycle fetched. *)
Lemma completed_cycle_snapshot (app : Client W) callback animation_counter
    (s s1 : store W) c1 evs1 gifts w :
  detection_cycle t config app callback animation_counter s = (Ok c1, s1, evs1) ->
  get_available_gifts app (world_at_fetch app s) = (Ok gifts, w) ->
  exists old,
    loaded_history s1 = Ok old
    /\ Forall (fun gift =>
                 dict_contains value_eqb (VInt (gift_id_of gift)) old = true)
              gifts.
Proof.
  intros Hcycle Hfetch.
  destruct (detection_cycle_inv _ _ _ _ _ _ _ Hcycle)
    as (Hconn & old0 & gifts0 & w0 & Hload & Hfetch0).
  rewrite Hfetch in Hfetch0. injection Hfetch0 as <- <-.
  rewrite (detection_cycle_after_fetch _ _ _ _ _ _ _ Hconn Hload Hfetch)
    in Hcycle.
  assert (Hmut : forall mutated s3 evs,
             match new_gifts_of old0 (catalog_dict gifts) with
             | [] => ret []
             | _ :: _ =>
                 _process_new_gifts t config app
                   (new_gifts_of old0 (catalog_dict gifts))
                   (map fst (catalog_dict gifts)) callback
             end {| world := w; history_file := history_file s |}
             = (Ok mutated, s3, evs) ->
             Forall (fun kv : Z * gmap string value =>
                       kv.2 !! "id" = Some (VInt kv.1)) mutated).
  { intros mutated s3 evs.
    destruct (new_gifts_of old0 (catalog_dict gifts)).
    - unfold ret. intros [= <- _ _]. constructor.
    - apply _process_new_gifts_ids. }
  destruct (match new_gifts_of old0 (catalog_dict gifts) with
            | [] => ret []
            | _ :: _ => _
            end _) as [[[mutated|e] s3] evs]; [|discriminate].
  specialize (Hmut _ _ _ eq_refl).
  injection Hcycle as _ <- _.
  destruct (catalog_dict_ids gifts) as (_ & Hkeys & Hentries).
  assert (Hcur : Forall (fun kv : Z * gmap string value =>
                           kv.2 !! "id" = Some (VInt kv.1)) (catalog_dict gifts)).
  { eapply Forall_impl; [exact Hentries|]. intros kv [Hid _]. exact Hid. }
  destruct (with_mutations_ids _ _ Hcur Hmut) as [Hsaved Hfst].
  unfold loaded_history. simpl.
  assert (Hsome : Forall (fun gift : gmap string value => is_Some (gift !! "id"))
                    (map snd (with_mutations (catalog_dict gifts) mutated))).
  { apply Forall_map. eapply Forall_impl; [exact Hsaved|].
    intros kv Hkv. simpl. rewrite Hkv. eauto. }
  destruct (history_dict_ok _ Hsome []) as [old Hold].
  exists old. split; [exact Hold|].
  destruct (history_dict_contains _ _ _ Hold) as [_ Hknown].
  apply Forall_forall. intros gift Hgift.
  assert (Hkey : gift_id_of gift
                 ∈ map fst (with_mutations (catalog_dict gifts) mutated)).
  { rewrite Hfst. apply Hkeys. apply list_elem_of_fmap. eauto. }
  apply list_elem_of_fmap in Hkey as (kv & Hk & Hkv).
  rewrite Forall_forall in Hsaved. pose proof (Hsaved _ Hkv) as Hid.
  rewrite Forall_forall in Hknown.
  destruct (Hknown kv.2) as (gift_id & Hid' & Hc).
  { apply list_elem_of_fmap. eauto. }
  rewrite Hid in Hid'. injection Hid' as <-. rewrite Hk. exact Hc.
Qed.

(** X14. A second look at an unchanged catalog buys nothing. When a cycle
    has completed, the next cycle, if it fetches only gifts whose ids the
    first cycle fetched, finds no new gift: whatever the callback is, it is
    not invoked, and the cycle consists of the checking line, the snapshot
    write and the interval sleep. *)
Theorem second_cycle_finds_nothing_new (app : Client W)
    (callback : Client W -> gmap string value -> M W unit)
    (animation_counter c1 : Z) (s s1 : store W) (evs1 : list event)
    (gifts1 gifts2 : list Gift) (w1 w2 : W) :
  detection_cycle t config app callback animation_counter s = (Ok c1, s1, evs1) ->
  get_available_gifts app (world_at_fetch app s) = (Ok gifts1, w1) ->
  is_connected app (world s1) = true \/ (start app (world s1)).1 = Ok tt ->
  get_available_gifts app (world_at_fetch app s1) = (Ok gifts2, w2) ->
  Forall (fun gift => gift_id_of gift ∈ map gift_id_of gifts1) gifts2 ->
  detection_cycle t config app callback c1 s1
  = (Ok ((c1 + 1) mod ANIMATION_FRAMES),
     {| world := w2; history_file := Some (map snd (catalog_dict gifts2)) |},
     checking_steps t c1 ++ [EvSleep (INTERVAL config)]).
Proof.
  intros Hcycle Hfetch1 Hconn Hfetch2 Hids.
  destruct (completed_cycle_snapshot _ _ _ _ _ _ _ _ _ Hcycle Hfetch1)
    as (old & Hload & Hknown).
  apply (detection_cycle_no_new _ _ _ _ old gifts2 w2 Hconn Hload Hfetch2).
  apply Forall_forall. intros gift2 Hgift2.
  rewrite Forall_forall in Hids. specialize (Hids _ Hgift2).
  apply list_elem_of_fmap in Hids as (gift1 & Heq & Hgift1).
  rewrite Forall_forall in Hknown. rewrite Heq. apply Hknown, Hgift1.
Qed.

End Cycles.

Lemma detection_cycle_known_ids_witness :
  detection_cycle echo overlapping_config shop
    (new_callback echo overlapping_config) 0
    {| world := 25; history_file := Some [gift_to_json listed_gift] |}
  = (Ok ((0 + 1) mod ANIMATION_FRAMES),
     {| world := 25;
        history_file := Some (map snd (catalog_dict [listed_gift])) |},
     checking_steps echo 0 ++ [EvSleep (INTERVAL overlapping_config)]).
Proof.
  apply (detection_cycle_known_ids echo overlapping_config shop
           (new_callback echo overlapping_config) 0
           {| world := 25; history_file := Some [gift_to_json listed_gift] |}
           [(VInt 7, gift_to_json listed_gift)] [listed_gift] 25).
  - left. reflexivity.
  - vm_compute. reflexivity.
  - reflexivity.
  - repeat constructor.
Defined.

Lemma second_cycle_finds_nothing_new_witness :
  detection_cycle echo overlapping_config shop
    (new_callback echo overlapping_config) 1
    (final (detection_cycle echo overlapping_config shop
              (new_callback echo overlapping_config) 0 (store_with 25)))
  = (Ok ((1 + 1) mod ANIMATION_FRAMES),
     {| world := 5;
        history_file := Some (map snd (catalog_dict [listed_gift])) |},
     checking_steps echo 1 ++ [EvSleep (INTERVAL overlapping_config)]).
Proof.
  apply (second_cycle_finds_nothing_new echo overlapping_config shop
           (new_callback echo overlapping_config) 0 1 (store_with 25)
           (final (detection_cycle echo overlapping_config shop
                     (new_callback echo overlapping_config) 0 (store_with 25)))
           (steps (detection_cycle echo overlapping_config shop
                     (new_callback echo overlapping_config) 0 (store_with 25)))
           [listed_gift] [listed_gift] 25 5).
  - vm_compute. reflexivity.
  - reflexivity.
  - left. reflexivity.
  - vm_compute. reflexivity.
  - repeat constructor.
Defined.

(** ** Parsing the configuration *)

Example split_char_example :
  split_char "," "a,,b" = ["a"; ""; "b"] /\ split_char "," "" = [""].
Proof. split; reflexivity. Qed.

Example split_str_example :
  split_str " x " 0 "100 x 2" = ["100"; "2"]
  /\ split_str " x " 0 " x x " = [""; "x "]
  /\ split_once ":" "10-50: 100 x 2: @a" = Some ("10-50", " 100 x 2: @a").
Proof. repeat split; reflexivity. Qed.

Lemma split_char_pieces (sep : ascii) (s : string) :
  Forall (fun piece => has_char sep piece = false) (split_char sep s).
Proof.
  induction s as [|c rest IH]; simpl.
  - repeat constructor.
  - destruct (Ascii.eqb c sep) eqn:Hc.
    + constructor; [reflexivity | exact IH].
    + destruct (split_char sep rest) as [|piece pieces].
      * repeat constructor. simpl. rewrite Hc. reflexivity.
      * apply Forall_cons in IH as [Hp Hps]. constructor; [|exact Hps].
        simpl. rewrite Hc. exact Hp.
Qed.

Lemma split_char_none (sep : ascii) (s : string) :
  has_char sep s = false -> split_char sep s = [s].
Proof.
  induction s as [|c rest IH]; simpl.
  - reflexivity.
  - intros H. apply orb_false_iff in H as [Hc Hrest].
    rewrite Hc, (IH Hrest). reflexivity.
Qed.

Lemma split_once_parts (sep c : ascii) (s before after : string) :
  split_once sep s = Some (before, after) ->
  has_char c s = false ->
  has_char c before = false /\ has_char c after = false.
Proof.
  revert before. induction s as [|a rest IH]; intros before; simpl.
  - discriminate.
  - intros Hsplit H. apply orb_false_iff in H as [Ha Hrest].
    destruct (Ascii.eqb a sep).
    + injection Hsplit as <- <-. split; [reflexivity | exact Hrest].
    + destruct (split_once sep rest) as [[b' a']|]; [|discriminate].
      injection Hsplit as <- <-.
      destruct (IH b' eq_refl Hrest) as [Hb Hafter].
      split; [simpl; rewrite Ha; exact Hb | exact Hafter].
Qed.

Section ConfigProperties.

Variable py_strip : string -> string.
Variable py_isdigit : string -> bool.
Variable py_int : string -> option Z.

(** X15. [_parse_single_recipient] accepts a recipient written with a leading
    [@], which it drops, and one that [isdigit] accepts, which it reads as an
    integer. For every other text, that is a user name written without [@],
    it raises [TypeError]: the condition of the last processor is a lambda
    without parameters and is called with the text. *)
Theorem parse_single_recipient_cases (uid : string) :
  (String.prefix "@" uid = true ->
   _parse_single_recipient py_isdigit py_int uid
   = Ok (Some (RName (str_tail uid))))
  /\ (String.prefix "@" uid = false -> py_isdigit uid = true ->
      _parse_single_recipient py_isdigit py_int uid
      = match py_int uid with
        | Some n => Ok (Some (RId n))
        | None => Raise IntError
        end)
  /\ (String.prefix "@" uid = false -> py_isdigit uid = false ->
      _parse_single_recipient py_isdigit py_int uid = Raise ArityError).
Proof.
  unfold _parse_single_recipient, int_handler. simpl. repeat split.
  - intros ->. reflexivity.
  - intros -> ->. destruct (py_int uid); reflexivity.
  - intros -> ->. reflexivity.
Qed.

Lemma _parse_single_recipient_ok uid r :
  _parse_single_recipient py_isdigit py_int uid = Ok r ->
  String.prefix "@" uid = true \/ py_isdigit uid = true.
Proof.
  unfold _parse_single_recipient. simpl.
  destruct (String.prefix "@" uid); [auto|].
  destruct (py_isdigit uid); [auto | discriminate].
Qed.

Lemma parse_recipient_items_ok items rs :
  parse_recipient_items py_strip py_isdigit py_int items = Ok rs ->
  Forall (fun item =>
            py_strip item = ""
            \/ String.prefix "@" (py_strip item) = true
            \/ py_isdigit (py_strip item) = true) items
  /\ (length rs <= length items)%nat.
Proof.
  revert rs. induction items as [|item rest IH]; intros rs; simpl.
  - intros [= <-]. split; [constructor | simpl; lia].
  - destruct (String.eqb_spec (py_strip item) "") as [Hempty|Hne].
    + intros H. destruct (IH _ H) as [Hall Hlen].
      split; [constructor; [left; exact Hempty | exact Hall] | lia].
    + destruct (_parse_single_recipient py_isdigit py_int (py_strip item))
        as [r|e] eqn:Hr; [|discriminate].
      destruct (parse_recipient_items py_strip py_isdigit py_int rest)
        as [rs'|e]; [|discriminate].
      intros [= <-]. destruct (IH _ eq_refl) as [Hall Hlen].
      split; [|simpl; lia].
      constructor; [right; apply (_parse_single_recipient_ok _ _ Hr) | exact Hall].
Qed.

Lemma omap_id_length {A : Type} (l : list (option A)) :
  (length (omap id l) <= length l)%nat.
Proof.
  induction l as [|[a|] l IH]; cbn in *; lia.
Qed.

(** X16. [_parse_recipients_list] returns a list only when every entry
    between the commas is, once stripped, empty, written with a leading [@],
    or numeric; a single bare user name makes the whole parse raise. The list
    never has more recipients than the text has entries. *)
Theorem parse_recipients_list_entries (recipients_str : string)
    (recipients : list recipient) :
  _parse_recipients_list py_strip py_isdigit py_int recipients_str
  = Ok recipients ->
  Forall (fun item =>
            py_strip item = ""
            \/ String.prefix "@" (py_strip item) = true
            \/ py_isdigit (py_strip item) = true)
         (split_char "," recipients_str)
  /\ (length recipients <= length (split_char "," recipients_str))%nat.
Proof.
  unfold _parse_recipients_list.
  destruct (parse_recipient_items _ _ _ _) as [rs|e] eqn:Hitems; [|discriminate].
  intros [= <-]. destruct (parse_recipient_items_ok _ _ Hitems) as [Hall Hlen].
  split; [exact Hall|]. pose proof (omap_id_length rs). lia.
Qed.

Hypothesis strip_keeps_comma_free :
  forall s, has_char "," s = false -> has_char "," (py_strip s) = false.

Lemma _parse_recipients_list_single recipients_str rs :
  has_char "," recipients_str = false ->
  _parse_recipients_list py_strip py_isdigit py_int recipients_str = Ok rs ->
  (length rs <= 1)%nat.
Proof.
  intros Hfree. unfold _parse_recipients_list.
  rewrite (split_char_none _ _ Hfree).
  destruct (parse_recipient_items _ _ _ _) as [rs'|e] eqn:Hitems; [|discriminate].
  intros [= <-]. destruct (parse_recipient_items_ok _ _ Hitems) as [_ Hlen].
  pose proof (omap_id_length rs'). simpl in Hlen. lia.
Qed.

Lemma parse_range_fields_one_recipient range_item rc :
  has_char "," range_item = false ->
  parse_range_fields py_strip py_isdigit py_int range_item = Ok rc ->
  (length (recipients rc) <= 1)%nat.
Proof.
  intros Hfree. unfold parse_range_fields.
  destruct (split_once ":" range_item) as [[price_part rest]|] eqn:H1;
    [|discriminate].
  destruct (split_once_parts _ "," _ _ _ H1 Hfree) as [_ Hrest].
  apply strip_keeps_comma_free in Hrest.
  destruct (split_once ":" (py_strip rest)) as [[supply_qty_part recipients_part]|]
    eqn:H2; [|discriminate].
  destruct (split_once_parts _ "," _ _ _ H2 Hrest) as [_ Hrec].
  apply strip_keeps_comma_free in Hrec.
  destruct (split_str " x " 0 (py_strip supply_qty_part))
    as [|supply_part [|quantity_part [|]]]; try discriminate.
  destruct (split_char "-" (py_strip price_part)) as [|low [|high [|]]];
    try discriminate.
  destruct (py_int low); [|discriminate].
  destruct (py_int high); [|discriminate].
  destruct (py_int (py_strip supply_part)); [|discriminate].
  destruct (py_int (py_strip quantity_part)); [|discriminate].
  destruct (_parse_recipients_list py_strip py_isdigit py_int
              (py_strip recipients_part)) as [rs|e] eqn:Hrs; [|discriminate].
  intros [= <-]. simpl.
  apply (_parse_recipients_list_single _ _ Hrec Hrs).
Qed.

Lemma _parse_single_recipient_error uid e :
  _parse_single_recipient py_isdigit py_int uid = Raise e ->
  e = ArityError \/ e = IntError.
Proof.
  unfold _parse_single_recipient, int_handler. simpl.
  destruct (String.prefix "@" uid); [discriminate|].
  destruct (py_isdigit uid).
  - destruct (py_int uid); [discriminate|]. intros [= <-]. right. reflexivity.
  - intros [= <-]. left. reflexivity.
Qed.

Lemma parse_recipient_items_error items e :
  parse_recipient_items py_strip py_isdigit py_int items = Raise e ->
  e = ArityError \/ e = IntError.
Proof.
  induction items as [|item rest IH]; simpl.
  - discriminate.
  - destruct (String.eqb (py_strip item) ""); [exact IH|].
    destruct (_parse_single_recipient py_isdigit py_int (py_strip item))
      as [r|e'] eqn:Hr.
    + destruct (parse_recipient_items py_strip py_isdigit py_int rest)
        as [rs|e']; [discriminate|].
      intros [= <-]. apply IH. reflexivity.
    + intros [= <-]. apply (_parse_single_recipient_error _ _ Hr).
Qed.

Lemma parse_range_fields_error range_item e :
  parse_range_fields py_strip py_isdigit py_int range_item = Raise e ->
  e = ArityError \/ is_ValueError_or_IndexError e = true.
Proof.
  unfold parse_range_fields.
  destruct (split_once ":" range_item) as [[price_part rest]|];
    [|intros [= <-]; right; reflexivity].
  destruct (split_once ":" (py_strip rest)) as [[supply_qty_part recipients_part]|];
    [|intros [= <-]; right; reflexivity].
  destruct (split_str " x " 0 (py_strip supply_qty_part))
    as [|supply_part [|quantity_part [|]]];
    try (intros [= <-]; right; reflexivity).
  destruct (split_char "-" (py_strip price_part)) as [|low [|high [|]]];
    try (intros [= <-]; right; reflexivity).
  destruct (py_int low); [|intros [= <-]; right; reflexivity].
  destruct (py_int high); [|intros [= <-]; right; reflexivity].
  destruct (py_int (py_strip supply_part)); [|intros [= <-]; right; reflexivity].
  destruct (py_int (py_strip quantity_part));
    [|intros [= <-]; right; reflexivity].
  unfold _parse_recipients_list.
  destruct (parse_recipient_items _ _ _ _) as [rs|e'] eqn:Hitems; [discriminate|].
  intros [= <-].
  destruct (parse_recipient_items_error _ _ Hitems) as [-> | ->];
    [left | right]; reflexivity.
Qed.

(** X17. [_parse_single_range] turns every malformed item into the empty
    dictionary and one error line, with one exception: the [TypeError] of a
    recipient written as a bare user name is not among the exceptions it
    catches and leaves the function, with nothing logged. A parsed range is
    returned without an error line. *)
Theorem parse_single_range_outcomes (range_item : string) :
  (forall e,
      (_parse_single_range py_strip py_isdigit py_int range_item).1 = Raise e ->
      e = ArityError
      /\ (_parse_single_range py_strip py_isdigit py_int range_item).2 = [])
  /\ ((_parse_single_range py_strip py_isdigit py_int range_item).1 = Ok None ->
      (_parse_single_range py_strip py_isdigit py_int range_item).2
      = [EvLog ERROR ("Invalid gift range format: " +:+ range_item)])
  /\ (forall rc,
        (_parse_single_range py_strip py_isdigit py_int range_item).1
        = Ok (Some rc) ->
        parse_range_fields py_strip py_isdigit py_int range_item = Ok rc
        /\ (_parse_single_range py_strip py_isdigit py_int range_item).2 = []).
Proof.
  unfold _parse_single_range.
  destruct (parse_range_fields py_strip py_isdigit py_int range_item)
    as [rc|e] eqn:Hf; simpl.
  - split; [intros e; discriminate|]. split; [discriminate|].
    intros rc' [= <-]. split; reflexivity.
  - destruct (parse_range_fields_error _ _ Hf) as [-> | He].
    + simpl. split; [|split; [discriminate | intros rc; discriminate]].
      intros e [= <-]. split; reflexivity.
    + rewrite He. simpl. split; [intros e'; discriminate|].
      split; [reflexivity | intros rc; discriminate].
Qed.

Lemma parse_range_items_one_recipient items ranges logs :
  Forall (fun item => has_char "," item = false) items ->
  parse_range_items py_strip py_isdigit py_int items = (Ok ranges, logs) ->
  Forall (fun r => match r with
                   | Some rc => (length (recipients rc) <= 1)%nat
                   | None => True
                   end) ranges.
Proof.
  intros Hfree. revert ranges logs.
  induction Hfree as [|item rest Hitem _ IH]; intros ranges logs; simpl.
  - intros [= <- _]. constructor.
  - destruct (String.eqb (py_strip item) ""); [apply IH|].
    unfold _parse_single_range.
    destruct (parse_range_fields py_strip py_isdigit py_int (py_strip item))
      as [rc|e] eqn:Hf.
    + destruct (parse_range_items py_strip py_isdigit py_int rest)
        as [[rs|e] logs']; [|discriminate].
      intros [= <- _]. constructor; [|eapply IH; reflexivity].
      apply (parse_range_fields_one_recipient (py_strip item));
        [apply strip_keeps_comma_free, Hitem | exact Hf].
    + destruct (is_ValueError_or_IndexError e); [|discriminate].
      destruct (parse_range_items py_strip py_isdigit py_int rest)
        as [[rs|e'] logs']; [|discriminate].
      intros [= <- _]. constructor; [exact I | eapply IH; reflexivity].
Qed.

(** X18. No range that [_parse_gift_ranges] returns has more than one
    recipient: the setting is cut at every comma before the ranges are
    parsed, so the recipients text of a range never holds a comma, and what
    follows a comma is parsed as a range of its own. *)
Theorem parse_gift_ranges_one_recipient (ranges_str : string)
    (ranges : list range_config) :
  (_parse_gift_ranges py_strip py_isdigit py_int ranges_str).1 = Ok ranges ->
  Forall (fun rc => (length (recipients rc) <= 1)%nat) ranges.
Proof.
  unfold _parse_gift_ranges.
  destruct (parse_range_items py_strip py_isdigit py_int
              (split_char "," ranges_str)) as [[rs|e] logs] eqn:Hitems;
    [|discriminate].
  simpl. intros [= <-].
  pose proof (parse_range_items_one_recipient _ _ _
                (split_char_pieces "," ranges_str) Hitems) as Hall.
  clear Hitems. induction Hall as [|[rc|] rs Hr _ IH]; cbn.
  - constructor.
  - constructor; assumption.
  - exact IH.
Qed.

(** X19. [_parse_channel_id] gives no channel for an empty text and for
    [-100], keeps a name written with [@], and puts [@] before any other text
    that is not numeric; unlike a recipient, a bare name is accepted. So
    every name it returns starts with [@], and it raises only when [int]
    does. *)
Theorem parse_channel_id_cases (env_value : string) :
  (py_strip env_value = "" \/ py_strip env_value = "-100" ->
   _parse_channel_id py_strip py_isdigit py_int env_value = Ok None)
  /\ (py_strip env_value <> "" -> py_strip env_value <> "-100" ->
      String.prefix "@" (py_strip env_value) = false ->
      String.prefix "-" (py_strip env_value)
      && py_isdigit (str_tail (py_strip env_value)) = false ->
      py_isdigit (py_strip env_value) = false ->
      _parse_channel_id py_strip py_isdigit py_int env_value
      = Ok (Some (RName ("@" +:+ py_strip env_value))))
  /\ (forall name,
        _parse_channel_id py_strip py_isdigit py_int env_value
        = Ok (Some (RName name)) ->
        String.prefix "@" name = true)
  /\ (forall e,
        _parse_channel_id py_strip py_isdigit py_int env_value = Raise e ->
        e = IntError).
Proof.
  unfold _parse_channel_id, int_handler. simpl. repeat split.
  - intros [-> | ->]; reflexivity.
  - intros H1 H2 H3 H4 H5.
    apply String.eqb_neq in H1, H2. rewrite H1, H2, H3, H4, H5. reflexivity.
  - intros name.
    destruct (_ || _); [discriminate|].
    destruct (String.prefix "@" _) eqn:Hat; [intros [= <-]; exact Hat|].
    destruct (_ && _).
    + destruct (py_int _); discriminate.
    + destruct (py_isdigit _).
      * destruct (py_int _) as [n|]; [destruct (n =? 0)|]; discriminate.
      * intros [= <-]. destruct (py_strip env_value); reflexivity.
  - intros e.
    destruct (_ || _); [discriminate|].
    destruct (String.prefix "@" _); [discriminate|].
    destruct (_ && _).
    + destruct (py_int _); [discriminate|]. intros [= <-]. reflexivity.
    + destruct (py_isdigit _).
      * destruct (py_int _); [discriminate|]. intros [= <-]. reflexivity.
      * discriminate.
Qed.

End ConfigProperties.

(** *** The parsers on ASCII text *)

Lemma has_char_lstrip c s :
  has_char c s = false -> has_char c (lstrip s) = false.
Proof.
  induction s as [|a s IH]; simpl; [reflexivity|].
  intros H. destruct (is_whitespace a); [|exact H].
  apply IH. apply orb_false_iff in H. apply H.
Qed.

Lemma has_char_rev_app c s1 s2 :
  has_char c (String.rev_app s1 s2) = has_char c s1 || has_char c s2.
Proof.
  revert s2. induction s1 as [|a s1 IH]; intros s2; simpl; [reflexivity|].
  rewrite IH. simpl. destruct (Ascii.eqb a c), (has_char c s1); reflexivity.
Qed.

Lemma has_char_rev c s : has_char c (String.rev s) = has_char c s.
Proof.
  unfold String.rev. rewrite has_char_rev_app. simpl. apply orb_false_r.
Qed.

Lemma strip_keeps_char_free c s :
  has_char c s = false -> has_char c (strip s) = false.
Proof.
  intros H. unfold strip. rewrite has_char_rev. apply has_char_lstrip.
  rewrite has_char_rev. apply has_char_lstrip, H.
Qed.

Lemma parse_single_recipient_cases_witness :
  _parse_single_recipient isdigit ascii_int "@alice" = Ok (Some (RName "alice"))
  /\ _parse_single_recipient isdigit ascii_int "12345" = Ok (Some (RId 12345))
  /\ _parse_single_recipient isdigit ascii_int "alice" = Raise ArityError.
Proof.
  split; [|split].
  - apply (parse_single_recipient_cases isdigit ascii_int "@alice").
    reflexivity.
  - apply (parse_single_recipient_cases isdigit ascii_int "12345");
      reflexivity.
  - apply (parse_single_recipient_cases isdigit ascii_int "alice");
      reflexivity.
Defined.

Lemma parse_recipients_list_entries_witness :
  _parse_recipients_list strip isdigit ascii_int "@alice, 12345, "
  = Ok [RName "alice"; RId 12345]
  /\ (length [RName "alice"; RId 12345]
      <= length (split_char "," "@alice, 12345, "))%nat.
Proof.
  split; [reflexivity|].
  apply (parse_recipients_list_entries strip isdigit ascii_int
           "@alice, 12345, " [RName "alice"; RId 12345]).
  reflexivity.
Defined.

Lemma parse_single_range_outcomes_witness :
  (_parse_single_range strip isdigit ascii_int "1-100: 500 x 2: alice").2 = []
  /\ (_parse_single_range strip isdigit ascii_int "1-100: 500: @alice").2
     = [EvLog ERROR "Invalid gift range format: 1-100: 500: @alice"]
  /\ parse_range_fields strip isdigit ascii_int "1-100: 500 x 2: @alice"
     = Ok {| min_price := 1; max_price := 100; supply_limit := 500;
             quantity := 2; recipients := [RName "alice"] |}.
Proof.
  split; [|split].
  - apply (parse_single_range_outcomes strip isdigit ascii_int
             "1-100: 500 x 2: alice") with (e := ArityError).
    reflexivity.
  - apply (parse_single_range_outcomes strip isdigit ascii_int
             "1-100: 500: @alice").
    reflexivity.
  - apply (parse_single_range_outcomes strip isdigit ascii_int
             "1-100: 500 x 2: @alice").
    reflexivity.
Defined.

Lemma parse_gift_ranges_one_recipient_witness :
  _parse_gift_ranges strip isdigit ascii_int "1-100: 500 x 2: @alice, @bob"
  = (Ok [{| min_price := 1; max_price := 100; supply_limit := 500;
            quantity := 2; recipients := [RName "alice"] |}],
     [EvLog ERROR "Invalid gift range format: @bob"])
  /\ Forall (fun rc => (length (recipients rc) <= 1)%nat)
       [{| min_price := 1; max_price := 100; supply_limit := 500;
           quantity := 2; recipients := [RName "alice"] |}].
Proof.
  split; [reflexivity|].
  apply (parse_gift_ranges_one_recipient strip isdigit ascii_int
           (strip_keeps_char_free ",") "1-100: 500 x 2: @alice, @bob").
  reflexivity.
Defined.

Lemma parse_channel_id_cases_witness :
  _parse_channel_id strip isdigit ascii_int " -100 " = Ok None
  /\ _parse_channel_id strip isdigit ascii_int "my_channel"
     = Ok (Some (RName "@my_channel"))
  /\ String.prefix "@" "@news" = true.
Proof.
  split; [|split].
  - apply (parse_channel_id_cases strip isdigit ascii_int " -100 ").
    right. reflexivity.
  - apply (parse_channel_id_cases strip isdigit ascii_int "my_channel");
      [discriminate | discriminate | reflexivity | reflexivity | reflexivity].
  - apply (parse_channel_id_cases strip isdigit ascii_int " @news ").
    reflexivity.
Defined.
